(** * PDF acquisition: [download_remaining_pdfs.py] and [retry_failed_downloads.py]

    A shallow embedding of the two download scripts of the textbook archive
    ([DirectPDFDownloader] and [RetryFailedDownloader]) together with the
    properties the design document states about them.

    Conventions of the embedding.
    - Python [str] and the text of a response are [string]; the payload of a
      response and the content of a file are [list byte].
    - A [pathlib.Path] is the string [str(path)] gives.
    - The file system is a finite map from paths to contents.  An operation on
      a path may raise; which operations raise on which paths is fixed for a
      run by the environment ([env_fault]).  That goes for [Path.exists] too,
      which passes on every error of its [stat] but the absence of the file,
      and for [f.write], which may raise at any offset of the file and then
      leaves the bytes written before it.
    - [Path(s)] followed by [str] puts a path in the normal form of
      [pathlib], POSIX flavour ([Str.str_path]).
    - [requests.Session.get] is an oracle: the reply to the [n]-th request of
      the run for a given URL ([env_reply]).
    - [print] is not modelled, except that the attempt banner, every request
      and every [time.sleep] leave an event in the trace of the run.
    - An exception is a value of [exn]; [str(e)] is the value itself. *)

From Stdlib Require Import ZArith QArith List Strings.String Strings.Ascii Strings.Byte Bool Lia.
From stdpp Require Import base option list gmap strings.

Open Scope string_scope.
Open Scope Z_scope.

Abbreviation bytes := (list byte).

(** ** Strings *)

Module Str.

(** [needle in hay] *)
Fixpoint contains (needle hay : string) : bool :=
  String.prefix needle hay ||
  match hay with
  | EmptyString => false
  | String _ hay' => contains needle hay'
  end.

Definition is_upper (c : ascii) : bool :=
  (65 <=? nat_of_ascii c)%nat && (nat_of_ascii c <=? 90)%nat.

Definition lower_char (c : ascii) : ascii :=
  if is_upper c then ascii_of_nat (nat_of_ascii c + 32) else c.

(** [s.lower()] on the ASCII letters *)
Fixpoint lower (s : string) : string :=
  match s with
  | EmptyString => EmptyString
  | String c s' => String (lower_char c) (lower s')
  end.

(** the longest prefix of [s] whose characters all satisfy [p], and the rest *)
Fixpoint span (p : ascii -> bool) (s : string) : string * string :=
  match s with
  | EmptyString => (EmptyString, EmptyString)
  | String c s' =>
      if p c then let '(run, rest) := span p s' in (String c run, rest)
      else (EmptyString, s)
  end.

(** [s] without the prefix [pre], when it has that prefix *)
Fixpoint strip (pre s : string) : option string :=
  match pre, s with
  | EmptyString, _ => Some s
  | String a pre', String b s' => if Ascii.eqb a b then strip pre' s' else None
  | String _ _, EmptyString => None
  end.

Definition dquote : ascii := ascii_of_nat 34.

(** [s.split(sep)] for a [sep] of one character *)
Fixpoint split_on (sep : ascii) (s : string) : list string :=
  match s with
  | EmptyString => [EmptyString]
  | String c s' =>
      if Ascii.eqb c sep then EmptyString :: split_on sep s'
      else match split_on sep s' with
           | part :: parts => String c part :: parts
           | [] => [String c EmptyString]
           end
  end.

(** [sep.join(parts)] *)
Fixpoint join (sep : string) (parts : list string) : string :=
  match parts with
  | [] => EmptyString
  | part :: parts' =>
      match parts' with
      | [] => part
      | _ => part ++ sep ++ join sep parts'
      end
  end.

(** the root [pathlib] reads off a POSIX path: two leading slashes, no more
    and no less, are kept; any other number of them is one *)
Definition root_of (s : string) : string :=
  match s with
  | String "/" (String "/" (String "/" _)) => "/"
  | String "/" (String "/" _) => "//"
  | String "/" _ => "/"
  | _ => EmptyString
  end.

(** [str(Path(s))], POSIX flavour: the root, then the components other
    than the empty one and the dot, joined by one slash each; the dot when
    nothing is left *)
Definition str_path (s : string) : string :=
  let parts := filter (fun part => part <> EmptyString /\ part <> ".") (split_on "/" s) in
  match root_of s, parts with
  | EmptyString, [] => "."
  | root, _ => root ++ join "/" parts
  end.

End Str.

(** ** The regular expressions of the scripts

    Every pattern the two scripts hand to [re.search] is a sequence of
    literals, single character classes and starred character classes, closed
    by one capture group of the form [([class]+)].  [Rx.search] is
    [re.search(pattern, s)] followed by [.group(1)]: the leftmost position
    where the pattern matches, quantifiers greedy with backtracking. *)

Module Rx.

Definition cclass := ascii -> bool.

Inductive item :=
| Lit (s : string)
| One (c : cclass)
| Star (c : cclass).

Record pattern := { prefix : list item; group : cclass }.

Section Match.
Context {A : Type}.

(** greedy [c*] followed by the continuation [k] *)
Fixpoint star (c : cclass) (k : string -> option A) (s : string) : option A :=
  match s with
  | EmptyString => k s
  | String a s' =>
      if c a then
        match star c k s' with
        | Some r => Some r
        | None => k s
        end
      else k s
  end.

Fixpoint items (its : list item) (k : string -> option A) (s : string) : option A :=
  match its with
  | [] => k s
  | Lit l :: its' =>
      match Str.strip l s with
      | Some s' => items its' k s'
      | None => None
      end
  | One c :: its' =>
      match s with
      | String a s' => if c a then items its' k s' else None
      | EmptyString => None
      end
  | Star c :: its' => star c (items its' k) s
  end.
End Match.

(** the closing group [([class]+)]: the longest non-empty run *)
Definition capture (c : cclass) (s : string) : option string :=
  match Str.span c s with
  | (EmptyString, _) => None
  | (run, _) => Some run
  end.

Definition match_here (p : pattern) (s : string) : option string :=
  items (prefix p) (capture (group p)) s.

Fixpoint search (p : pattern) (s : string) : option string :=
  match match_here p s with
  | Some g => Some g
  | None =>
      match s with
      | EmptyString => None
      | String _ s' => search p s'
      end
  end.

Definition between (lo hi : nat) (c : ascii) : bool :=
  (lo <=? nat_of_ascii c)%nat && (nat_of_ascii c <=? hi)%nat.

Definition one_of (cs : list ascii) : cclass :=
  fun c => existsb (Ascii.eqb c) cs.

Definition none_of (cs : list ascii) : cclass :=
  fun c => negb (one_of cs c).

(** [[a-zA-Z0-9-_]] and [[a-zA-Z0-9_-]] *)
Definition id_char : cclass :=
  fun c => between 97 122 c || between 65 90 c || between 48 57 c
           || one_of ["-"%char; "_"%char] c.

End Rx.

(** ** URL resolution (both scripts) *)

Definition drive_id_patterns : list Rx.pattern :=
  [ {| Rx.prefix := [Rx.Lit "/file/d/"]; Rx.group := Rx.id_char |};
    {| Rx.prefix := [Rx.Lit "id="]; Rx.group := Rx.id_char |};
    {| Rx.prefix := [Rx.Lit "/open?id="]; Rx.group := Rx.id_char |} ].

(** [for pattern in patterns: match = re.search(pattern, url); if match: return match.group(1)] *)
Fixpoint first_match (ps : list Rx.pattern) (s : string) : option string :=
  match ps with
  | [] => None
  | p :: ps' =>
      match Rx.search p s with
      | Some g => Some g
      | None => first_match ps' s
      end
  end.

Definition extract_google_drive_id (url : string) : option string :=
  first_match drive_id_patterns url.

Definition get_egovcloud_download_url (url : string) : string :=
  if Str.contains "/index.php/s/" url then url ++ "/download" else url.

(** ** The run: file system, transport, trace *)

(** The file-system operations that may raise. *)
Inductive io_op :=
| OpExists | OpOpenRead | OpRead | OpStat | OpUnlink | OpMkdir | OpOpenWrite
| OpWrite (offset : nat).

(** The exceptions of the two scripts and of the libraries under them. *)
Inductive exn :=
| OSError (op : io_op) (path : string)
| ConnectionError (url : string)
| HTTPError (status : Z)
| StreamError
| StopIteration
| NameError
| ValueError
| NoDriveId (url : string)
| NotPdf (content_type : string)
| TooSmall (size : Z)
| AllDriveMethodsFailed
| EgovFailed
| DirectFailed
| EmptyResponse
| HtmlInsteadOfPdf
| NotPdfBytes (first : bytes).

(** Where the body of a response is: on the wire with its length known, on
    the wire in chunked transfer encoding, or read in full and kept by the
    response (after [response.text]). *)
Inductive body_kind := Plain | Chunked | Cached.

(** A [requests.Response] with [stream=True]: the chunks [iter_content]
    will yield, and whether the stream breaks after them. *)
Record response := {
  status_code : Z;
  content_type : string;
  chunks : list bytes;
  broken : bool;
  body : body_kind
}.

Inductive reply := Reply (r : response) | NetErr.

Inductive event :=
| EvAttempt (k n : Z)
| EvGet (url : string)
| EvSleep (t : Q).

Record failure := {
  fail_url : string;
  fail_file_path : string;
  fail_book_name : string;
  fail_link_number : Z;
  fail_error : exn;
  fail_attempts : option Z;
  fail_retry_attempts : option Z
}.

Record file_info := {
  info_book_name : string;
  info_link_number : Z;
  info_original_url : string;
  info_file_size : Z;
  info_download_time : option Q;
  info_status : option string;
  info_attempt : option Z;
  info_retry_attempt : option Z
}.

Record retry_summary := {
  newly_successful : Z;
  still_failed_count : Z;
  total_size_bytes : Z
}.

(** The document [index.json], parsed. *)
Record index_data := {
  ix_downloaded_files : gmap string file_info;
  ix_failed_downloads : list failure;
  ix_total_downloaded : option Z;
  ix_total_failed : option Z;
  ix_last_retry_at : option Q;
  ix_retry_summary : option retry_summary
}.

(** The document [download_report.json], parsed. *)
Record report := {
  rep_total_found : Z;
  rep_existing_files : Z;
  rep_newly_downloaded : Z;
  rep_total_successful : Z;
  rep_total_failed : Z;
  rep_downloaded_files : gmap string file_info;
  rep_failed_downloads : list failure;
  rep_total_size_bytes : Z;
  rep_retry_count_used : Z;
  rep_max_workers_used : Z
}.

Record world := {
  files : gmap string bytes;
  index_json : option index_data;
  report_json : option report;
  trace : list event
}.

Record env := {
  env_reply : nat -> string -> reply;
  env_fault : io_op -> string -> bool;
  env_time : nat -> Q
}.

(** ** Computations that may raise *)

Inductive result (A : Type) :=
| Ret (a : A)
| Raise (e : exn).
Arguments Ret {A} a.
Arguments Raise {A} e.

(** A method of an object of class [S]: it reads and updates the object and
    the world, and returns or raises. *)
Definition M (S A : Type) : Type := S * world -> result A * (S * world).

Definition ret {S A} (a : A) : M S A := fun st => (Ret a, st).

Definition raise {S A} (e : exn) : M S A := fun st => (Raise e, st).

Definition bind {S A B} (c : M S A) (k : A -> M S B) : M S B :=
  fun st =>
    match c st with
    | (Ret a, st') => k a st'
    | (Raise e, st') => (Raise e, st')
    end.

(** [try: c except Exception as e: h e] *)
Definition catch {S A} (c : M S A) (h : exn -> M S A) : M S A :=
  fun st =>
    match c st with
    | (Ret a, st') => (Ret a, st')
    | (Raise e, st') => h e st'
    end.

(** [try: c] with the outcome as a value *)
Definition attempt_of {S A} (c : M S A) : M S (result A) :=
  fun st => let '(r, st') := c st in (Ret r, st').

Notation "'do' x <- c ; k" := (bind c (fun x => k))
  (at level 10, x name, c at level 100, k at level 200).
Notation "'do' ' pat <- c ; k" := (bind c (fun x => match x with pat => k end))
  (at level 10, pat pattern, c at level 100, k at level 200).
Notation "c >> k" := (bind c (fun _ => k))
  (at level 200, k at level 200, right associativity, only parsing).

Definition get_self {S} : M S S := fun st => (Ret (fst st), st).
Definition set_self {S} (f : S -> S) : M S unit := fun st => (Ret tt, (f (fst st), snd st)).
Definition get_world {S} : M S world := fun st => (Ret (snd st), st).
Definition set_world {S} (f : world -> world) : M S unit :=
  fun st => (Ret tt, (fst st, f (snd st))).

Definition with_files (f : gmap string bytes -> gmap string bytes) (w : world) : world :=
  {| files := f (files w); index_json := index_json w;
     report_json := report_json w; trace := trace w |}.

Definition with_index (ix : option index_data) (w : world) : world :=
  {| files := files w; index_json := ix;
     report_json := report_json w; trace := trace w |}.

Definition with_report (rp : option report) (w : world) : world :=
  {| files := files w; index_json := index_json w;
     report_json := rp; trace := trace w |}.

Definition log (e : event) (w : world) : world :=
  {| files := files w; index_json := index_json w;
     report_json := report_json w; trace := (trace w ++ [e])%list |}.

(** the task the scheduler hands to a worker *)
Record download := {
  dl_url : string;
  dl_file_path : string;
  dl_book_name : string;
  dl_link_number : Z
}.

(** [sum(info.get('file_size', 0) for info in d.values())] *)
Definition sum_file_size (d : gmap string file_info) : Z :=
  map_fold (fun _ info acc => info_file_size info + acc) 0 d.

Definition attempts_of (tr : list event) : list Z :=
  omap (fun e => match e with EvAttempt k _ => Some k | _ => None end) tr.

Definition sleeps_of (tr : list event) : list Q :=
  omap (fun e => match e with EvSleep t => Some t | _ => None end) tr.

Definition gets_of (tr : list event) : list string :=
  omap (fun e => match e with EvGet u => Some u | _ => None end) tr.

Definition pdf_magic : bytes := [x25; x50; x44; x46].

(** [data.startswith(pre)] *)
Fixpoint startswith (pre data : bytes) : bool :=
  match pre, data with
  | [], _ => true
  | a :: pre', b :: data' => Byte.eqb a b && startswith pre' data'
  | _ :: _, [] => false
  end.

Definition bytes_eqb (a b : bytes) : bool :=
  (length a =? length b)%nat && startswith a b.

Definition size_of (data : bytes) : Z := Z.of_nat (length data).

(** [chunk_size=8192] *)
Definition chunk_size : nat := Z.to_nat 8192.

(** [requests.utils.iter_slices]: what [iter_content] yields once the
    content has been read in full. *)
Fixpoint iter_slices (fuel : nat) (n : nat) (data : bytes) : list bytes :=
  match fuel, data with
  | O, _ => []
  | _, [] => []
  | S fuel', _ => take n data :: iter_slices fuel' n (drop n data)
  end.

Section Run.
Variable E : env.
Context {Obj : Type}.

(** *** File system *)

Definition fault (op : io_op) (p : string) : M Obj unit :=
  if env_fault E op p then raise (OSError op p) else ret tt.

(** [file_path.exists()]: a [stat] underneath, of which every error but
    the absence of the file is passed on.  Its fault is a fault of its own:
    the runs in which [exists] and [stat] fail together are among those the
    environment describes. *)
Definition path_exists (p : string) : M Obj bool :=
  fault OpExists p >>
  do w <- get_world;
  ret (bool_decide (is_Some (files w !! p))).

(** [open(file_path, 'rb')] then [f.read(n)] *)
Definition read_head (p : string) (n : nat) : M Obj bytes :=
  fault OpOpenRead p >>
  do w <- get_world;
  match files w !! p with
  | None => raise (OSError OpOpenRead p)
  | Some data => fault OpRead p >> ret (take n data)
  end.

(** [file_path.stat().st_size] *)
Definition stat_size (p : string) : M Obj Z :=
  fault OpStat p >>
  do w <- get_world;
  match files w !! p with
  | None => raise (OSError OpStat p)
  | Some data => ret (size_of data)
  end.

(** [file_path.unlink()] *)
Definition unlink (p : string) : M Obj unit :=
  fault OpUnlink p >>
  do w <- get_world;
  match files w !! p with
  | None => raise (OSError OpUnlink p)
  | Some _ => set_world (with_files (delete p))
  end.

(** [file_path.parent.mkdir(parents=True, exist_ok=True)] *)
Definition mkdir_parent (p : string) : M Obj unit :=
  fault OpMkdir p.

(** [open(file_path, 'wb')] *)
Definition open_wb (p : string) : M Obj unit :=
  fault OpOpenWrite p >>
  set_world (with_files (insert p [])).

(** The bytes of [data] that reach the file [p] from the offset [off] on,
    and the offset at which the file system refused, if it did. *)
Fixpoint cut (p : string) (off : nat) (data : bytes) : bytes * option nat :=
  match data with
  | [] => ([], None)
  | b :: data' =>
      if env_fault E (OpWrite off) p then ([], Some off)
      else let '(sent, err) := cut p (S off) data' in (b :: sent, err)
  end.

(** [f.write(chunk)]: the bytes go to the end of the file; when the file
    system refuses one, the bytes before it stay and the call raises.  (An
    error that only shows when the file is closed ends the [with] block in
    the same way.) *)
Definition write (p : string) (chunk : bytes) : M Obj unit :=
  do w <- get_world;
  match files w !! p with
  | None => ret tt
  | Some data =>
      let '(sent, err) := cut p (length data) chunk in
      set_world (with_files (insert p (data ++ sent)%list)) >>
      match err with
      | Some n => raise (OSError (OpWrite n) p)
      | None => ret tt
      end
  end.

(** [for chunk in it: if chunk: f.write(chunk)] over a stream that may break *)
Fixpoint write_all (p : string) (cs : list bytes) (brk : bool) : M Obj unit :=
  match cs with
  | [] => if brk then raise StreamError else ret tt
  | c :: cs' =>
      (match c with [] => ret tt | _ => write p c end) >>
      write_all p cs' brk
  end.

(** *** Existing-file check ([DirectPDFDownloader.check_existing_file]) *)

Definition check_existing_file (file_path : string) : M Obj bool :=
  do present <- path_exists file_path;
  if negb present then ret false
  else
    catch
      (do first_bytes <- read_head file_path 4;
       do good <- (if bytes_eqb first_bytes pdf_magic
                   then do size <- stat_size file_path; ret (1000 <? size)
                   else ret false);
       if good then ret true
       else unlink file_path >> ret false)
      (fun _ =>
         catch (unlink file_path) (fun _ => ret tt) >>
         ret false).

(** *** Transport *)

(** [self.session.get(url, stream=True, ...)] *)
Definition session_get (url : string) : M Obj response :=
  do w <- get_world;
  set_world (log (EvGet url)) >>
  match env_reply E (length (gets_of (trace w))) url with
  | Reply r => ret r
  | NetErr => raise (ConnectionError url)
  end.

(** [response.text]: reads the whole body; afterwards [iter_content]
    yields the content in slices. *)
Definition response_text (r : response) : M Obj (string * response) :=
  if broken r then raise StreamError
  else
    let content := concat (chunks r) in
    ret (string_of_list_byte content,
         {| status_code := status_code r;
            content_type := content_type r;
            chunks := iter_slices (length content) chunk_size content;
            broken := false;
            body := Cached |}).

(** [next(chunk_iter)] for an iterator [chunk_iter = response.iter_content(...)]
    that is kept: the rest of the response is what that iterator goes on
    to yield. *)
Definition next_chunk (r : response) : M Obj (bytes * response) :=
  match chunks r with
  | [] => if broken r then raise StreamError else raise StopIteration
  | c :: cs =>
      ret (c, {| status_code := status_code r;
                 content_type := content_type r;
                 chunks := cs;
                 broken := broken r;
                 body := body r |})
  end.

(** What a new [response.iter_content(...)] yields after an earlier
    iterator of the response gave its first chunk and was dropped: a body
    kept by the response is yielded again from its start; a body on the wire
    goes on behind the first chunk, unless it is chunked: dropping the
    iterator then closes the connection, and nothing more is yielded. *)
Definition after_first (r : response) (rest : list bytes) : response :=
  match body r with
  | Cached => r
  | Plain =>
      {| status_code := status_code r; content_type := content_type r;
         chunks := rest; broken := broken r; body := Plain |}
  | Chunked =>
      {| status_code := status_code r; content_type := content_type r;
         chunks := []; broken := false; body := Chunked |}
  end.

(** [next(response.iter_content(chunk_size=8192))]: the first chunk of an
    iterator that is dropped at once *)
Definition fresh_chunk (r : response) : M Obj (bytes * response) :=
  match chunks r with
  | [] => if broken r then raise StreamError else raise StopIteration
  | c :: cs => ret (c, after_first r cs)
  end.

(** [response.raise_for_status()] *)
Definition raise_for_status (r : response) : M Obj unit :=
  if (400 <=? status_code r) && (status_code r <? 600)
  then raise (HTTPError (status_code r))
  else ret tt.

(** [time.sleep(t)] *)
Definition sleep (t : Q) : M Obj unit := set_world (log (EvSleep t)).

(** [time.time()] *)
Definition now : M Obj Q :=
  do w <- get_world; ret (env_time E (length (trace w))).

(** [if not file_id]: [None] and the empty string are false *)
Definition truthy (o : option string) : option string :=
  match o with
  | Some EmptyString => None
  | _ => o
  end.

End Run.

(** ** [download_remaining_pdfs.py] *)

Module Direct.

Record self := {
  retry_count : Z;
  max_workers : Z;
  downloaded_files : gmap string file_info;
  failed_downloads : list failure;
  skipped_files : Z;
  newly_downloaded : Z;
  existing_files : Z
}.

(** [DirectPDFDownloader(base_dir, max_workers, retry_count)] *)
Definition init (max_workers retry_count : Z) : self :=
  {| retry_count := retry_count; max_workers := max_workers;
     downloaded_files := ∅; failed_downloads := [];
     skipped_files := 0; newly_downloaded := 0; existing_files := 0 |}.

Definition incr_existing (o : self) : self :=
  {| retry_count := retry_count o; max_workers := max_workers o;
     downloaded_files := downloaded_files o; failed_downloads := failed_downloads o;
     skipped_files := skipped_files o; newly_downloaded := newly_downloaded o;
     existing_files := existing_files o + 1 |}.

Definition incr_newly (o : self) : self :=
  {| retry_count := retry_count o; max_workers := max_workers o;
     downloaded_files := downloaded_files o; failed_downloads := failed_downloads o;
     skipped_files := skipped_files o; newly_downloaded := newly_downloaded o + 1;
     existing_files := existing_files o |}.

Definition set_downloaded (k : string) (v : file_info) (o : self) : self :=
  {| retry_count := retry_count o; max_workers := max_workers o;
     downloaded_files := <[k := v]> (downloaded_files o);
     failed_downloads := failed_downloads o;
     skipped_files := skipped_files o; newly_downloaded := newly_downloaded o;
     existing_files := existing_files o |}.

Definition append_failed (f : failure) (o : self) : self :=
  {| retry_count := retry_count o; max_workers := max_workers o;
     downloaded_files := downloaded_files o;
     failed_downloads := (failed_downloads o ++ [f])%list;
     skipped_files := skipped_files o; newly_downloaded := newly_downloaded o;
     existing_files := existing_files o |}.

Definition get_google_drive_download_url (file_id : string) : string :=
  "https://drive.google.com/uc?export=download&id=" ++ file_id.

(** [r'confirm=([^&]+)'] *)
Definition confirm_pattern : Rx.pattern :=
  {| Rx.prefix := [Rx.Lit "confirm="]; Rx.group := Rx.none_of ["&"%char] |}.

Definition existing_info (url book_name : string) (link_num size : Z) : file_info :=
  {| info_book_name := book_name; info_link_number := link_num;
     info_original_url := url; info_file_size := size;
     info_download_time := None; info_status := Some "existing_file";
     info_attempt := None; info_retry_attempt := None |}.

Definition new_info (url book_name : string) (link_num size : Z) (t : Q) (attempt : Z)
  : file_info :=
  {| info_book_name := book_name; info_link_number := link_num;
     info_original_url := url; info_file_size := size;
     info_download_time := Some t; info_status := Some "newly_downloaded";
     info_attempt := Some attempt; info_retry_attempt := None |}.

Definition failed_info (url file_path book_name : string) (link_num : Z)
    (e : exn) (attempts : Z) : failure :=
  {| fail_url := url; fail_file_path := file_path; fail_book_name := book_name;
     fail_link_number := link_num; fail_error := e;
     fail_attempts := Some attempts; fail_retry_attempts := None |}.

(** [min(2 ** attempt, 10)] *)
Definition wait_time (attempt : nat) : Z := Z.min (2 ^ Z.of_nat attempt) 10.

Section Methods.
Variable E : env.
Variables (url file_path book_name : string) (link_num : Z).

(** lines 131-140: the download URL by domain *)
Definition resolve : M self (string * option string) :=
  if Str.contains "drive.google.com" url then
    match truthy (extract_google_drive_id url) with
    | None => raise (NoDriveId url)
    | Some file_id => ret (get_google_drive_download_url file_id, Some file_id)
    end
  else if Str.contains "drive.egovcloud.gov.bd" url then
    ret (get_egovcloud_download_url url, None)
  else ret (url, None).

(** lines 146-158: the request, and the second request when Google
    Drive answers with its warning page *)
Definition fetch (download_url : string) (file_id : option string) : M self response :=
  do response <- session_get E download_url;
  if Str.contains "drive.google.com" download_url && (status_code response =? 200) then
    if Str.contains "text/html" (content_type response) then
      do '(content, response) <- response_text response;
      if Str.contains "confirm=" content then
        match Rx.search confirm_pattern content with
        | Some confirm_token =>
            match file_id with
            | Some file_id =>
                session_get E
                  ("https://drive.google.com/uc?export=download&confirm="
                   ++ confirm_token ++ "&id=" ++ file_id)
            | None => raise NameError
            end
        | None => ret response
        end
      else ret response
    else ret response
  else ret response.

(** [application/pdf] or [application/octet-stream] declared: the body
    is written without a look at it *)
Definition declared_pdf (content_type : string) : bool :=
  Str.contains "application/pdf" content_type
  || Str.contains "application/octet-stream" content_type.

(** lines 160-186: status, signature, body to disk, size *)
Definition save (response : response) : M self unit :=
  raise_for_status response >>
  (if negb (declared_pdf (content_type response)) then
     do '(first_chunk, rest) <- fresh_chunk response;
     if negb (startswith pdf_magic first_chunk)
     then raise (NotPdf (content_type response))
     else
       open_wb E file_path >>
       write E file_path first_chunk >>
       write_all E file_path (chunks rest) (broken rest)
   else
     open_wb E file_path >>
     write_all E file_path (chunks response) (broken response)) >>
  do size <- stat_size E file_path;
  if size <? 1000
  then do size <- stat_size E file_path; raise (TooSmall size)
  else ret tt.

(** lines 188-201: the entry of the success map; the success message
    formats the size once more *)
Definition record_success (attempt : nat) : M self unit :=
  set_self incr_newly >>
  do size <- stat_size E file_path;
  do t <- now E;
  set_self (set_downloaded file_path
              (new_info url book_name link_num size t (Z.of_nat attempt + 1))) >>
  do _ <- stat_size E file_path;
  ret tt.

(** the body of [try:] for one value of [attempt] *)
Definition attempt_body (attempt : nat) : M self unit :=
  do o <- get_self;
  set_world (log (EvAttempt (Z.of_nat attempt + 1) (retry_count o))) >>
  do '(download_url, file_id) <- resolve;
  mkdir_parent E file_path >>
  do response <- fetch download_url file_id;
  save response >>
  record_success attempt.

(** [for attempt in range(self.retry_count): try: ... except Exception as e: ...] *)
Fixpoint attempts_loop (attempts : list nat) : M self bool :=
  match attempts with
  | [] => ret false
  | attempt :: later =>
      do r <- attempt_of (attempt_body attempt);
      match r with
      | Ret _ => ret true
      | Raise e =>
          do o <- get_self;
          if Z.of_nat attempt =? retry_count o - 1 then
            set_self (append_failed
              (failed_info url file_path book_name link_num e (Z.of_nat attempt + 1))) >>
            ret false
          else
            sleep (inject_Z (wait_time attempt)) >>
            attempts_loop later
      end
  end.

Definition download_file : M self bool :=
  do valid <- check_existing_file E file_path;
  if valid then
    set_self incr_existing >>
    do size <- stat_size E file_path;
    set_self (set_downloaded file_path (existing_info url book_name link_num size)) >>
    ret true
  else
    do o <- get_self;
    attempts_loop (seq 0 (Z.to_nat (retry_count o))).

End Methods.

Section Scheduler.
Variable E : env.

(** lines 329-341: the existing files are recorded, the others are left
    to download *)
Fixpoint check_all (downloads : list download) : M self (list download) :=
  match downloads with
  | [] => ret []
  | d :: ds =>
      do valid <- check_existing_file E (dl_file_path d);
      if valid then
        set_self incr_existing >>
        do size <- stat_size E (dl_file_path d);
        set_self (set_downloaded (dl_file_path d)
                    (existing_info (dl_url d) (dl_book_name d) (dl_link_number d) size)) >>
        check_all ds
      else
        do rest <- check_all ds;
        ret (d :: rest)
  end.

(** The submitted calls; an exception of a call is consumed with its
    future.  The calls are run one after the other in the order of
    submission, the schedule of a pool of one worker.  With more workers
    the calls overlap, and the entries they append to [failed_downloads]
    come in the order in which the calls end: the order of that list, and
    the request numbers of the trace, belong to this schedule only. *)
Fixpoint run_pool (tasks : list download) : M self unit :=
  match tasks with
  | [] => ret tt
  | d :: ds =>
      catch
        (download_file E (dl_url d) (dl_file_path d) (dl_book_name d) (dl_link_number d)
         >> ret tt)
        (fun _ => ret tt) >>
      run_pool ds
  end.

Definition download_all_pdfs (downloads : list download) : M self unit :=
  do files_to_download <- check_all downloads;
  match files_to_download with
  | [] => ret tt
  | _ =>
      do o <- get_self;
      if max_workers o <=? 0 then raise ValueError
      else run_pool files_to_download
  end.

Definition save_download_report : M self report :=
  do o <- get_self;
  let report_data :=
    {| rep_total_found :=
         Z.of_nat (size (downloaded_files o)) + Z.of_nat (length (failed_downloads o));
       rep_existing_files := existing_files o;
       rep_newly_downloaded := newly_downloaded o;
       rep_total_successful := Z.of_nat (size (downloaded_files o));
       rep_total_failed := Z.of_nat (length (failed_downloads o));
       rep_downloaded_files := downloaded_files o;
       rep_failed_downloads := failed_downloads o;
       rep_total_size_bytes := sum_file_size (downloaded_files o);
       rep_retry_count_used := retry_count o;
       rep_max_workers_used := max_workers o |} in
  set_world (with_report (Some report_data)) >>
  ret report_data.

(** [run], from the list of tasks the scan of the markdown files gives *)
Definition run (downloads : list download) : M self unit :=
  match downloads with
  | [] => ret tt
  | _ =>
      download_all_pdfs downloads >>
      do _ <- save_download_report;
      ret tt
  end.

End Scheduler.

End Direct.

(** ** [retry_failed_downloads.py] *)

Module Retry.

Record self := {
  retry_count : Z;
  max_workers : Z;
  newly_downloaded : gmap string file_info;
  still_failed : list failure
}.

(** [RetryFailedDownloader(base_dir, max_workers, retry_count)] *)
Definition init (max_workers retry_count : Z) : self :=
  {| retry_count := retry_count; max_workers := max_workers;
     newly_downloaded := ∅; still_failed := [] |}.

Definition set_downloaded (k : string) (v : file_info) (o : self) : self :=
  {| retry_count := retry_count o; max_workers := max_workers o;
     newly_downloaded := <[k := v]> (newly_downloaded o);
     still_failed := still_failed o |}.

Definition append_failed (f : failure) (o : self) : self :=
  {| retry_count := retry_count o; max_workers := max_workers o;
     newly_downloaded := newly_downloaded o;
     still_failed := (still_failed o ++ [f])%list |}.

Definition dq : string := String Str.dquote EmptyString.

(** the three confirm-token patterns: after [href=] and a double quote, or
    after the [downloadUrl] key, any characters other than the double
    quote, then [?] or [&], then [confirm=] and the token; or [confirm=]
    and an identifier *)
Definition confirm_patterns : list Rx.pattern :=
  [ {| Rx.prefix := [Rx.Lit ("href=" ++ dq); Rx.Star (Rx.none_of [Str.dquote]);
                     Rx.One (Rx.one_of ["?"%char; "&"%char]); Rx.Lit "confirm="];
       Rx.group := Rx.none_of ["&"%char; Str.dquote] |};
    {| Rx.prefix := [Rx.Lit (dq ++ "downloadUrl" ++ dq ++ ":" ++ dq);
                     Rx.Star (Rx.none_of [Str.dquote]);
                     Rx.One (Rx.one_of ["?"%char; "&"%char]); Rx.Lit "confirm="];
       Rx.group := Rx.none_of ["&"%char; Str.dquote] |};
    {| Rx.prefix := [Rx.Lit "confirm="]; Rx.group := Rx.id_char |} ].

(** [uuid=] followed by a group of characters other than [&] and the
    double quote *)
Definition uuid_pattern : Rx.pattern :=
  {| Rx.prefix := [Rx.Lit "uuid="]; Rx.group := Rx.none_of ["&"%char; Str.dquote] |}.

(** the four Google Drive URLs tried in turn *)
Definition download_urls (file_id : string) : list string :=
  [ "https://drive.usercontent.google.com/download?id=" ++ file_id
      ++ "&export=download&authuser=0&confirm=t";
    "https://drive.google.com/uc?export=download&id=" ++ file_id ++ "&confirm=t";
    "https://drive.google.com/uc?id=" ++ file_id ++ "&export=download";
    "https://docs.google.com/uc?export=download&id=" ++ file_id ].

Definition new_info (url book_name : string) (link_num size : Z) (t : Q) (attempt : Z)
  : file_info :=
  {| info_book_name := book_name; info_link_number := link_num;
     info_original_url := url; info_file_size := size;
     info_download_time := Some t; info_status := None;
     info_attempt := None; info_retry_attempt := Some attempt |}.

Definition failed_info (url file_path book_name : string) (link_num : Z)
    (e : exn) (retry_attempts : Z) : failure :=
  {| fail_url := url; fail_file_path := file_path; fail_book_name := book_name;
     fail_link_number := link_num; fail_error := e;
     fail_attempts := None; fail_retry_attempts := Some retry_attempts |}.

(** [(2 ** attempt) + (attempt * 0.5)], as a rational.  The script computes
    it in binary floating point, where it is this very number as long as
    its numerator fits the 53 bits of the significand: for every attempt
    below 53, far beyond any budget the script is given. *)
Definition wait_time (attempt : nat) : Q :=
  (inject_Z (2 ^ Z.of_nat attempt) + inject_Z (Z.of_nat attempt) * (1 # 2))%Q.

Section Methods.
Variable E : env.

(** lines 162-196: the request, and the second request with the
    confirm token or the uuid of the warning page *)
Definition fetch (download_url : string) (google_file_id : option string)
  : M self response :=
  do response <- session_get E download_url;
  match truthy google_file_id with
  | Some google_file_id =>
      if status_code response =? 200 then
        if Str.contains "text/html" (Str.lower (content_type response)) then
          do '(content, response) <- response_text response;
          if Str.contains "virus scan warning" (Str.lower content)
             || Str.contains "download anyway" (Str.lower content)
          then
            match first_match confirm_patterns content with
            | Some confirm_token =>
                session_get E
                  ("https://drive.usercontent.google.com/download?id=" ++ google_file_id
                   ++ "&export=download&confirm=" ++ confirm_token)
            | None =>
                match Rx.search uuid_pattern content with
                | Some uuid =>
                    session_get E
                      ("https://drive.usercontent.google.com/download?id="
                       ++ google_file_id ++ "&export=download&uuid=" ++ uuid)
                | None => ret response
                end
            end
          else ret response
        else ret response
      else ret response
  | None => ret response
  end.

(** lines 198-233: status, first chunk, signature, body to disk, size *)
Definition save (file_path : string) (response : response) : M self bool :=
  raise_for_status response >>
  do '(first_chunk, rest) <-
    catch (next_chunk response)
          (fun e => match e with
                    | StopIteration => raise EmptyResponse
                    | _ => raise e
                    end);
  if negb (startswith pdf_magic first_chunk) then
    if startswith (list_byte_of_string "<!DOCTYPE") first_chunk
       || startswith (list_byte_of_string "<html") first_chunk
    then raise HtmlInsteadOfPdf
    else raise (NotPdfBytes (take 20 first_chunk))
  else
    open_wb E file_path >>
    write E file_path first_chunk >>
    write_all E file_path (chunks rest) (broken rest) >>
    do file_size <- stat_size E file_path;
    if file_size <? 1000 then raise (TooSmall file_size)
    else ret true.

Definition _attempt_download (download_url file_path : string)
    (google_file_id : option string) : M self bool :=
  mkdir_parent E file_path >>
  do response <- fetch download_url google_file_id;
  save file_path response.

(** lines 94-103: [for i, download_url in enumerate(download_urls)] with
    [success] as it stands after the loop *)
Fixpoint try_methods (urls : list string) (file_path file_id : string) : M self bool :=
  match urls with
  | [] => ret false
  | download_url :: later =>
      do r <- attempt_of (_attempt_download download_url file_path (Some file_id));
      match r with
      | Ret true => ret true
      | Ret false => try_methods later file_path file_id
      | Raise _ => try_methods later file_path file_id
      end
  end.

Variables (url file_path book_name : string) (link_num : Z).

(** lines 81-118: the download by domain *)
Definition download_by_domain : M self unit :=
  if Str.contains "drive.google.com" url then
    match truthy (extract_google_drive_id url) with
    | None => raise (NoDriveId url)
    | Some file_id =>
        do success <- try_methods (download_urls file_id) file_path file_id;
        if negb success then raise AllDriveMethodsFailed else ret tt
    end
  else if Str.contains "drive.egovcloud.gov.bd" url then
    do success <- _attempt_download (get_egovcloud_download_url url) file_path None;
    if negb success then raise EgovFailed else ret tt
  else
    do success <- _attempt_download url file_path None;
    if negb success then raise DirectFailed else ret tt.

(** lines 121-132: the entry of [newly_downloaded]; the success message
    formats the size once more *)
Definition record_success (attempt : nat) : M self unit :=
  do size <- stat_size E file_path;
  do t <- now E;
  set_self (set_downloaded file_path
              (new_info url book_name link_num size t (Z.of_nat attempt + 1))) >>
  do _ <- stat_size E file_path;
  ret tt.

Definition attempt_body (attempt : nat) : M self unit :=
  do o <- get_self;
  set_world (log (EvAttempt (Z.of_nat attempt + 1) (retry_count o))) >>
  download_by_domain >>
  record_success attempt.

Fixpoint attempts_loop (attempts : list nat) : M self bool :=
  match attempts with
  | [] => ret false
  | attempt :: later =>
      do r <- attempt_of (attempt_body attempt);
      match r with
      | Ret _ => ret true
      | Raise e =>
          do o <- get_self;
          if Z.of_nat attempt =? retry_count o - 1 then
            set_self (append_failed
              (failed_info url file_path book_name link_num e (retry_count o))) >>
            ret false
          else
            sleep (wait_time attempt) >>
            attempts_loop later
      end
  end.

Definition download_file_advanced : M self bool :=
  do o <- get_self;
  attempts_loop (seq 0 (Z.to_nat (retry_count o))).

End Methods.

Section Scheduler.
Variable E : env.

Definition load_previous_results : M self (list failure) :=
  do w <- get_world;
  match index_json w with
  | None => ret []
  | Some data => ret (ix_failed_downloads data)
  end.

(** lines 247-255: the path of the task is [Path(failed['file_path'])], and
    [str] of it is what the worker opens and what it keys the ledger with *)
Definition retry_task (failed : failure) : download :=
  {| dl_url := fail_url failed; dl_file_path := Str.str_path (fail_file_path failed);
     dl_book_name := fail_book_name failed; dl_link_number := fail_link_number failed |}.

(** The submitted calls; an exception of a call is consumed with its
    future.  The calls are run one after the other in the order of
    submission, the schedule of a pool of one worker.  With more workers
    the calls overlap, and the entries they append to [still_failed] come
    in the order in which the calls end: the order of that list, and the
    request numbers of the trace, belong to this schedule only. *)
Fixpoint run_pool (tasks : list download) : M self unit :=
  match tasks with
  | [] => ret tt
  | d :: ds =>
      catch
        (download_file_advanced E (dl_url d) (dl_file_path d)
           (dl_book_name d) (dl_link_number d) >> ret tt)
        (fun _ => ret tt) >>
      run_pool ds
  end.

Definition retry_failed_downloads : M self unit :=
  do failed_downloads <- load_previous_results;
  match failed_downloads with
  | [] => ret tt
  | _ =>
      do o <- get_self;
      if max_workers o <=? 0 then raise ValueError
      else run_pool (map retry_task failed_downloads)
  end.

Definition update_index_json : M self index_data :=
  do w <- get_world;
  match index_json w with
  | None => raise (OSError OpOpenRead "index.json")
  | Some data =>
      do o <- get_self;
      do t <- now E;
      let downloaded := newly_downloaded o ∪ ix_downloaded_files data in
      let data' :=
        {| ix_downloaded_files := downloaded;
           ix_failed_downloads := still_failed o;
           ix_total_downloaded := Some (Z.of_nat (size downloaded));
           ix_total_failed := Some (Z.of_nat (length (still_failed o)));
           ix_last_retry_at := Some t;
           ix_retry_summary :=
             Some {| newly_successful := Z.of_nat (size (newly_downloaded o));
                     still_failed_count := Z.of_nat (length (still_failed o));
                     total_size_bytes := sum_file_size downloaded |} |} in
      set_world (with_index (Some data')) >>
      ret data'
  end.

Definition run : M self index_data :=
  retry_failed_downloads >>
  update_index_json.

End Scheduler.

End Retry.

(** ** Predicates of the design document *)

(** The destination holds a valid artifact: [exists] answers and says the
    path exists, it can be opened and read, its first four bytes are the
    signature, and [stat] gives a size above 1000 bytes. *)
Definition validates (E : env) (w : world) (p : string) : bool :=
  match files w !! p with
  | None => false
  | Some data =>
      negb (env_fault E OpExists p)
      && negb (env_fault E OpOpenRead p) && negb (env_fault E OpRead p)
      && bytes_eqb (take 4 data) pdf_magic
      && negb (env_fault E OpStat p) && (1000 <? size_of data)
  end.

(** What the existing-file check gives: its answer, or the error of
    [exists]. *)
Definition checked (E : env) (w : world) (p : string) : result bool :=
  if env_fault E OpExists p then Raise (OSError OpExists p)
  else Ret (validates E w p).

(** The world after the existing-file check. *)
Definition after_check (E : env) (w : world) (p : string) : world :=
  if validates E w p then w
  else if env_fault E OpExists p then w
  else if env_fault E OpUnlink p then w
  else with_files (delete p) w.

(** The same in words: the conditions of the existing-file checker. *)
Definition valid_artifact (E : env) (w : world) (p : string) : Prop :=
  exists data,
    files w !! p = Some data
    /\ env_fault E OpExists p = false
    /\ env_fault E OpOpenRead p = false
    /\ env_fault E OpRead p = false
    /\ take 4 data = pdf_magic
    /\ env_fault E OpStat p = false
    /\ 1000 < size_of data.

(** Every body the transport serves arrives in full. *)
Definition streams_whole (E : env) : Prop :=
  forall n u r, env_reply E n u = Reply r -> broken r = false.

(** No write to [p] is refused. *)
Definition writes_whole (E : env) (p : string) : Prop :=
  forall n, env_fault E (OpWrite n) p = false.

(** Every body arrives in full and every byte of it reaches the file [p]. *)
Definition arrives_whole (E : env) (p : string) : Prop :=
  streams_whole E /\ writes_whole E p.

(** The reply to the last request of the trace. *)
Definition last_reply (E : env) (w : world) : option response :=
  match reverse (gets_of (trace w)) with
  | [] => None
  | u :: sent =>
      match env_reply E (length sent) u with
      | Reply r => Some r
      | NetErr => None
      end
  end.

(** [data] is what was kept of the reply to the last request, and the
    signature was asked of it unless that reply declares
    [application/pdf] or [application/octet-stream]. *)
Definition saved_from (E : env) (w : world) (data : bytes) : Prop :=
  exists r,
    last_reply E w = Some r
    /\ (Direct.declared_pdf (content_type r) = false ->
        startswith pdf_magic data = true).

(** [set_file p data w]: the world [w] with [data] at [p]. *)
Definition set_file (p : string) (data : bytes) (w : world) : world :=
  with_files (insert p data) w.

(** [resp] is a reply of the transport, possibly after its text was read. *)
Definition served (E : env) (resp : response) : Prop :=
  exists n u r,
    env_reply E n u = Reply r
    /\ content_type resp = content_type r
    /\ status_code resp = status_code r
    /\ (broken resp = true -> broken r = true).

(** From [w] to [w'] nothing happened but requests. *)
Definition requests_only (w w' : world) : Prop :=
  files w' = files w
  /\ index_json w' = index_json w
  /\ report_json w' = report_json w
  /\ exists urls, trace w' = (trace w ++ map EvGet urls)%list.

(** What opening the destination and writing the chunks [cs] comes to:
    the file holds the bytes up to the first one that was refused. *)
Definition written (E : env) {Obj} (p : string) (cs : list bytes) (brk : bool)
    (st : Obj * world) : result unit * (Obj * world) :=
  if env_fault E OpOpenWrite p then (Raise (OSError OpOpenWrite p), st)
  else
    (match snd (cut E p 0 (concat cs)) with
     | Some n => Raise (OSError (OpWrite n) p)
     | None => if brk then Raise StreamError else Ret tt
     end,
     (fst st, set_file p (fst (cut E p 0 (concat cs))) (snd st))).



(** The number of outcomes a ledger holds for the identifier [q]: its
    entry in the success map, and its entries in the failure list. *)
Definition outcomes (done : gmap string file_info) (failed : list failure) (q : string)
  : nat :=
  (if done !! q is Some _ then 1 else 0)
  + length (filter (fun f => fail_file_path f = q) failed).

(** Every identifier of [P] has one outcome in the ledger of [o], and no
    other identifier has any. *)
Definition settled (o : Direct.self) (P : gset string) : Prop :=
  forall q, outcomes (Direct.downloaded_files o) (Direct.failed_downloads o) q
            = if decide (q ∈ P) then 1%nat else 0%nat.

(** Every call of the retry-only run over [tasks] returns true. *)
Fixpoint all_succeed (E : env) (tasks : list download) (st : Retry.self * world) : Prop :=
  match tasks with
  | [] => True
  | d :: ds =>
      exists st',
        Retry.download_file_advanced E (dl_url d) (dl_file_path d)
          (dl_book_name d) (dl_link_number d) st = (Ret true, st')
        /\ all_succeed E ds st'
  end.

(** ** Sample runs *)

Module Sample.

Definition no_fault : io_op -> string -> bool := fun _ _ => false.

Definition empty_world : world :=
  {| files := ∅; index_json := None; report_json := None; trace := [] |}.

Definition dest : string := "/out/book-A_1.pdf".

Definition junk : bytes := list_byte_of_string "<html>busy</html>".

(** a destination that already holds a page of markup *)
Definition junk_world : world :=
  {| files := {[ dest := junk ]}; index_json := None;
     report_json := None; trace := [] |}.

(** nothing can be removed; the transport is down *)
Definition locked : env :=
  {| env_reply := fun _ _ => NetErr;
     env_fault := fun op _ => match op with OpUnlink => true | _ => false end;
     env_time := fun _ => 0%Q |}.

Definition url : string := "https://host/book-A.pdf".

Definition folder_url : string := "https://drive.google.com/drive/folders".

(** 1004 bytes that start with the signature *)
Definition pdf_body : bytes := (pdf_magic ++ repeat x00 1000)%list.

(** 1006 bytes of markup *)
Definition html_body : bytes := (list_byte_of_string "<html>" ++ repeat x20 1000)%list.

Definition pdf_response (cs : list bytes) (brk : bool) : response :=
  {| status_code := 200; content_type := "application/pdf";
     chunks := cs; broken := brk; body := Plain |}.

(** a transport that gives the same reply to every request *)
Definition always (r : reply) : env :=
  {| env_reply := fun _ _ => r; env_fault := no_fault; env_time := fun _ => 0%Q |}.

Definition down : env := always NetErr.

(** four bytes declared as a PDF *)
Definition tiny : env := always (Reply (pdf_response [list_byte_of_string "tiny"] false)).

(** a PDF whose stream breaks after the first 1004 bytes *)
Definition cut_off : env := always (Reply (pdf_response [pdf_body] true)).

(** a page of markup declared as a PDF *)
Definition mislabelled : env := always (Reply (pdf_response [html_body] false)).

(** a complete PDF *)
Definition good : env := always (Reply (pdf_response [pdf_body] false)).

(** two requests fail, then the transport serves the complete PDF *)
Definition recovering : env :=
  {| env_reply := fun n _ =>
       if (n <? 2)%nat then NetErr else Reply (pdf_response [pdf_body] false);
     env_fault := no_fault; env_time := fun _ => 0%Q |}.

Definition task : download :=
  {| dl_url := url; dl_file_path := dest; dl_book_name := "book-A"; dl_link_number := 1 |}.

Definition failed_entry (path : string) : failure :=
  {| fail_url := url; fail_file_path := path; fail_book_name := "book-A";
     fail_link_number := 1; fail_error := ConnectionError url;
     fail_attempts := Some 2; fail_retry_attempts := None |}.

Definition old_info : file_info :=
  {| info_book_name := "book-B"; info_link_number := 1;
     info_original_url := "https://host/book-B.pdf"; info_file_size := 2048;
     info_download_time := None; info_status := Some "existing_file";
     info_attempt := None; info_retry_attempt := None |}.

Definition ledger (failed : list failure) : index_data :=
  {| ix_downloaded_files := {[ "/out/book-B_1.pdf" := old_info ]};
     ix_failed_downloads := failed;
     ix_total_downloaded := Some 1;
     ix_total_failed := Some (Z.of_nat (length failed));
     ix_last_retry_at := None; ix_retry_summary := None |}.

Definition ledger_world (failed : list failure) : world :=
  {| files := ∅; index_json := Some (ledger failed);
     report_json := None; trace := [] |}.


End Sample.

(** * Further models and predicates *)

(** every character of [s] satisfies [p] *)
Fixpoint all_chars (p : ascii -> bool) (s : string) : bool :=
  match s with
  | EmptyString => true
  | String c s' => p c && all_chars p s'
  end.

(** the literals that open the three id patterns *)
Definition drive_id_literals : list string := ["/file/d/"; "id="; "/open?id="].

(** ** Further sample runs *)

Module Case.

(** exactly 1000 bytes that start with the signature *)
Definition kb_body : bytes := (pdf_magic ++ repeat x00 996)%list.

(** a transport that serves the 1000-byte PDF *)
Definition kb : env := Sample.always (Reply (Sample.pdf_response [kb_body] false)).


(** a body of 2000 bytes that starts with the signature *)
Definition long_body : bytes := (pdf_magic ++ repeat x00 1996)%list.

(** the transport serves the 2000 bytes in full; the disk takes 1500 *)
Definition disk_full : env :=
  {| env_reply := fun _ _ => Reply (Sample.pdf_response [long_body] false);
     env_fault := fun op _ =>
       match op with OpWrite n => (1500 <=? n)%nat | _ => false end;
     env_time := fun _ => 0%Q |}.

(** the transport serves a complete PDF; no byte can be written *)
Definition read_only : env :=
  {| env_reply := fun _ _ => Reply (Sample.pdf_response [Sample.pdf_body] false);
     env_fault := fun op _ => match op with OpWrite _ => true | _ => false end;
     env_time := fun _ => 0%Q |}.

End Case.

(** The number of requests sent so far. *)
Definition requests (w : world) : nat := length (gets_of (trace w)).

(** The task a failed entry records, its path as the entry spells it. *)
Definition entry_task (f : failure) : download :=
  {| dl_url := fail_url f; dl_file_path := fail_file_path f;
     dl_book_name := fail_book_name f; dl_link_number := fail_link_number f |}.

(** The destination is as it was, or it holds bytes that start with the
    signature, or it holds the first bytes of the signature, fewer than
    four, and the write of the next byte was refused. *)
Definition kept_or_signed (E : env) (p : string) (w w' : world) : Prop :=
  files w' !! p = files w !! p
  \/ exists data,
       files w' !! p = Some data
       /\ (startswith pdf_magic data = true
           \/ data `prefix_of` pdf_magic
              /\ env_fault E (OpWrite (length data)) p = true).


(** The counters of the main script agree with its ledger: the ledger holds
    [n] outcomes, and the successes are the existing files and the new
    downloads that were counted. *)
Definition tallied (o : Direct.self) (n : nat) : Prop :=
  (size (Direct.downloaded_files o) + length (Direct.failed_downloads o) = n)%nat
  /\ Direct.existing_files o + Direct.newly_downloaded o
     = Z.of_nat (size (Direct.downloaded_files o)).


(** ** Text: Python strings as lists of code points *)

(** Book names and the lines of the markdown files are Python [str] values
    with Bengali letters in them; they are modelled as lists of Unicode
    code points. *)
Module Text.

#[local] Open Scope N_scope.

(** [str.isspace] of one code point: general category Zs, or bidirectional
    class WS, B or S *)
Definition is_space (c : N) : bool :=
  ((9 <=? c) && (c <=? 13)) || ((28 <=? c) && (c <=? 32))
  || (c =? 133) || (c =? 160) || (c =? 5760)
  || ((8192 <=? c) && (c <=? 8202))
  || (c =? 8232) || (c =? 8233) || (c =? 8239) || (c =? 8287) || (c =? 12288).

(** [s.lstrip()] *)
Fixpoint lstrip (s : list N) : list N :=
  match s with
  | [] => []
  | c :: s' => if is_space c then lstrip s' else s
  end.

(** [s.rstrip()] *)
Fixpoint rstrip (s : list N) : list N :=
  match s with
  | [] => []
  | c :: s' =>
      match rstrip s' with
      | [] => if is_space c then [] else [c]
      | t => c :: t
      end
  end.

(** [s.strip()] *)
Definition strip (s : list N) : list N := rstrip (lstrip s).

(** [s.replace(old, new)] for an [old] of one character *)
Definition replace (old : N) (new : list N) (s : list N) : list N :=
  flat_map (fun c => if c =? old then new else [c]) s.

(** [s.split()] from the word [cur] under way: the maximal runs of
    characters that are not whitespace *)
Fixpoint split_from (cur : list N) (s : list N) : list (list N) :=
  match s with
  | [] => match cur with [] => [] | _ => [cur] end
  | c :: s' =>
      if is_space c then
        match cur with
        | [] => split_from [] s'
        | _ => cur :: split_from [] s'
        end
      else split_from (cur ++ [c]) s'
  end.

(** [s.split()] *)
Definition split (s : list N) : list (list N) := split_from [] s.

(** [sep.join(ws)] *)
Fixpoint join (sep : list N) (ws : list (list N)) : list N :=
  match ws with
  | [] => []
  | w :: ws' =>
      match ws' with
      | [] => w
      | _ => w ++ sep ++ join sep ws'
      end
  end.

(** [s.startswith(pre)] *)
Fixpoint startswith (pre s : list N) : bool :=
  match pre, s with
  | [], _ => true
  | a :: pre', b :: s' => (a =? b) && startswith pre' s'
  | _ :: _, [] => false
  end.

(** [needle in hay] *)
Fixpoint contains (needle hay : list N) : bool :=
  startswith needle hay
  || match hay with
     | [] => false
     | _ :: hay' => contains needle hay'
     end.

(** [s.split(sep)] for a [sep] of one character *)
Fixpoint split_on (sep : N) (s : list N) : list (list N) :=
  match s with
  | [] => [[]]
  | c :: s' =>
      if c =? sep then [] :: split_on sep s'
      else match split_on sep s' with
           | w :: ws => (c :: w) :: ws
           | [] => [[c]]
           end
  end.

(** [l[1:-1]] *)
Definition middle {A} (l : list A) : list A := removelast (tl l).

(** the longest prefix of [s] whose characters all satisfy [p], and the rest *)
Fixpoint span (p : N -> bool) (s : list N) : list N * list N :=
  match s with
  | [] => ([], [])
  | c :: s' =>
      if p c then let '(run, rest) := span p s' in (c :: run, rest)
      else ([], s)
  end.

End Text.

(** The [replacements] of [normalize_filename], in the order of the dict:
    [?] and the double quote are removed; [/], the backslash, [:], [*], [<],
    [>], [|], the line feed, the carriage return and the tab become [_]. *)
Definition replacements : list (N * list N) :=
  [ (63, []); (47, [95]); (92, [95]); (58, [95]); (42, [95]); (34, []);
    (60, [95]); (62, [95]); (124, [95]); (10, [95]); (13, [95]); (9, [95]) ]%N.

(** [for old, new in replacements.items(): filename = filename.replace(old, new)] *)
Definition replace_all (reps : list (N * list N)) (filename : list N) : list N :=
  fold_left (fun acc r => Text.replace (fst r) (snd r) acc) reps filename.

Definition normalize_filename (filename : list N) : list N :=
  let filename := Text.strip filename in
  let filename := replace_all replacements filename in
  Text.join [32%N] (Text.split filename).

(** A word: not empty, no whitespace in it, none of the replaced characters. *)
Definition safe_word (w : list N) : Prop :=
  w <> []
  /\ Forall (fun c => Text.is_space c = false /\ (c ∉ map fst replacements)) w.

(** ** [parse_markdown_file] *)

(** The literals of the parser, as code points. *)
Module Lit.
#[local] Open Scope N_scope.
Definition bar : N := 124.
Definition newline : N := 10.
Definition https : list N := [104; 116; 116; 112; 115; 58; 47; 47].
(** the Bengali word for download, and the same after [[] *)
Definition download_word : list N := [2465; 2494; 2441; 2472; 2482; 2507; 2465].
Definition download_open : list N := 91 :: download_word.
(** the danda *)
Definition danda : list N := [2404].
(** the Bengali words for class and for serial *)
Definition class_word : list N := [2486; 2509; 2480; 2503; 2467; 2495].
Definition serial_word : list N := [2453; 2509; 2480; 2478; 2495; 2453].
(** the Bengali for link-2 and link-1, and [Link-2], [Link-1] *)
Definition link2_bn : list N := [2482; 2495; 2434; 2453; 45; 2536].
Definition link1_bn : list N := [2482; 2495; 2434; 2453; 45; 2535].
Definition link2_en : list N := [76; 105; 110; 107; 45; 50].
Definition link1_en : list N := [76; 105; 110; 107; 45; 49].
End Lit.

(** an entry of [downloads] *)
Record found := {
  found_book_name : list N;
  found_url : list N;
  found_link_number : Z
}.

(** One match of [\[([^\]]+)\]\(([^)]+)\)] at the head of [s]: the two
    groups and what follows the match.  The groups exclude the character
    that must follow them, so each is the longest run there is. *)
Definition link_at (s : list N) : option (list N * list N * list N) :=
  match s with
  | [] => None
  | c :: s1 =>
      if negb (c =? 91)%N then None
      else
        let '(text, s2) := Text.span (fun c => negb (c =? 93)%N) s1 in
        match text, s2 with
        | _ :: _, c1 :: c2 :: s3 =>
            if (c1 =? 93)%N && (c2 =? 40)%N then
              let '(url, s4) := Text.span (fun c => negb (c =? 41)%N) s3 in
              match url, s4 with
              | _ :: _, c3 :: s5 =>
                  if (c3 =? 41)%N then Some (text, url, s5) else None
              | _, _ => None
              end
            else None
        | _, _ => None
        end
  end.

(** [re.findall(link_pattern, s)]: the matches from left to right, each
    search starting where the last match ended; [fuel] bounds the positions
    tried. *)
Fixpoint findall (fuel : nat) (s : list N) : list (list N * list N) :=
  match fuel with
  | O => []
  | S fuel' =>
      match s with
      | [] => []
      | _ :: s' =>
          match link_at s with
          | Some (text, url, rest) => (text, url) :: findall fuel' rest
          | None => findall fuel' s'
          end
      end
  end.

Definition links (cell : list N) : list (list N * list N) :=
  findall (length cell) cell.

(** lines 260-265 *)
Definition link_num (link_text : list N) : Z :=
  if Text.contains Lit.link2_bn link_text || Text.contains Lit.link2_en link_text then 2
  else if Text.contains Lit.link1_bn link_text || Text.contains Lit.link1_en link_text
       then 1
       else 1.

Section Parse.

(** [str.isdigit] of one code point; the table of the Unicode database is
    left open. *)
Variable digit : N -> bool.

(** [cell.isdigit()] *)
Definition isdigit (cell : list N) : bool :=
  match cell with
  | [] => false
  | _ => forallb digit cell
  end.

(** lines 243-244: the test of the search for the book name *)
Definition is_book_name (cell : list N) : bool :=
  match cell with [] => false | _ => true end
  && negb (Text.startswith [91%N] cell)
  && negb (isdigit cell)
  && negb (Text.contains Lit.danda cell)
  && negb (Text.contains Lit.class_word cell)
  && negb (Text.contains Lit.download_word cell)
  && negb (Text.contains Lit.serial_word cell).

(** lines 252-271: the links of one cell *)
Definition cell_links (book_name cell : list N) : list found :=
  if Text.contains Lit.download_open cell && Text.contains Lit.https cell then
    flat_map (fun m : list N * list N =>
                if Text.contains Lit.https (snd m) then
                  [ {| found_book_name := book_name;
                       found_url := Text.strip (snd m);
                       found_link_number := link_num (fst m) |} ]
                else [])
             (links cell)
  else [].

(** lines 234-271: the entries of one line *)
Definition parse_line (line : list N) : list found :=
  if Text.startswith [Lit.bar] line
     && Text.contains Lit.download_open line
     && Text.contains Lit.https line
  then
    let cells := map Text.strip (Text.middle (Text.split_on Lit.bar line)) in
    if (3 <=? length cells)%nat then
      match find is_book_name cells with
      | None => []
      | Some book_name => flat_map (cell_links book_name) cells
      end
    else []
  else [].

Definition parse_content (content : list N) : list found :=
  flat_map parse_line (Text.split_on Lit.newline content).

(** [parse_markdown_file], from what reading the file gives: its text, or
    nothing when opening, reading or decoding raised *)
Definition parse_markdown_file (read : option (list N)) : list found :=
  match read with
  | Some content => parse_content content
  | None => []
  end.

End Parse.

(** A well-formed entry: the book name is not empty; neither the book name
    nor the URL has whitespace at its ends, a bar or a line feed in it; the
    URL has no closing parenthesis and holds [https://]; the link number is
    1 or 2. *)
Definition well_formed (t : found) : Prop :=
  found_book_name t <> []
  /\ Text.strip (found_book_name t) = found_book_name t
  /\ Text.strip (found_url t) = found_url t
  /\ Forall (fun c => c <> Lit.bar /\ c <> Lit.newline) (found_book_name t)
  /\ Forall (fun c => c <> Lit.bar /\ c <> Lit.newline /\ c <> 41%N) (found_url t)
  /\ Text.contains Lit.https (found_url t) = true
  /\ (found_link_number t = 1 \/ found_link_number t = 2).

(** The markdown of a link. *)
Definition render_link (text url : list N) : list N :=
  (91%N :: text ++ 93%N :: 40%N :: url ++ [41%N])%list.


(** ** [scan_all_markdown_files] *)

(** A path is the list of its components. *)
Module Path.

(** [dir / name], POSIX flavour: [name] is cut at the slashes, its empty
    components and its dots are dropped; a [name] that starts with a slash
    replaces [dir]. *)
Definition join (dir : list (list N)) (name : list N) : list (list N) :=
  let parts := filter (fun part => part <> [] /\ part <> [46%N])
                      (Text.split_on 47%N name) in
  if Text.startswith [47%N] name then [47%N] :: parts
  else (dir ++ parts)%list.

(** [path.parent] *)
Definition parent (path : list (list N)) : list (list N) := removelast path.

End Path.

(** the decimal digits of [n] in front of [acc] *)
Fixpoint digits (fuel : nat) (n : N) (acc : list N) : list N :=
  match fuel with
  | O => acc
  | S fuel' =>
      let acc' := (48 + n mod 10)%N :: acc in
      if (n / 10 =? 0)%N then acc' else digits fuel' (n / 10)%N acc'
  end.

(** [str(z)] *)
Definition decimal (z : Z) : list N :=
  if z <? 0 then 45%N :: digits (S (N.to_nat (Z.to_N (- z)))) (Z.to_N (- z)) []
  else digits (S (N.to_nat (Z.to_N z))) (Z.to_N z) [].

(** an entry of [all_downloads] *)
Record scanned := {
  sc_url : list N;
  sc_file_path : list (list N);
  sc_book_name : list N;
  sc_link_number : Z;
  sc_md_path : list (list N)
}.

(** [index.md], [PDFs] and [.pdf] *)
Definition index_md : list N := [105; 110; 100; 101; 120; 46; 109; 100]%N.
Definition pdfs_dir : list N := [80; 68; 70; 115]%N.
Definition dot_pdf : list N := [46; 112; 100; 102]%N.

(** [f"{normalized_name}_{download['link_number']}.pdf"] *)
Definition pdf_filename (book_name : list N) (link_number : Z) : list N :=
  (normalize_filename book_name ++ [95%N] ++ decimal link_number ++ dot_pdf)%list.

Section Scan.

Variable digit : N -> bool.

(** lines 290-313, for one of the files [rglob] finds: the folder of an
    [index.md] and what reading the file gives *)
Definition scan_file (md : list (list N) * option (list N)) : list scanned :=
  let md_path := (fst md ++ [index_md])%list in
  map (fun download =>
         let pdf_dir := Path.join (Path.parent md_path) pdfs_dir in
         let filename :=
           pdf_filename (found_book_name download) (found_link_number download) in
         {| sc_url := found_url download;
            sc_file_path := Path.join pdf_dir filename;
            sc_book_name := found_book_name download;
            sc_link_number := found_link_number download;
            sc_md_path := md_path |})
      (parse_markdown_file digit (snd md)).

Definition scan_all_markdown_files (md_files : list (list (list N) * option (list N)))
  : list scanned :=
  flat_map scan_file md_files.

End Scan.


(** [get_google_drive_download_url] of the retry script (no caller in the
    script) *)
Definition retry_get_google_drive_download_url (file_id : string) : string :=
  "https://drive.usercontent.google.com/download?id=" ++ file_id
  ++ "&export=download&authuser=0&confirm=t".

(** * Properties *)

(** ** The patterns and the delays on examples *)

Example extract_file_d :
  extract_google_drive_id "https://drive.google.com/file/d/1AbC-_9/view?usp=sharing"
  = Some "1AbC-_9".
Proof. reflexivity. Qed.

Example extract_open_id :
  extract_google_drive_id "https://drive.google.com/open?id=XyZ&x=1" = Some "XyZ".
Proof. reflexivity. Qed.

Example extract_uc_id :
  extract_google_drive_id "https://drive.google.com/uc?export=download&id=q_7-Z" = Some "q_7-Z".
Proof. reflexivity. Qed.

Example extract_none :
  extract_google_drive_id "https://drive.google.com/drive/folders" = None.
Proof. reflexivity. Qed.

Example egovcloud_share :
  get_egovcloud_download_url "https://drive.egovcloud.gov.bd/index.php/s/abc"
  = "https://drive.egovcloud.gov.bd/index.php/s/abc/download".
Proof. reflexivity. Qed.

Example confirm_in_href :
  first_match Retry.confirm_patterns
    ("<a href=" ++ Retry.dq ++ "/uc?export=download&confirm=AbC_1&id=9" ++ Retry.dq ++ ">")
  = Some "AbC_1".
Proof. reflexivity. Qed.

Example confirm_direct :
  Rx.search Direct.confirm_pattern "x?confirm=t0k3n&id=9" = Some "t0k3n".
Proof. reflexivity. Qed.

Example direct_delays :
  map Direct.wait_time [0; 1; 2; 3; 4; 5]%nat = [1; 2; 4; 8; 10; 10].
Proof. reflexivity. Qed.

Example retry_delays :
  Forall2 Qeq (map Retry.wait_time [0; 1; 2; 3]%nat) [1; 5 # 2; 5; 19 # 2]%Q.
Proof. repeat constructor. Qed.

Example slices :
  iter_slices 5 2 [x01; x02; x03; x04; x05] = [[x01; x02]; [x03; x04]; [x05]].
Proof. reflexivity. Qed.

Ltac unfold_io :=
  unfold path_exists, read_head, stat_size, unlink, mkdir_parent, open_wb, write,
    fault, sleep, now, session_get, get_self, set_self, get_world, set_world,
    bind, catch, attempt_of, ret, raise in *.

Lemma world_eta (w : world) :
  {| files := files w; index_json := index_json w;
     report_json := report_json w; trace := trace w |} = w.
Proof. by destruct w. Qed.

Lemma with_files_delete_absent (w : world) (p : string) :
  files w !! p = None -> with_files (delete p) w = w.
Proof.
  intros H. unfold with_files. rewrite delete_id by done. apply world_eta.
Qed.

Ltac bool_hyps :=
  repeat match goal with
  | H : _ && _ = true |- _ => apply andb_true_iff in H; destruct H
  | H : _ && _ = false |- _ => apply andb_false_iff in H; destruct H
  | H : _ || _ = false |- _ => apply orb_false_iff in H; destruct H
  | H : _ || _ = true |- _ => apply orb_true_iff in H; destruct H
  | H : negb _ = true |- _ => apply negb_true_iff in H
  | H : negb _ = false |- _ => apply negb_false_iff in H
  | H : bool_decide _ = true |- _ => apply bool_decide_eq_true_1 in H
  | H : bool_decide _ = false |- _ => apply bool_decide_eq_false_1 in H
  end.

(** Symbolic execution of a computation applied to a state: reduce, split
    on the next test, and drop the impossible branches. *)
Ltac exec :=
  unfold_io;
  repeat (cbn -[pdf_magic Z.ltb Z.leb Z.eqb size_of lookup delete insert Str.contains
                 extract_google_drive_id Z.of_nat Z.add Z.sub Z.pow Z.min] in *;
          case_match; simplify_eq);
  cbn -[pdf_magic Z.ltb Z.leb Z.eqb size_of lookup delete insert Str.contains
        extract_google_drive_id Z.of_nat Z.add Z.sub Z.pow Z.min] in *;
  bool_hyps; simplify_eq; try congruence; try done.

(** What the existing-file check returns and what it leaves. *)
Lemma check_existing_file_eq (E : env) {Obj} (o : Obj) (w : world) (p : string) :
  check_existing_file E p (o, w) = (checked E w p, (o, after_check E w p)).
Proof.
  unfold check_existing_file, checked, after_check, validates. exec.
  all: try (rewrite with_files_delete_absent by done); try done.
  all: try (exfalso; eauto; fail).
Qed.

Lemma validates_exists (E : env) (w : world) (p : string) :
  validates E w p = true -> env_fault E OpExists p = false.
Proof.
  unfold validates. destruct (files w !! p); [|done].
  destruct (env_fault E OpExists p); [done | done].
Qed.

Lemma check_existing_file_ok (E : env) {Obj} (o : Obj) (w : world) (p : string) :
  env_fault E OpExists p = false ->
  check_existing_file E p (o, w) = (Ret (validates E w p), (o, after_check E w p)).
Proof. intros H. rewrite check_existing_file_eq. unfold checked. by rewrite H. Qed.

Lemma check_existing_file_raises (E : env) {Obj} (o : Obj) (w : world) (p : string) :
  env_fault E OpExists p = true ->
  check_existing_file E p (o, w) = (Raise (OSError OpExists p), (o, w)).
Proof.
  intros H. rewrite check_existing_file_eq. unfold checked, after_check, validates.
  rewrite H. by destruct (files w !! p).
Qed.

(** ** Bytes *)

Lemma startswith_refl (a : bytes) : startswith a a = true.
Proof.
  induction a as [|x a IH]; [done|]. cbn. rewrite IH, andb_true_r.
  destruct (Byte.eqb x x) eqn:Hx; [done|]. by apply Byte.eqb_false in Hx.
Qed.

Lemma bytes_eqb_eq (a b : bytes) : bytes_eqb a b = true <-> a = b.
Proof.
  unfold bytes_eqb. split.
  - revert b. induction a as [|x a IH]; intros [|y b] H; cbn in H; try done.
    apply andb_true_iff in H as [Hl H]. apply andb_true_iff in H as [Hxy H].
    apply Byte.byte_dec_bl in Hxy. subst y. f_equal. apply IH.
    by rewrite Hl, H.
  - intros ->. by rewrite Nat.eqb_refl, startswith_refl.
Qed.

Lemma startswith_app (pre a b : bytes) :
  startswith pre a = true -> startswith pre (a ++ b) = true.
Proof.
  revert a. induction pre as [|x pre IH]; intros [|y a] H; cbn in *; try done.
  apply andb_true_iff in H as [-> H]. by rewrite IH.
Qed.

Lemma startswith_take4 (data : bytes) :
  take 4 data = pdf_magic -> startswith pdf_magic data = true.
Proof.
  intros H. rewrite <- (take_drop 4 data), H. apply startswith_app, startswith_refl.
Qed.

Lemma validates_iff (E : env) (w : world) (p : string) :
  validates E w p = true <-> valid_artifact E w p.
Proof.
  unfold validates, valid_artifact. split.
  - destruct (files w !! p) as [data|]; [|done]. intros H. bool_hyps.
    exists data. repeat split; try done.
    + by apply bytes_eqb_eq.
    + by apply Z.ltb_lt.
  - intros (data & -> & -> & -> & -> & Hm & -> & Hs). cbn.
    apply bytes_eqb_eq in Hm. rewrite Hm. cbn. by apply Z.ltb_lt.
Qed.

(** ** The existing-file check *)

(** C3, as amended.  When [exists] answers, the existing-file check returns
    true exactly when the path exists, can be opened and read, starts with
    the signature and has a size above 1000 bytes, and then it changes
    nothing.  When it returns false it removes the file, unless the removal
    itself raises: that error is swallowed and the file stays where it is.
    ([exists] is called before the [try]: when it raises, so does the
    check.) *)
Theorem check_existing_file_spec (E : env) {Obj} (o : Obj) (w : world) (p : string) :
  env_fault E OpExists p = false ->
  exists b w',
    check_existing_file E p (o, w) = (Ret b, (o, w'))
    /\ (b = true <-> valid_artifact E w p)
    /\ (b = true -> w' = w)
    /\ (b = false -> env_fault E OpUnlink p = false ->
         files w' = delete p (files w) /\ trace w' = trace w)
    /\ (b = false -> env_fault E OpUnlink p = true -> w' = w).
Proof.
  intros Hex. exists (validates E w p), (after_check E w p).
  split; [by apply check_existing_file_ok|].
  split; [apply validates_iff|].
  unfold after_check. rewrite Hex.
  repeat split; intros; repeat case_match; simplify_eq; done.
Qed.

Lemma check_existing_file_spec_witness :
  env_fault Sample.locked OpExists Sample.dest = false
  /\ exists b w',
       check_existing_file Sample.locked Sample.dest (tt, Sample.junk_world)
       = (Ret b, (tt, w'))
       /\ (b = true <-> valid_artifact Sample.locked Sample.junk_world Sample.dest).
Proof.
  assert (Hex : env_fault Sample.locked OpExists Sample.dest = false) by reflexivity.
  split; [exact Hex|].
  destruct (check_existing_file_spec Sample.locked tt Sample.junk_world Sample.dest Hex)
    as (b & w' & Heq & Hb & _).
  by exists b, w'.
Defined.

(** C3, as stated, fails: a file that is present and does not start with the
    signature is reported invalid but is still there afterwards, because
    removing it raised. *)
Lemma check_existing_file_keeps_undeletable :
  files Sample.junk_world !! Sample.dest = Some Sample.junk
  /\ startswith pdf_magic Sample.junk = false
  /\ check_existing_file Sample.locked Sample.dest (tt, Sample.junk_world)
     = (Ret false, (tt, Sample.junk_world))
  /\ files (snd (snd (check_existing_file Sample.locked Sample.dest
                        (tt, Sample.junk_world)))) !! Sample.dest
     = Some Sample.junk.
Proof. repeat split; vm_compute; reflexivity. Qed.




(** ** Worlds and traces *)

Lemma requests_only_refl (w : world) : requests_only w w.
Proof. repeat split. exists []. by rewrite app_nil_r. Qed.

Lemma requests_only_log (w w' : world) (u : string) :
  requests_only w w' -> requests_only w (log (EvGet u) w').
Proof.
  intros (Hf & Hi & Hr & urls & Ht). repeat split; cbn; try done.
  exists (urls ++ [u])%list. by rewrite Ht, map_app, app_assoc.
Qed.

Lemma attempts_of_app (a b : list event) :
  attempts_of (a ++ b) = (attempts_of a ++ attempts_of b)%list.
Proof. apply omap_app. Qed.

Lemma sleeps_of_app (a b : list event) :
  sleeps_of (a ++ b) = (sleeps_of a ++ sleeps_of b)%list.
Proof. apply omap_app. Qed.

Lemma gets_of_app (a b : list event) :
  gets_of (a ++ b) = (gets_of a ++ gets_of b)%list.
Proof. apply omap_app. Qed.

Lemma attempts_of_gets (urls : list string) : attempts_of (map EvGet urls) = [].
Proof. induction urls; [done|]. cbn. apply IHurls. Qed.

Lemma sleeps_of_gets (urls : list string) : sleeps_of (map EvGet urls) = [].
Proof. induction urls; [done|]. cbn. apply IHurls. Qed.

Lemma requests_only_attempts (w w' : world) :
  requests_only w w' -> attempts_of (trace w') = attempts_of (trace w).
Proof.
  intros (_ & _ & _ & urls & ->).
  by rewrite attempts_of_app, attempts_of_gets, app_nil_r.
Qed.

Lemma requests_only_sleeps (w w' : world) :
  requests_only w w' -> sleeps_of (trace w') = sleeps_of (trace w).
Proof.
  intros (_ & _ & _ & urls & ->).
  by rewrite sleeps_of_app, sleeps_of_gets, app_nil_r.
Qed.

Lemma requests_only_validates (E : env) (w w' : world) (p : string) :
  requests_only w w' -> validates E w' p = validates E w p.
Proof. intros (Hf & _). unfold validates. by rewrite Hf. Qed.

Lemma served_reply (E : env) (n : nat) (u : string) (r : response) :
  env_reply E n u = Reply r -> served E r.
Proof. intros H. exists n, u, r. done. Qed.

Create HintDb io.

#[local] Hint Resolve requests_only_refl requests_only_log served_reply : io.

(** ** Writing a file *)

Lemma set_file_twice (p : string) (d1 d2 : bytes) (w : world) :
  set_file p d2 (set_file p d1 w) = set_file p d2 w.
Proof. unfold set_file, with_files. cbn. by rewrite insert_insert_eq. Qed.

Lemma set_file_same (p : string) (d : bytes) (w : world) :
  files w !! p = Some d -> set_file p d w = w.
Proof.
  intros H. unfold set_file, with_files. rewrite insert_id by done. apply world_eta.
Qed.

Lemma cut_app (E : env) (p : string) (a b : bytes) :
  forall off,
  cut E p off (a ++ b)
  = match snd (cut E p off a) with
    | Some n => cut E p off a
    | None => ((a ++ fst (cut E p (off + length a) b))%list,
               snd (cut E p (off + length a) b))
    end.
Proof.
  induction a as [|x a IH]; intros off; cbn [app cut length].
  - rewrite Nat.add_0_r. cbn. by destruct (cut E p off b).
  - destruct (env_fault E (OpWrite off) p); [done|].
    rewrite IH. replace (S off + length a)%nat with (off + S (length a))%nat by lia.
    destruct (cut E p (S off) a) as [sent [n|]]; cbn; [done|].
    by destruct (cut E p (off + S (length a)) b).
Qed.

Lemma cut_none (E : env) (p : string) (a : bytes) :
  forall off, snd (cut E p off a) = None -> fst (cut E p off a) = a.
Proof.
  induction a as [|x a IH]; intros off H; [done|]. cbn [cut] in *.
  destruct (env_fault E (OpWrite off) p); [done|].
  specialize (IH (S off)). destruct (cut E p (S off) a) as [sent err].
  cbn in *. by rewrite IH.
Qed.

Lemma cut_whole (E : env) (p : string) (a : bytes) :
  writes_whole E p -> forall off, cut E p off a = (a, None).
Proof.
  intros Hw. induction a as [|x a IH]; intros off; [done|]. cbn [cut].
  by rewrite Hw, IH.
Qed.

Lemma cut_prefix (E : env) (p : string) (a : bytes) :
  forall off, fst (cut E p off a) `prefix_of` a.
Proof.
  induction a as [|x a IH]; intros off; [done|]. cbn [cut].
  destruct (env_fault E (OpWrite off) p); [apply prefix_nil|].
  specialize (IH (S off)). destruct (cut E p (S off) a) as [sent err].
  cbn in *. by apply prefix_cons.
Qed.

Lemma cut_fault (E : env) (p : string) (a : bytes) :
  forall off n,
  snd (cut E p off a) = Some n ->
  env_fault E (OpWrite n) p = true /\ n = (off + length (fst (cut E p off a)))%nat.
Proof.
  induction a as [|x a IH]; intros off n H; [done|]. cbn [cut] in *.
  destruct (env_fault E (OpWrite off) p) eqn:Hf.
  - injection H as <-. cbn. split; [done | lia].
  - specialize (IH (S off) n). destruct (cut E p (S off) a) as [sent err].
    cbn in *. destruct (IH H) as [? ->]. split; [done | lia].
Qed.

Lemma write_eq (E : env) {Obj} (p : string) (c d : bytes) (o : Obj) (w : world) :
  files w !! p = Some d ->
  write E p c (o, w)
  = (match snd (cut E p (length d) c) with
     | Some n => Raise (OSError (OpWrite n) p)
     | None => Ret tt
     end,
     (o, set_file p (d ++ fst (cut E p (length d) c)) w)).
Proof.
  intros H. unfold write, bind at 1, get_world. cbn [snd]. rewrite H.
  destruct (cut E p (length d) c) as [sent [n|]]; reflexivity.
Qed.

Lemma write_all_eq (E : env) {Obj} (p : string) (cs : list bytes) (brk : bool)
    (d : bytes) (o : Obj) (w : world) :
  files w !! p = Some d ->
  write_all E p cs brk (o, w)
  = (match snd (cut E p (length d) (concat cs)) with
     | Some n => Raise (OSError (OpWrite n) p)
     | None => if brk then Raise StreamError else Ret tt
     end,
     (o, set_file p (d ++ fst (cut E p (length d) (concat cs))) w)).
Proof.
  revert d w. induction cs as [|c cs IH]; intros d w H; cbn [write_all concat].
  - cbn. rewrite app_nil_r, set_file_same by done. by destruct brk.
  - unfold bind. destruct c as [|x c].
    + cbn [ret app]. by rewrite (IH d w H).
    + rewrite (write_eq E p (x :: c) d o w H), cut_app.
      pose proof (cut_none E p (x :: c) (length d)) as Hnone.
      destruct (cut E p (length d) (x :: c)) as [sent [n|]]; cbn [fst snd] in *;
        [done|].
      rewrite (Hnone eq_refl).
      rewrite (IH (d ++ x :: c)%list) by (cbn; apply lookup_insert_eq).
      rewrite set_file_twice, length_app, <- app_assoc. done.
Qed.

(** ** Equations of the primitives *)

Lemma fault_eq (E : env) {Obj} (op : io_op) (p : string) (st : Obj * world) :
  fault E op p st
  = if env_fault E op p then (Raise (OSError op p), st) else (Ret tt, st).
Proof. unfold fault. by destruct (env_fault E op p). Qed.

Lemma stat_size_eq (E : env) {Obj} (p : string) (o : Obj) (w : world) :
  stat_size E p (o, w)
  = if env_fault E OpStat p then (Raise (OSError OpStat p), (o, w))
    else match files w !! p with
         | Some data => (Ret (size_of data), (o, w))
         | None => (Raise (OSError OpStat p), (o, w))
         end.
Proof.
  unfold stat_size, bind. rewrite fault_eq.
  destruct (env_fault E OpStat p); [done|]. cbn.
  by destruct (files w !! p).
Qed.

Lemma open_wb_eq (E : env) {Obj} (p : string) (o : Obj) (w : world) :
  open_wb E p (o, w)
  = if env_fault E OpOpenWrite p then (Raise (OSError OpOpenWrite p), (o, w))
    else (Ret tt, (o, set_file p [] w)).
Proof.
  unfold open_wb, bind. rewrite fault_eq.
  by destruct (env_fault E OpOpenWrite p).
Qed.

Lemma raise_for_status_eq {Obj} (r : response) (st : Obj * world) :
  raise_for_status r st
  = if (400 <=? status_code r) && (status_code r <? 600)
    then (Raise (HTTPError (status_code r)), st) else (Ret tt, st).
Proof. unfold raise_for_status. by destruct (_ && _). Qed.

Lemma written_all (E : env) {Obj} (p : string) (cs : list bytes)
    (brk : bool) (o : Obj) (w : world) :
  (do _ <- open_wb E p; write_all E p cs brk) (o, w) = written E p cs brk (o, w).
Proof.
  unfold written, bind. rewrite open_wb_eq.
  destruct (env_fault E OpOpenWrite p); [done|].
  assert (Hp : files (set_file p [] w) !! p = Some []) by apply lookup_insert_eq.
  by rewrite (write_all_eq E p cs brk [] o _ Hp), set_file_twice.
Qed.

Lemma written_first (E : env) {Obj} (p : string) (c : bytes) (cs : list bytes)
    (brk : bool) (o : Obj) (w : world) :
  (do _ <- open_wb E p; do _ <- write E p c; write_all E p cs brk) (o, w)
  = written E p (c :: cs) brk (o, w).
Proof.
  rewrite <- written_all. unfold bind. rewrite open_wb_eq.
  destruct (env_fault E OpOpenWrite p); [done|].
  destruct c as [|x c]; cbn [write_all]; unfold bind; [|done].
  assert (Hp : files (set_file p [] w) !! p = Some []) by apply lookup_insert_eq.
  rewrite (write_eq E p [] [] o _ Hp). cbn [cut fst snd app ret].
  by rewrite set_file_twice.
Qed.

(** The three ways of it: the file could not be opened; every byte was
    written; the file system refused a byte, and the ones before it stay. *)
Lemma written_inv (E : env) {Obj} (p : string) (cs : list bytes) (brk : bool)
    (o o' : Obj) (w w' : world) (r : result unit) :
  written E p cs brk (o, w) = (r, (o', w')) ->
  o' = o
  /\ (w' = w /\ (exists e, r = Raise e)
      \/ w' = set_file p (concat cs) w
         /\ (brk = true /\ r = Raise StreamError \/ brk = false /\ r = Ret tt)
      \/ exists n sent,
           env_fault E (OpWrite n) p = true
           /\ sent `prefix_of` concat cs /\ length sent = n
           /\ w' = set_file p sent w
           /\ r = Raise (OSError (OpWrite n) p)).
Proof.
  unfold written. intros H. destruct (env_fault E OpOpenWrite p); simplify_eq.
  - split; [done|]. left. eauto.
  - split; [done|]. right.
    destruct (snd (cut E p 0 (concat cs))) as [n|] eqn:Herr.
    + right. destruct (cut_fault _ _ _ _ _ Herr) as [Hf Hn].
      exists n, (fst (cut E p 0 (concat cs))).
      split_and!; [done | apply cut_prefix | by rewrite Hn | done | done].
    + left. rewrite (cut_none _ _ _ _ Herr). split; [done|]. destruct brk; eauto.
Qed.

Lemma bind_inv {Obj A B} (c : M Obj A) (k : A -> M Obj B)
    (st st' : Obj * world) (r : result B) :
  bind c k st = (r, st') ->
  (exists a st1, c st = (Ret a, st1) /\ k a st1 = (r, st'))
  \/ (exists e, c st = (Raise e, st') /\ r = Raise e).
Proof.
  unfold bind. destruct (c st) as [[a|e] st1]; intros H.
  - left. eauto.
  - right. simplify_eq. eauto.
Qed.

Lemma bind_get_self {Obj B} (k : Obj -> M Obj B) (o : Obj) (w : world) :
  bind get_self k (o, w) = k o (o, w).
Proof. reflexivity. Qed.

Lemma bind_get_world {Obj B} (k : world -> M Obj B) (o : Obj) (w : world) :
  bind get_world k (o, w) = k w (o, w).
Proof. reflexivity. Qed.

Lemma bind_set_self {Obj B} (f : Obj -> Obj) (k : unit -> M Obj B) (o : Obj) (w : world) :
  bind (set_self f) k (o, w) = k tt (f o, w).
Proof. reflexivity. Qed.

Lemma bind_set_world {Obj B} (f : world -> world) (k : unit -> M Obj B)
    (o : Obj) (w : world) :
  bind (set_world f) k (o, w) = k tt (o, f w).
Proof. reflexivity. Qed.

Lemma bind_ret {Obj A B} (a : A) (k : A -> M Obj B) (st : Obj * world) :
  bind (ret a) k st = k a st.
Proof. reflexivity. Qed.

Ltac inv_bind H :=
  let a := fresh "a" in
  let st := fresh "st" in
  let e := fresh "e" in
  let H1 := fresh "Hstep" in
  apply bind_inv in H as [(a & st & H1 & H)|(e & H1 & ->)].

Tactic Notation "bind_cases" hyp(H) "as" simple_intropattern(a) simple_intropattern(st) :=
  let e := fresh "e" in
  let H1 := fresh "Hstep" in
  let Heq := fresh "Heq" in
  apply bind_inv in H as [(a & st & H1 & H)|(e & H1 & Heq)];
  [| first [discriminate Heq | match type of Heq with ?r = _ => subst r end]].

Lemma set_file_other (p q : string) (d : bytes) (w : world) :
  q <> p -> files (set_file p d w) !! q = files w !! q.
Proof. intros Hq. cbn. by rewrite lookup_insert_ne. Qed.

Lemma validates_set_file_small (E : env) (p : string) (d : bytes) (w : world) :
  size_of d < 1000 -> validates E (set_file p d w) p = false.
Proof.
  intros Hd. unfold validates. cbn. rewrite lookup_insert_eq.
  replace (1000 <? size_of d) with false by (symmetry; apply Z.ltb_ge; lia).
  by rewrite andb_false_r.
Qed.

Lemma validates_stat_fault (E : env) (p : string) (w : world) :
  env_fault E OpStat p = true -> validates E w p = false.
Proof.
  intros Hs. unfold validates. destruct (files w !! p); [|done].
  rewrite Hs. cbn. by rewrite andb_false_r.
Qed.

(** ** [download_remaining_pdfs.py]: one attempt *)

Lemma direct_fetch_inv (E : env) (du : string) (fid : option string)
    (o o' : Direct.self) (w w' : world) (r : result response) :
  Direct.fetch E du fid (o, w) = (r, (o', w')) ->
  o' = o /\ requests_only w w' /\ (forall resp, r = Ret resp -> served E resp).
Proof.
  unfold Direct.fetch, response_text. intros H. exec.
  all: split_and!; eauto with io; intros; simplify_eq; eauto with io.
  all: match goal with
       | H : env_reply _ ?n ?u = Reply ?r |- served _ _ =>
           exists n, u, r; split_and!; done
       end.
Qed.

Lemma after_first_broken (r : response) (rest : list bytes) :
  broken (after_first r rest) = true -> broken r = true.
Proof. unfold after_first. by destruct (body r). Qed.

Lemma direct_save_inv (E : env) (p : string) (resp : response)
    (o o' : Direct.self) (w w' : world) (r : result unit) :
  Direct.save E p resp (o, w) = (r, (o', w')) ->
  o' = o /\ trace w' = trace w
  /\ index_json w' = index_json w /\ report_json w' = report_json w
  /\ (forall q, q <> p -> files w' !! q = files w !! q)
  /\ match r with
     | Ret _ =>
         env_fault E OpStat p = false
         /\ exists data,
              files w' !! p = Some data /\ 1000 <= size_of data
              /\ (Direct.declared_pdf (content_type resp) = false ->
                  startswith pdf_magic data = true)
     | Raise _ =>
         broken resp = false -> writes_whole E p ->
         validates E w p = false -> validates E w' p = false
     end.
Proof.
  unfold Direct.save. intros H.
  inv_bind H.
  2: { rewrite raise_for_status_eq in Hstep.
       destruct (_ && _); simplify_eq. by split_and!. }
  assert (st = (o, w)) as ->.
  { rewrite raise_for_status_eq in Hstep. by destruct (_ && _); simplify_eq. }
  clear Hstep a.
  assert (exists (cs : list bytes) (brk : bool),
    (if negb (Direct.declared_pdf (content_type resp))
     then
       do ' (first_chunk, rest) <- fresh_chunk resp;
       if negb (startswith pdf_magic first_chunk)
       then raise (NotPdf (content_type resp))
       else do _ <- open_wb E p; do _ <- write E p first_chunk;
            write_all E p (chunks rest) (broken rest)
     else do _ <- open_wb E p; write_all E p (chunks resp) (broken resp)) (o, w)
    = written E p cs brk (o, w)
    /\ (brk = true -> broken resp = true)
    /\ (Direct.declared_pdf (content_type resp) = false ->
        startswith pdf_magic (concat cs) = true)
    \/ exists e,
    (if negb (Direct.declared_pdf (content_type resp))
     then
       do ' (first_chunk, rest) <- fresh_chunk resp;
       if negb (startswith pdf_magic first_chunk)
       then raise (NotPdf (content_type resp))
       else do _ <- open_wb E p; do _ <- write E p first_chunk;
            write_all E p (chunks rest) (broken rest)
     else do _ <- open_wb E p; write_all E p (chunks resp) (broken resp)) (o, w)
    = (Raise e, (o, w))) as Hbody.
  { destruct (Direct.declared_pdf (content_type resp)) eqn:Hd; cbn [negb].
    - exists (chunks resp), (broken resp). left. by rewrite written_all.
    - unfold fresh_chunk. destruct (chunks resp) as [|c cs] eqn:Hc.
      + exists [], false. right. unfold bind. destruct (broken resp); eauto.
      + destruct (startswith pdf_magic c) eqn:Hm.
        * exists (c :: chunks (after_first resp cs)), (broken (after_first resp cs)).
          left. split_and!.
          -- unfold bind at 1. cbn [ret]. rewrite Hm. cbn [negb].
             apply (written_first E p c _ _ o w).
          -- apply after_first_broken.
          -- intros _. cbn [concat]. by apply startswith_app.
        * exists [], false. right. unfold bind, ret, raise. rewrite Hm. cbn. eauto. }
  destruct Hbody as (cs & brk & Hbody).
  inv_bind H.
  - destruct Hbody as [(Hb & Hbrk & Hmagic)|(e & Hb)]; rewrite Hb in Hstep; [|done].
    destruct st as [o1 w1].
    apply written_inv in Hstep
      as (-> & [(-> & e & ?)|[(-> & [(_ & ?)|(-> & _)])|(n & sent & _ & _ & _ & _ & ?)]]);
      try done.
    inv_bind H.
    + rewrite stat_size_eq in Hstep.
      destruct (env_fault E OpStat p) eqn:Hs; [done|].
      cbn in Hstep. rewrite lookup_insert_eq in Hstep. simplify_eq.
      destruct (size_of (concat cs) <? 1000) eqn:Hsz.
      * inv_bind H; rewrite stat_size_eq, Hs in Hstep; cbn in Hstep;
          rewrite lookup_insert_eq in Hstep; simplify_eq.
        unfold raise in H. simplify_eq.
        split_and!; try done.
        -- intros q Hq. by apply set_file_other.
        -- intros _ _ _. apply validates_set_file_small. by apply Z.ltb_lt.
      * unfold ret in H. simplify_eq.
        split_and!; try done.
        -- intros q Hq. by apply set_file_other.
        -- exists (concat cs). split_and!; [apply lookup_insert_eq| |done].
           by apply Z.ltb_ge.
    + rewrite stat_size_eq in Hstep.
      destruct (env_fault E OpStat p) eqn:Hs.
      * simplify_eq. split_and!; try done.
        -- intros q Hq. by apply set_file_other.
        -- intros _ _ _. by apply validates_stat_fault.
      * cbn in Hstep. by rewrite lookup_insert_eq in Hstep.
  - destruct Hbody as [(Hb & Hbrk & Hmagic)|(e' & Hb)]; rewrite Hb in Hstep.
    + apply written_inv in Hstep
        as (-> & [(-> & _)|[(-> & [(-> & _)|(_ & ?)])|(n & sent & Hf & _ & _ & -> & _)]]);
        try done.
      * split_and!; try done.
        -- intros q Hq. by apply set_file_other.
        -- intros Hw. rewrite Hbrk in Hw; done.
      * split_and!; try done.
        -- intros q Hq. by apply set_file_other.
        -- intros _ Hw. by rewrite Hw in Hf.
    + by simplify_eq.
Qed.

Arguments Direct.save : simpl never.
Arguments Direct.fetch : simpl never.

Lemma direct_resolve_inv (url : string) (o o' : Direct.self) (w w' : world)
    (r : result (string * option string)) :
  Direct.resolve url (o, w) = (r, (o', w')) -> o' = o /\ w' = w.
Proof.
  unfold Direct.resolve, raise, ret. intros H.
  repeat case_match; by simplify_eq.
Qed.

Lemma direct_record_success_eq (E : env) (url p book : string) (link : Z) (k : nat)
    (o : Direct.self) (w : world) (data : bytes) :
  env_fault E OpStat p = false ->
  files w !! p = Some data ->
  Direct.record_success E url p book link k (o, w)
  = (Ret tt,
     (Direct.set_downloaded p
        (Direct.new_info url book link (size_of data)
           (env_time E (length (trace w))) (Z.of_nat k + 1))
        (Direct.incr_newly o), w)).
Proof.
  intros Hs Hf. unfold Direct.record_success, bind, now, get_world, set_self, ret.
  cbn [fst snd]. rewrite !stat_size_eq, Hs. cbn [fst snd]. rewrite Hf.
  unfold bind. cbn [fst snd]. by rewrite stat_size_eq, Hs, Hf.
Qed.

Lemma after_banner (w w1 : world) (k n : Z) :
  requests_only (log (EvAttempt k n) w) w1 ->
  attempts_of (trace w1) = (attempts_of (trace w) ++ [k])%list
  /\ sleeps_of (trace w1) = sleeps_of (trace w)
  /\ files w1 = files w
  /\ index_json w1 = index_json w
  /\ report_json w1 = report_json w.
Proof.
  intros Hreq.
  rewrite (requests_only_attempts _ _ Hreq), (requests_only_sleeps _ _ Hreq).
  destruct Hreq as (Hf & Hi & Hr & _). cbn in *.
  rewrite attempts_of_app, sleeps_of_app. cbn. by rewrite app_nil_r.
Qed.

Lemma served_whole (E : env) (resp : response) :
  streams_whole E -> served E resp -> broken resp = false.
Proof.
  intros Hw (n & u & r & Hr & _ & _ & Hb).
  destruct (broken resp) eqn:Hbr; [|done].
  rewrite (Hw n u r Hr) in Hb. by specialize (Hb eq_refl).
Qed.

Lemma last_reply_trace (E : env) (w w' : world) :
  trace w' = trace w -> last_reply E w' = last_reply E w.
Proof. unfold last_reply. by intros ->. Qed.

Lemma last_reply_get (E : env) (w : world) (u : string) (r : response) :
  env_reply E (length (gets_of (trace w))) u = Reply r ->
  last_reply E (log (EvGet u) w) = Some r.
Proof.
  intros H. unfold last_reply. cbn [log trace].
  rewrite gets_of_app. cbn. rewrite reverse_app. cbn.
  by rewrite length_reverse, H.
Qed.

Lemma session_get_last (E : env) {Obj} (u : string) (o o' : Obj) (w w' : world)
    (resp : response) :
  session_get E u (o, w) = (Ret resp, (o', w')) -> last_reply E w' = Some resp.
Proof.
  unfold session_get. rewrite bind_get_world, bind_set_world. unfold ret, raise.
  destruct (env_reply E _ u) eqn:Hr; intros [= <- <- <-].
  by apply last_reply_get.
Qed.

(** The reply [fetch] hands on is the reply to the last request it sent. *)
Lemma direct_fetch_last (E : env) (du : string) (fid : option string)
    (o o' : Direct.self) (w w' : world) (resp : response) :
  Direct.fetch E du fid (o, w) = (Ret resp, (o', w')) ->
  exists r, last_reply E w' = Some r /\ content_type resp = content_type r.
Proof.
  unfold Direct.fetch. intros H.
  bind_cases H as resp0 [o1 w1]; try done.
  pose proof (session_get_last _ _ _ _ _ _ _ Hstep) as Hl0.
  assert (Hend : forall resp1 : response,
             content_type resp1 = content_type resp0 ->
             @ret Direct.self _ resp1 (o1, w1) = (Ret resp, (o', w')) ->
             exists r, last_reply E w' = Some r /\ content_type resp = content_type r).
  { unfold ret. intros resp1 Hc [= <- <- <-]. by exists resp0. }
  destruct (_ && _); [|by eapply Hend].
  destruct (Str.contains "text/html" _); [|by eapply Hend].
  bind_cases H as [content resp1] [o2 w2]; try done.
  assert (o2 = o1 /\ w2 = w1 /\ content_type resp1 = content_type resp0)
    as (-> & -> & Hc).
  { unfold response_text, raise, ret in Hstep0. destruct (broken resp0); by simplify_eq. }
  destruct (Str.contains "confirm=" content); [|by eapply Hend].
  destruct (Rx.search Direct.confirm_pattern content); [|by eapply Hend].
  destruct fid; [|done].
  exists resp. split; [by eapply session_get_last | done].
Qed.

(** One pass through the body of [try:]. *)
Lemma direct_attempt_body_inv (E : env) (url p book : string) (link : Z) (k : nat)
    (o o' : Direct.self) (w w' : world) (r : result unit) :
  Direct.attempt_body E url p book link k (o, w) = (r, (o', w')) ->
  attempts_of (trace w') = (attempts_of (trace w) ++ [Z.of_nat k + 1])%list
  /\ sleeps_of (trace w') = sleeps_of (trace w)
  /\ index_json w' = index_json w /\ report_json w' = report_json w
  /\ (forall q, q <> p -> files w' !! q = files w !! q)
  /\ match r with
     | Ret _ =>
         (exists info, o' = Direct.set_downloaded p info (Direct.incr_newly o)
                       /\ info_status info = Some "newly_downloaded")
         /\ env_fault E OpStat p = false
         /\ exists data,
              files w' !! p = Some data /\ 1000 <= size_of data
              /\ saved_from E w' data
     | Raise _ =>
         o' = o
         /\ (arrives_whole E p -> validates E w p = false -> validates E w' p = false)
     end.
Proof.
  unfold Direct.attempt_body. intros H.
  rewrite bind_get_self, bind_set_world in H.
  pose proof (after_banner w _ (Z.of_nat k + 1) (Direct.retry_count o)
                (requests_only_refl _)) as Hbanner.
  pose proof (requests_only_refl (log (EvAttempt (Z.of_nat k + 1) (Direct.retry_count o)) w))
    as Hreq0.
  revert Hbanner Hreq0 H.
  generalize (log (EvAttempt (Z.of_nat k + 1) (Direct.retry_count o)) w).
  intros w0 (Ha & Hs & Hf & Hi & Hr) Hreq0 H.
  assert (Hv0 : validates E w0 p = validates E w p) by (unfold validates; by rewrite Hf).
  bind_cases H as [du fid] [o1 w1].
  2: { apply direct_resolve_inv in Hstep as (-> & ->).
       split_and!; try done; [by intros; rewrite Hf | by intros; rewrite Hv0]. }
  apply direct_resolve_inv in Hstep as (-> & ->).
  bind_cases H as [] [o1 w1].
  2: { unfold mkdir_parent in Hstep. rewrite fault_eq in Hstep.
       destruct (env_fault E OpMkdir p); simplify_eq.
       split_and!; try done; [by intros; rewrite Hf | by intros; rewrite Hv0]. }
  unfold mkdir_parent in Hstep. rewrite fault_eq in Hstep.
  destruct (env_fault E OpMkdir p); [done|]. injection Hstep as <- <-.
  bind_cases H as resp [o1 w1].
  2: { apply direct_fetch_inv in Hstep as (-> & Hreq & _).
       pose proof (requests_only_validates E _ _ p Hreq) as Hv1.
       pose proof (requests_only_attempts _ _ Hreq) as Ha1.
       pose proof (requests_only_sleeps _ _ Hreq) as Hs1.
       destruct Hreq as (Hf1 & Hi1 & Hr1 & _).
       split_and!; try congruence.
       all: try (intros q Hq; by rewrite Hf1, Hf).
       all: intros; congruence. }
  pose proof (direct_fetch_last _ _ _ _ _ _ _ _ Hstep) as (r0 & Hl0 & Hct0).
  apply direct_fetch_inv in Hstep as (-> & Hreq & Hserved).
  specialize (Hserved _ eq_refl).
  pose proof (requests_only_validates E _ _ p Hreq) as Hv1.
  pose proof (requests_only_attempts _ _ Hreq) as Ha1.
  pose proof (requests_only_sleeps _ _ Hreq) as Hs1.
  destruct Hreq as (Hf1 & Hi1 & Hr1 & _).
  bind_cases H as [] [o2 w2].
  2: { apply direct_save_inv in Hstep as (-> & Ht & Hi2 & Hr2 & Hq2 & Hfail).
       split_and!; try congruence.
       all: try (intros q Hq; by rewrite Hq2, Hf1, Hf).
       all: intros [Hw Hwr] Hv; apply Hfail; [by eapply served_whole | done | congruence]. }
  apply direct_save_inv in Hstep as (-> & Ht & Hi2 & Hr2 & Hq2 & Hstat & data & Hd & Hsz & Hm).
  rewrite (direct_record_success_eq E url p book link k o w2 data Hstat Hd) in H.
  injection H as <- <- <-.
  split_and!; try congruence.
  all: try (intros q Hq; by rewrite Hq2, Hf1, Hf).
  - eauto.
  - exists data. split_and!; try done.
    exists r0. split; [by rewrite (last_reply_trace E w1 w2 Ht) | by rewrite <- Hct0].
Qed.

Arguments Direct.attempt_body : simpl never.

(** ** [download_remaining_pdfs.py]: the retry loop *)

Lemma seq_pred_cons (k n : nat) :
  n <> 0%nat -> seq k n = k :: seq (S k) (n - 1).
Proof. destruct n; [done|]. intros _. cbn. by rewrite Nat.sub_0_r. Qed.

Lemma direct_attempts_loop_inv (E : env) (url p book : string) (link : Z) :
  forall (n k : nat) (o o' : Direct.self) (w w' : world) (r : result bool),
  Z.of_nat (k + n) = Direct.retry_count o ->
  Direct.attempts_loop E url p book link (seq k n) (o, w) = (r, (o', w')) ->
  index_json w' = index_json w /\ report_json w' = report_json w
  /\ (forall q, q <> p -> files w' !! q = files w !! q)
  /\ exists b, r = Ret b /\
     if b then
       (exists info, o' = Direct.set_downloaded p info (Direct.incr_newly o)
                     /\ info_status info = Some "newly_downloaded")
       /\ env_fault E OpStat p = false
       /\ exists data,
            files w' !! p = Some data /\ 1000 <= size_of data
            /\ saved_from E w' data
     else
       attempts_of (trace w')
       = (attempts_of (trace w) ++ map (fun i => Z.of_nat i + 1) (seq k n))%list
       /\ sleeps_of (trace w')
         = (sleeps_of (trace w)
            ++ map (fun i => inject_Z (Direct.wait_time i)) (seq k (n - 1)))%list
       /\ (n = 0%nat -> o' = o)
       /\ (n <> 0%nat ->
           exists e, o' = Direct.append_failed
                            (Direct.failed_info url p book link e (Direct.retry_count o)) o)
       /\ (arrives_whole E p -> validates E w p = false -> validates E w' p = false).
Proof.
  induction n as [|n IH]; intros k o o' w w' r Hrc H.
  - cbn in H. unfold ret in H. injection H as <- <- <-.
    split_and!; try done. exists false. split; [done|].
    cbn. rewrite !app_nil_r. by split_and!.
  - cbn [seq Direct.attempts_loop] in H.
    unfold bind at 1 in H. unfold attempt_of in H.
    destruct (Direct.attempt_body E url p book link k (o, w)) as [r1 [o1 w1]] eqn:Hb.
    apply direct_attempt_body_inv in Hb as (Ha & Hs & Hi & Hr & Hq & Hres).
    destruct r1 as [[]|e].
    + unfold ret in H. injection H as <- <- <-.
      split_and!; try done. exists true. by split.
    + destruct Hres as (-> & Hv).
      rewrite bind_get_self in H.
      destruct (Z.of_nat k =? Direct.retry_count o - 1) eqn:Hlast.
      * rewrite bind_set_self in H. unfold ret in H. injection H as <- <- <-.
        apply Z.eqb_eq in Hlast. assert (n = 0%nat) as -> by lia.
        split_and!; try done. exists false. split; [done|].
        cbn. rewrite app_nil_r. split_and!; try done.
        intros _. exists e. do 2 f_equal. lia.
      * apply Z.eqb_neq in Hlast. assert (n <> 0%nat) as Hn by lia.
        unfold sleep in H. rewrite bind_set_world in H.
        apply IH in H as (Hi2 & Hr2 & Hq2 & b & -> & Hres); [|cbn; lia].
        cbn [log index_json report_json] in Hi2, Hr2.
        split_and!; try congruence.
        { intros q Hne. rewrite Hq2 by done. cbn. by apply Hq. }
        exists b. split; [done|]. destruct b; [done|].
        destruct Hres as (Ha2 & Hs2 & _ & Hfail & Hv2).
        cbn [log trace] in Ha2, Hs2.
        rewrite attempts_of_app, Ha in Ha2. rewrite sleeps_of_app, Hs in Hs2.
        cbn in Ha2, Hs2. rewrite app_nil_r in Ha2.
        split_and!.
        -- rewrite Ha2, <- app_assoc. done.
        -- rewrite Hs2, <- app_assoc. cbn [Nat.sub]. rewrite Nat.sub_0_r.
           by rewrite (seq_pred_cons k n Hn).
        -- done.
        -- intros _. by apply Hfail.
        -- intros Hw Hval. apply Hv2; [done|].
           unfold validates in *. cbn. by apply Hv.
Qed.

Lemma after_check_invalid (E : env) (w : world) (p : string) :
  validates E w p = false ->
  validates E (after_check E w p) p = false
  /\ trace (after_check E w p) = trace w
  /\ index_json (after_check E w p) = index_json w
  /\ report_json (after_check E w p) = report_json w
  /\ (forall q, q <> p -> files (after_check E w p) !! q = files w !! q).
Proof.
  intros Hv. unfold after_check. rewrite Hv.
  destruct (env_fault E OpExists p); [by split_and!|].
  destruct (env_fault E OpUnlink p); [by split_and!|].
  split_and!; try done.
  - unfold validates. cbn. by rewrite lookup_delete_eq.
  - intros q Hq. cbn. by rewrite lookup_delete_ne.
Qed.

Lemma validates_data (E : env) (w : world) (p : string) :
  validates E w p = true ->
  exists data, files w !! p = Some data /\ env_fault E OpStat p = false
               /\ 1000 < size_of data /\ startswith pdf_magic data = true.
Proof.
  intros (data & Hf & _ & _ & _ & Hm & Hs & Hsz)%validates_iff.
  exists data. split_and!; try done. by apply startswith_take4.
Qed.

Lemma direct_download_file_valid (E : env) (url p book : string) (link : Z)
    (o : Direct.self) (w : world) (data : bytes) :
  validates E w p = true ->
  files w !! p = Some data ->
  Direct.download_file E url p book link (o, w)
  = (Ret true,
     (Direct.set_downloaded p (Direct.existing_info url book link (size_of data))
        (Direct.incr_existing o), w)).
Proof.
  intros Hv Hf. destruct (validates_data E w p Hv) as (d & Hd & Hs & _).
  unfold Direct.download_file, bind.
  rewrite check_existing_file_ok, Hv by (by eapply validates_exists).
  unfold after_check. rewrite Hv. cbn [set_self fst snd].
  rewrite stat_size_eq, Hs, Hf. done.
Qed.

Lemma direct_download_file_invalid (E : env) (url p book : string) (link : Z)
    (o : Direct.self) (w : world) :
  env_fault E OpExists p = false ->
  validates E w p = false ->
  Direct.download_file E url p book link (o, w)
  = Direct.attempts_loop E url p book link (seq 0 (Z.to_nat (Direct.retry_count o)))
      (o, after_check E w p).
Proof.
  intros Hex Hv. unfold Direct.download_file, bind.
  by rewrite check_existing_file_ok, Hv.
Qed.

(** When [exists] raises, so does [download_file], before anything else. *)
Lemma direct_download_file_raises (E : env) (url p book : string) (link : Z)
    (o : Direct.self) (w : world) :
  env_fault E OpExists p = true ->
  Direct.download_file E url p book link (o, w)
  = (Raise (OSError OpExists p), (o, w)).
Proof.
  intros Hex. unfold Direct.download_file, bind.
  by rewrite check_existing_file_raises.
Qed.

Lemma direct_download_file_returns (E : env) (url p book : string) (link : Z)
    (o : Direct.self) (w : world) (b : bool) (st : Direct.self * world) :
  Direct.download_file E url p book link (o, w) = (Ret b, st) ->
  env_fault E OpExists p = false.
Proof.
  intros H. destruct (env_fault E OpExists p) eqn:Hex; [|done].
  by rewrite direct_download_file_raises in H.
Qed.

(** What a call of [download_file] leaves once [exists] has answered,
    whatever the transport and the rest of the file system do. *)
Lemma direct_download_file_inv (E : env) (url p book : string) (link : Z)
    (o o' : Direct.self) (w w' : world) (r : result bool) :
  env_fault E OpExists p = false ->
  Direct.download_file E url p book link (o, w) = (r, (o', w')) ->
  index_json w' = index_json w /\ report_json w' = report_json w
  /\ (forall q, q <> p -> files w' !! q = files w !! q)
  /\ exists b, r = Ret b /\
     if b then
       (exists info, o' = Direct.set_downloaded p info (Direct.incr_newly o)
                     \/ o' = Direct.set_downloaded p info (Direct.incr_existing o))
       /\ exists data,
            files w' !! p = Some data /\ 1000 <= size_of data
            /\ (if validates E w p then w' = w /\ startswith pdf_magic data = true
                else saved_from E w' data)
     else
       validates E w p = false
       /\ (Direct.retry_count o <= 0 -> o' = o)
       /\ (0 < Direct.retry_count o ->
           exists e, o' = Direct.append_failed
                            (Direct.failed_info url p book link e (Direct.retry_count o)) o)
       /\ (arrives_whole E p -> validates E w' p = false)
       /\ attempts_of (trace w')
         = (attempts_of (trace w)
            ++ map (fun i => Z.of_nat i + 1)
                 (seq 0 (Z.to_nat (Direct.retry_count o))))%list
       /\ sleeps_of (trace w')
         = (sleeps_of (trace w)
            ++ map (fun i => inject_Z (Direct.wait_time i))
                 (seq 0 (Z.to_nat (Direct.retry_count o) - 1)))%list.
Proof.
  intros Hex H. destruct (validates E w p) eqn:Hv.
  - destruct (validates_data E w p Hv) as (data & Hf & Hs & Hsz & Hm).
    rewrite (direct_download_file_valid E url p book link o w data Hv Hf) in H.
    injection H as <- <- <-. split_and!; try done.
    exists true. split; [done|]. split; [eauto|].
    exists data. split_and!; [done|lia|done|done].
  - rewrite direct_download_file_invalid in H by done.
    destruct (after_check_invalid E w p Hv) as (Hv0 & Ht0 & Hi0 & Hr0 & Hq0).
    destruct (Z.le_gt_cases (Direct.retry_count o) 0) as [Hrc|Hrc].
    + assert (Z.to_nat (Direct.retry_count o) = 0%nat) as Hz by lia.
      rewrite Hz in *.
      cbn in H. unfold ret in H. injection H as <- <- <-.
      split_and!; try done. exists false.
      cbn. rewrite !app_nil_r, Ht0. split_and!; try done. lia.
    + apply direct_attempts_loop_inv in H
        as (Hi & Hr & Hq & b & -> & Hres); [|cbn; lia].
      split_and!; try congruence.
      { intros q Hne. rewrite Hq by done. by apply Hq0. }
      exists b. split; [done|]. destruct b.
      * destruct Hres as ((info & -> & _) & _ & Hdata). split; eauto.
      * destruct Hres as (Ha & Hs & _ & Hfail & Hval).
        split_and!; try done; [lia| |eauto|congruence|congruence].
        intros _. apply Hfail. lia.
Qed.

Arguments Direct.download_file : simpl never.

(** ** [retry_failed_downloads.py]: one attempt *)

Lemma retry_fetch_inv (E : env) (du : string) (gid : option string)
    (o o' : Retry.self) (w w' : world) (r : result response) :
  Retry.fetch E du gid (o, w) = (r, (o', w')) ->
  o' = o /\ requests_only w w' /\ (forall resp, r = Ret resp -> served E resp).
Proof.
  unfold Retry.fetch, response_text. intros H. exec.
  all: split_and!; eauto with io; intros; simplify_eq; eauto with io.
  all: match goal with
       | H : env_reply _ ?n ?u = Reply ?r |- served _ _ =>
           exists n, u, r; split_and!; done
       end.
Qed.

Lemma written_then (E : env) {Obj A} (p : string) (c : bytes) (cs : list bytes)
    (brk : bool) (k : M Obj A) (st : Obj * world) :
  (do _ <- open_wb E p; do _ <- write E p c; do _ <- write_all E p cs brk; k) st
  = bind (written E p (c :: cs) brk) (fun _ => k) st.
Proof.
  destruct st as [o w]. unfold bind at 4. rewrite <- written_first. unfold bind.
  destruct (open_wb E p (o, w)) as [[[]|e] st1]; [|done].
  destruct (write E p c st1) as [[[]|e] st2]; [|done].
  by destruct (write_all E p cs brk st2) as [[[]|e] st3].
Qed.

Lemma retry_save_inv (E : env) (p : string) (resp : response)
    (o o' : Retry.self) (w w' : world) (r : result bool) :
  Retry.save E p resp (o, w) = (r, (o', w')) ->
  o' = o /\ trace w' = trace w
  /\ index_json w' = index_json w /\ report_json w' = report_json w
  /\ (forall q, q <> p -> files w' !! q = files w !! q)
  /\ match r with
     | Ret b =>
         b = true /\ env_fault E OpStat p = false
         /\ exists data,
              files w' !! p = Some data /\ 1000 <= size_of data
              /\ startswith pdf_magic data = true
     | Raise _ =>
         broken resp = false -> writes_whole E p ->
         validates E w p = false -> validates E w' p = false
     end.
Proof.
  unfold Retry.save. intros H.
  bind_cases H as [] [o1 w1].
  2: { rewrite raise_for_status_eq in Hstep.
       destruct (_ && _); simplify_eq. by split_and!. }
  rewrite raise_for_status_eq in Hstep.
  destruct (_ && _); [done|]. injection Hstep as <- <-.
  bind_cases H as [c rest] [o1 w1].
  2: { unfold catch, next_chunk, raise, ret in Hstep.
       destruct (chunks resp); [destruct (broken resp)|]; simplify_eq; by split_and!. }
  assert (o1 = o /\ w1 = w /\ chunks rest = tl (chunks resp)
          /\ broken rest = broken resp) as (-> & -> & Hcs & Hbrk).
  { unfold catch, next_chunk, raise, ret in Hstep.
    destruct (chunks resp) eqn:Hc; [destruct (broken resp)|]; by simplify_eq. }
  clear Hstep.
  destruct (startswith pdf_magic c) eqn:Hm; cbn [negb] in H.
  2: { unfold raise in H. destruct (_ || _); simplify_eq; by split_and!. }
  rewrite written_then in H.
  bind_cases H as [] [o1 w1].
  2: { apply written_inv in Hstep
         as (-> & [(-> & _)|[(-> & [(Hb & _)|(_ & ?)])|(n & sent & Hf & _ & _ & -> & _)]]);
         try done.
       - split_and!; try done.
         + intros q Hq. by apply set_file_other.
         + intros Hw. congruence.
       - split_and!; try done.
         + intros q Hq. by apply set_file_other.
         + intros _ Hw. by rewrite Hw in Hf. }
  apply written_inv in Hstep
    as (-> & [(-> & e & ?)|[(-> & [(_ & ?)|(_ & _)])|(n & sent & _ & _ & _ & _ & ?)]]);
    try done.
  bind_cases H as size [o1 w1].
  - rewrite stat_size_eq in Hstep.
    destruct (env_fault E OpStat p) eqn:Hs; [done|].
    cbn in Hstep. rewrite lookup_insert_eq in Hstep. injection Hstep as <- <- <-.
    destruct (size_of _ <? 1000) eqn:Hsz.
    + unfold raise in H. injection H as <- <- <-.
      split_and!; try done.
      * intros q Hq. by apply set_file_other.
      * intros _ _ _. apply validates_set_file_small. by apply Z.ltb_lt.
    + unfold ret in H. injection H as <- <- <-.
      split_and!; try done.
      * intros q Hq. by apply set_file_other.
      * eexists.
        split_and!; [apply lookup_insert_eq|by apply Z.ltb_ge|].
        by apply startswith_app.
  - rewrite stat_size_eq in Hstep.
    destruct (env_fault E OpStat p) eqn:Hs.
    + injection Hstep as <- <- <-. split_and!; try done.
      * intros q Hq. by apply set_file_other.
      * intros _ _ _. by apply validates_stat_fault.
    + cbn in Hstep. by rewrite lookup_insert_eq in Hstep.
Qed.

Arguments Retry.save : simpl never.
Arguments Retry.fetch : simpl never.

(** The world after a call that only sends requests and writes [p]. *)
Lemma retry_attempt_download_inv (E : env) (du p : string) (gid : option string)
    (o o' : Retry.self) (w w' : world) (r : result bool) :
  Retry._attempt_download E du p gid (o, w) = (r, (o', w')) ->
  o' = o
  /\ attempts_of (trace w') = attempts_of (trace w)
  /\ sleeps_of (trace w') = sleeps_of (trace w)
  /\ index_json w' = index_json w /\ report_json w' = report_json w
  /\ (forall q, q <> p -> files w' !! q = files w !! q)
  /\ match r with
     | Ret b =>
         b = true /\ env_fault E OpStat p = false
         /\ exists data,
              files w' !! p = Some data /\ 1000 <= size_of data
              /\ startswith pdf_magic data = true
     | Raise _ =>
         arrives_whole E p -> validates E w p = false -> validates E w' p = false
     end.
Proof.
  unfold Retry._attempt_download. intros H.
  bind_cases H as [] [o1 w1].
  2: { unfold mkdir_parent in Hstep. rewrite fault_eq in Hstep.
       destruct (env_fault E OpMkdir p); simplify_eq. by split_and!. }
  unfold mkdir_parent in Hstep. rewrite fault_eq in Hstep.
  destruct (env_fault E OpMkdir p); [done|]. injection Hstep as <- <-.
  bind_cases H as resp [o1 w1].
  2: { apply retry_fetch_inv in Hstep as (-> & Hreq & _).
       pose proof (requests_only_validates E _ _ p Hreq) as Hv1.
       pose proof (requests_only_attempts _ _ Hreq) as Ha1.
       pose proof (requests_only_sleeps _ _ Hreq) as Hs1.
       destruct Hreq as (Hf1 & Hi1 & Hr1 & _).
       split_and!; try congruence.
       all: try (intros q Hq; by rewrite Hf1).
       all: intros; congruence. }
  apply retry_fetch_inv in Hstep as (-> & Hreq & Hserved).
  specialize (Hserved _ eq_refl).
  pose proof (requests_only_validates E _ _ p Hreq) as Hv1.
  pose proof (requests_only_attempts _ _ Hreq) as Ha1.
  pose proof (requests_only_sleeps _ _ Hreq) as Hs1.
  destruct Hreq as (Hf1 & Hi1 & Hr1 & _).
  apply retry_save_inv in H as (-> & Ht & Hi2 & Hr2 & Hq2 & Hres).
  split_and!; try congruence.
  - intros q Hq. by rewrite Hq2, Hf1.
  - destruct r as [b|e]; [done|].
    intros [Hw Hwr] Hv. apply Hres; [by eapply served_whole | done | congruence].
Qed.

Arguments Retry._attempt_download : simpl never.

Lemma retry_try_methods_inv (E : env) (p fid : string) :
  forall (urls : list string) (o o' : Retry.self) (w w' : world) (r : result bool),
  Retry.try_methods E urls p fid (o, w) = (r, (o', w')) ->
  o' = o
  /\ attempts_of (trace w') = attempts_of (trace w)
  /\ sleeps_of (trace w') = sleeps_of (trace w)
  /\ index_json w' = index_json w /\ report_json w' = report_json w
  /\ (forall q, q <> p -> files w' !! q = files w !! q)
  /\ exists b, r = Ret b /\
     if b then
       env_fault E OpStat p = false
       /\ exists data,
            files w' !! p = Some data /\ 1000 <= size_of data
            /\ startswith pdf_magic data = true
     else arrives_whole E p -> validates E w p = false -> validates E w' p = false.
Proof.
  induction urls as [|u urls IH]; intros o o' w w' r H.
  - cbn in H. unfold ret in H. injection H as <- <- <-.
    split_and!; try done. by exists false.
  - cbn [Retry.try_methods] in H. unfold bind at 1 in H. unfold attempt_of in H.
    destruct (Retry._attempt_download E u p (Some fid) (o, w)) as [r1 [o1 w1]] eqn:Hd.
    apply retry_attempt_download_inv in Hd as (-> & Ha & Hs & Hi & Hr & Hq & Hres).
    destruct r1 as [b|e].
    + destruct Hres as (-> & Hstat & Hdata).
      unfold ret in H. injection H as <- <- <-.
      split_and!; try done. by exists true.
    + apply IH in H as (-> & Ha2 & Hs2 & Hi2 & Hr2 & Hq2 & b & -> & Hres2).
      split_and!; try congruence.
      { intros q Hne. by rewrite Hq2, Hq. }
      exists b. split; [done|]. destruct b; [done|]. auto.
Qed.

Arguments Retry.try_methods : simpl never.

Lemma retry_download_by_domain_inv (E : env) (url p : string)
    (o o' : Retry.self) (w w' : world) (r : result unit) :
  Retry.download_by_domain E url p (o, w) = (r, (o', w')) ->
  o' = o
  /\ attempts_of (trace w') = attempts_of (trace w)
  /\ sleeps_of (trace w') = sleeps_of (trace w)
  /\ index_json w' = index_json w /\ report_json w' = report_json w
  /\ (forall q, q <> p -> files w' !! q = files w !! q)
  /\ match r with
     | Ret _ =>
         env_fault E OpStat p = false
         /\ exists data,
              files w' !! p = Some data /\ 1000 <= size_of data
              /\ startswith pdf_magic data = true
     | Raise _ =>
         arrives_whole E p -> validates E w p = false -> validates E w' p = false
     end.
Proof.
  unfold Retry.download_by_domain. intros H.
  destruct (Str.contains "drive.google.com" url).
  - destruct (truthy (extract_google_drive_id url)) as [fid|].
    2: { unfold raise in H. injection H as <- <- <-. by split_and!. }
    bind_cases H as b [o1 w1].
    2: { apply retry_try_methods_inv in Hstep as (_ & _ & _ & _ & _ & _ & b & ? & _).
         done. }
    apply retry_try_methods_inv in Hstep
      as (-> & Ha & Hs & Hi & Hr & Hq & b' & [= <-] & Hres).
    destruct b; cbn [negb] in H.
    + unfold ret in H. injection H as <- <- <-. destruct Hres. by split_and!.
    + unfold raise in H. injection H as <- <- <-. by split_and!.
  - destruct (Str.contains "drive.egovcloud.gov.bd" url).
    all: bind_cases H as b [o1 w1];
      [| apply retry_attempt_download_inv in Hstep
           as (-> & Ha & Hs & Hi & Hr & Hq & Hres); by split_and! ].
    all: apply retry_attempt_download_inv in Hstep
           as (-> & Ha & Hs & Hi & Hr & Hq & -> & Hres).
    all: cbn [negb] in H; unfold ret in H; injection H as <- <- <-.
    all: destruct Hres; by split_and!.
Qed.

Arguments Retry.download_by_domain : simpl never.

Lemma retry_record_success_eq (E : env) (url p book : string) (link : Z) (k : nat)
    (o : Retry.self) (w : world) (data : bytes) :
  env_fault E OpStat p = false ->
  files w !! p = Some data ->
  Retry.record_success E url p book link k (o, w)
  = (Ret tt,
     (Retry.set_downloaded p
        (Retry.new_info url book link (size_of data)
           (env_time E (length (trace w))) (Z.of_nat k + 1)) o, w)).
Proof.
  intros Hs Hf. unfold Retry.record_success, bind, now, get_world, set_self, ret.
  rewrite !stat_size_eq, Hs, Hf. cbn [fst snd].
  unfold bind. cbn [fst snd]. by rewrite stat_size_eq, Hs, Hf.
Qed.

Lemma retry_attempt_body_inv (E : env) (url p book : string) (link : Z) (k : nat)
    (o o' : Retry.self) (w w' : world) (r : result unit) :
  Retry.attempt_body E url p book link k (o, w) = (r, (o', w')) ->
  attempts_of (trace w') = (attempts_of (trace w) ++ [Z.of_nat k + 1])%list
  /\ sleeps_of (trace w') = sleeps_of (trace w)
  /\ index_json w' = index_json w /\ report_json w' = report_json w
  /\ (forall q, q <> p -> files w' !! q = files w !! q)
  /\ match r with
     | Ret _ =>
         (exists info, o' = Retry.set_downloaded p info o)
         /\ env_fault E OpStat p = false
         /\ exists data,
              files w' !! p = Some data /\ 1000 <= size_of data
              /\ startswith pdf_magic data = true
     | Raise _ =>
         o' = o
         /\ (arrives_whole E p -> validates E w p = false -> validates E w' p = false)
     end.
Proof.
  unfold Retry.attempt_body. intros H.
  rewrite bind_get_self, bind_set_world in H.
  pose proof (after_banner w _ (Z.of_nat k + 1) (Retry.retry_count o)
                (requests_only_refl _)) as Hbanner.
  revert Hbanner H.
  generalize (log (EvAttempt (Z.of_nat k + 1) (Retry.retry_count o)) w).
  intros w0 (Ha & Hs & Hf & Hi & Hr) H.
  assert (Hv0 : validates E w0 p = validates E w p) by (unfold validates; by rewrite Hf).
  bind_cases H as [] [o1 w1].
  2: { apply retry_download_by_domain_inv in Hstep
         as (-> & Ha1 & Hs1 & Hi1 & Hr1 & Hq1 & Hres).
       split_and!; try congruence.
       all: try (intros q Hq; by rewrite Hq1, Hf).
       all: intros Hw Hv; apply Hres; [done | congruence]. }
  apply retry_download_by_domain_inv in Hstep
    as (-> & Ha1 & Hs1 & Hi1 & Hr1 & Hq1 & Hstat & data & Hd & Hsz & Hm).
  rewrite (retry_record_success_eq E url p book link k o w1 data Hstat Hd) in H.
  injection H as <- <- <-.
  split_and!; try congruence.
  all: try (intros q Hq; by rewrite Hq1, Hf).
  - eauto.
  - eauto.
Qed.

Arguments Retry.attempt_body : simpl never.

(** ** [retry_failed_downloads.py]: the retry loop *)

Lemma retry_attempts_loop_inv (E : env) (url p book : string) (link : Z) :
  forall (n k : nat) (o o' : Retry.self) (w w' : world) (r : result bool),
  Z.of_nat (k + n) = Retry.retry_count o ->
  Retry.attempts_loop E url p book link (seq k n) (o, w) = (r, (o', w')) ->
  index_json w' = index_json w /\ report_json w' = report_json w
  /\ (forall q, q <> p -> files w' !! q = files w !! q)
  /\ exists b, r = Ret b /\
     if b then
       (exists info, o' = Retry.set_downloaded p info o)
       /\ env_fault E OpStat p = false
       /\ exists data,
            files w' !! p = Some data /\ 1000 <= size_of data
            /\ startswith pdf_magic data = true
     else
       attempts_of (trace w')
       = (attempts_of (trace w) ++ map (fun i => Z.of_nat i + 1) (seq k n))%list
       /\ sleeps_of (trace w')
         = (sleeps_of (trace w) ++ map Retry.wait_time (seq k (n - 1)))%list
       /\ (n = 0%nat -> o' = o)
       /\ (n <> 0%nat ->
           exists e, o' = Retry.append_failed
                            (Retry.failed_info url p book link e (Retry.retry_count o)) o)
       /\ (arrives_whole E p -> validates E w p = false -> validates E w' p = false).
Proof.
  induction n as [|n IH]; intros k o o' w w' r Hrc H.
  - cbn in H. unfold ret in H. injection H as <- <- <-.
    split_and!; try done. exists false. split; [done|].
    cbn. rewrite !app_nil_r. by split_and!.
  - cbn [seq Retry.attempts_loop] in H.
    unfold bind at 1 in H. unfold attempt_of in H.
    destruct (Retry.attempt_body E url p book link k (o, w)) as [r1 [o1 w1]] eqn:Hb.
    apply retry_attempt_body_inv in Hb as (Ha & Hs & Hi & Hr & Hq & Hres).
    destruct r1 as [[]|e].
    + unfold ret in H. injection H as <- <- <-.
      split_and!; try done. exists true. by split.
    + destruct Hres as (-> & Hv).
      rewrite bind_get_self in H.
      destruct (Z.of_nat k =? Retry.retry_count o - 1) eqn:Hlast.
      * rewrite bind_set_self in H. unfold ret in H. injection H as <- <- <-.
        apply Z.eqb_eq in Hlast. assert (n = 0%nat) as -> by lia.
        split_and!; try done. exists false. split; [done|].
        cbn. rewrite app_nil_r. split_and!; try done.
        intros _. by exists e.
      * apply Z.eqb_neq in Hlast. assert (n <> 0%nat) as Hn by lia.
        unfold sleep in H. rewrite bind_set_world in H.
        apply IH in H as (Hi2 & Hr2 & Hq2 & b & -> & Hres); [|cbn; lia].
        cbn [log index_json report_json] in Hi2, Hr2.
        split_and!; try congruence.
        { intros q Hne. rewrite Hq2 by done. cbn. by apply Hq. }
        exists b. split; [done|]. destruct b; [done|].
        destruct Hres as (Ha2 & Hs2 & _ & Hfail & Hv2).
        cbn [log trace] in Ha2, Hs2.
        rewrite attempts_of_app, Ha in Ha2. rewrite sleeps_of_app, Hs in Hs2.
        cbn in Ha2, Hs2. rewrite app_nil_r in Ha2.
        split_and!.
        -- rewrite Ha2, <- app_assoc. done.
        -- rewrite Hs2, <- app_assoc. cbn [Nat.sub]. rewrite Nat.sub_0_r.
           by rewrite (seq_pred_cons k n Hn).
        -- done.
        -- intros _. by apply Hfail.
        -- intros Hw Hval. apply Hv2; [done|].
           unfold validates in *. cbn. by apply Hv.
Qed.

Arguments Retry.attempts_loop : simpl never.

(** What a call of [download_file_advanced] leaves. *)
Lemma retry_download_file_advanced_inv (E : env) (url p book : string) (link : Z)
    (o o' : Retry.self) (w w' : world) (r : result bool) :
  Retry.download_file_advanced E url p book link (o, w) = (r, (o', w')) ->
  index_json w' = index_json w /\ report_json w' = report_json w
  /\ (forall q, q <> p -> files w' !! q = files w !! q)
  /\ exists b, r = Ret b /\
     if b then
       (exists info, o' = Retry.set_downloaded p info o)
       /\ exists data,
            files w' !! p = Some data /\ 1000 <= size_of data
            /\ startswith pdf_magic data = true
     else
       (Retry.retry_count o <= 0 -> o' = o)
       /\ (0 < Retry.retry_count o ->
           exists e, o' = Retry.append_failed
                            (Retry.failed_info url p book link e (Retry.retry_count o)) o)
       /\ (arrives_whole E p -> validates E w p = false -> validates E w' p = false)
       /\ attempts_of (trace w')
         = (attempts_of (trace w)
            ++ map (fun i => Z.of_nat i + 1)
                 (seq 0 (Z.to_nat (Retry.retry_count o))))%list
       /\ sleeps_of (trace w')
         = (sleeps_of (trace w)
            ++ map Retry.wait_time (seq 0 (Z.to_nat (Retry.retry_count o) - 1)))%list.
Proof.
  unfold Retry.download_file_advanced. rewrite bind_get_self. intros H.
  destruct (Z.le_gt_cases (Retry.retry_count o) 0) as [Hrc|Hrc].
  - assert (Z.to_nat (Retry.retry_count o) = 0%nat) as Hz by lia.
    rewrite Hz in *.
    cbn in H. unfold ret in H. injection H as <- <- <-.
    split_and!; try done. exists false.
    cbn. rewrite !app_nil_r. split_and!; try done. lia.
  - apply retry_attempts_loop_inv in H
      as (Hi & Hr & Hq & b & -> & Hres); [|cbn; lia].
    split_and!; try done.
    exists b. split; [done|]. destruct b.
    + destruct Hres as (Hinfo & _ & Hdata). by split.
    + destruct Hres as (Ha & Hs & _ & Hfail & Hval).
      split_and!; try done; [lia|].
      intros _. apply Hfail. lia.
Qed.

Arguments Retry.download_file_advanced : simpl never.

(** ** A failed task and its destination *)

(** C1, as stated, fails: the stream of the only attempt breaks after 1004
    bytes; the task is recorded as failed, and the bytes written so far stay
    at the destination, where the existing-file check takes them for a
    valid file. *)
Lemma failed_task_leaves_partial_file :
  let res := Direct.download_file Sample.cut_off Sample.url Sample.dest "book-A" 1
               (Direct.init 3 1, Sample.empty_world) in
  fst res = Ret false
  /\ length (Direct.failed_downloads (fst (snd res))) = 1%nat
  /\ files (snd (snd res)) !! Sample.dest = Some Sample.pdf_body
  /\ validates Sample.cut_off (snd (snd res)) Sample.dest = true.
Proof. vm_compute. by split_and!. Qed.

(** A refused write does the same as a broken stream: the transport serves
    2000 bytes in full and the disk takes 1500 of them; the only attempt
    fails with the error of the write and the 1500 bytes stay at the
    destination, where they pass the existing-file check. *)
Lemma refused_write_leaves_partial_file :
  let res := Direct.download_file Case.disk_full Sample.url Sample.dest "book-A" 1
               (Direct.init 3 1, Sample.empty_world) in
  fst res = Ret false
  /\ map fail_error (Direct.failed_downloads (fst (snd res)))
     = [OSError (OpWrite 1500) Sample.dest]
  /\ files (snd (snd res)) !! Sample.dest = Some (take 1500 Case.long_body)
  /\ validates Case.disk_full (snd (snd res)) Sample.dest = true.
Proof. vm_compute. by split_and!. Qed.

(** C1, as amended.  When every body the transport serves arrives in full
    and no write to the destination is refused, a task that ends as failed
    leaves nothing at its destination that passes the existing-file
    validation (no file, a file under the size floor, or one that cannot be
    read): for [download_file] from any state, for [download_file_advanced]
    when the destination did not validate before the call.  The attempts
    themselves remove nothing. *)
Theorem failed_task_leaves_no_valid_file (E : env) (url p book : string) (link : Z) :
  arrives_whole E p ->
  (forall (o o' : Direct.self) (w w' : world),
      Direct.download_file E url p book link (o, w) = (Ret false, (o', w')) ->
      validates E w' p = false)
  /\ (forall (o o' : Retry.self) (w w' : world),
      validates E w p = false ->
      Retry.download_file_advanced E url p book link (o, w) = (Ret false, (o', w')) ->
      validates E w' p = false).
Proof.
  intros Hw. split.
  - intros o o' w w' H.
    pose proof (direct_download_file_returns _ _ _ _ _ _ _ _ _ H) as Hex.
    apply direct_download_file_inv in H as (_ & _ & _ & b & [= <-] & Hres); [|done].
    destruct Hres as (_ & _ & _ & Hv & _). by apply Hv.
  - intros o o' w w' Hv H.
    apply retry_download_file_advanced_inv in H as (_ & _ & _ & b & [= <-] & Hres).
    destruct Hres as (_ & _ & Hv' & _). by apply Hv'.
Qed.

Lemma failed_task_leaves_no_valid_file_witness :
  arrives_whole Sample.tiny Sample.dest
  /\ validates Sample.tiny
       (snd (snd (Direct.download_file Sample.tiny Sample.url Sample.dest "book-A" 1
                    (Direct.init 3 2, Sample.empty_world))))
       Sample.dest = false.
Proof.
  assert (Hw : arrives_whole Sample.tiny Sample.dest).
  { split; [by intros n u r [= <-] | by intros n]. }
  split; [exact Hw|].
  apply (proj1 (failed_task_leaves_no_valid_file Sample.tiny Sample.url Sample.dest
                  "book-A" 1 Hw)
           (Direct.init 3 2)
           (fst (snd (Direct.download_file Sample.tiny Sample.url Sample.dest "book-A" 1
                        (Direct.init 3 2, Sample.empty_world))))
           Sample.empty_world).
  vm_compute. reflexivity.
Defined.

(** ** A successful download and its file *)

(** C2, as stated, fails: the reply declares [application/pdf] and carries
    1006 bytes of markup; [download_file] reports success and the file does
    not start with the signature. *)
Lemma declared_pdf_is_not_inspected :
  let res := Direct.download_file Sample.mislabelled Sample.url Sample.dest "book-A" 1
               (Direct.init 3 2, Sample.empty_world) in
  fst res = Ret true
  /\ files (snd (snd res)) !! Sample.dest = Some Sample.html_body
  /\ startswith pdf_magic Sample.html_body = false.
Proof. vm_compute. by split_and!. Qed.

(** C2, as amended.  After [download_file] reports success the file at the
    destination has at least 1000 bytes.  When the file that was there
    passed the existing-file check it is that file, untouched, and it
    starts with the signature.  Otherwise it is what was kept of the reply
    to the last request sent, and it starts with the signature unless that
    very reply declares [application/pdf] or [application/octet-stream]
    (a reply that does is written unseen).  After [_attempt_download] or
    [download_file_advanced] reports success the file has at least 1000
    bytes and starts with the signature, whatever the reply declares. *)
Theorem successful_download_is_sized (E : env) (url p book : string) (link : Z) :
  (forall (o o' : Direct.self) (w w' : world),
      Direct.download_file E url p book link (o, w) = (Ret true, (o', w')) ->
      exists data,
        files w' !! p = Some data /\ 1000 <= size_of data
        /\ (if validates E w p then w' = w /\ startswith pdf_magic data = true
            else saved_from E w' data))
  /\ (forall (du : string) (gid : option string) (o o' : Retry.self) (w w' : world),
      Retry._attempt_download E du p gid (o, w) = (Ret true, (o', w')) ->
      exists data,
        files w' !! p = Some data /\ 1000 <= size_of data
        /\ startswith pdf_magic data = true)
  /\ (forall (o o' : Retry.self) (w w' : world),
      Retry.download_file_advanced E url p book link (o, w) = (Ret true, (o', w')) ->
      exists data,
        files w' !! p = Some data /\ 1000 <= size_of data
        /\ startswith pdf_magic data = true).
Proof.
  split_and!.
  - intros o o' w w' H.
    pose proof (direct_download_file_returns _ _ _ _ _ _ _ _ _ H) as Hex.
    apply direct_download_file_inv in H as (_ & _ & _ & b & [= <-] & _ & Hdata);
      [|done].
    exact Hdata.
  - intros du gid o o' w w' H.
    apply retry_attempt_download_inv in H as (_ & _ & _ & _ & _ & _ & _ & _ & Hdata).
    exact Hdata.
  - intros o o' w w' H.
    apply retry_download_file_advanced_inv in H as (_ & _ & _ & b & [= <-] & _ & Hdata).
    exact Hdata.
Qed.

(** ** A Google Drive link without a file id *)

Lemma direct_attempt_body_no_id (E : env) (url p book : string) (link : Z) (k : nat)
    (o : Direct.self) (w : world) :
  Str.contains "drive.google.com" url = true ->
  extract_google_drive_id url = None ->
  Direct.attempt_body E url p book link k (o, w)
  = (Raise (NoDriveId url),
     (o, log (EvAttempt (Z.of_nat k + 1) (Direct.retry_count o)) w)).
Proof.
  intros Hdom Hid. unfold Direct.attempt_body.
  rewrite bind_get_self, bind_set_world.
  unfold bind, Direct.resolve. by rewrite Hdom, Hid.
Qed.

Lemma direct_attempts_loop_no_id (E : env) (url p book : string) (link : Z) :
  Str.contains "drive.google.com" url = true ->
  extract_google_drive_id url = None ->
  forall (n k : nat) (o : Direct.self) (w : world),
  Z.of_nat (k + n) = Direct.retry_count o ->
  n <> 0%nat ->
  exists w',
    Direct.attempts_loop E url p book link (seq k n) (o, w)
    = (Ret false,
       (Direct.append_failed
          (Direct.failed_info url p book link (NoDriveId url) (Direct.retry_count o)) o,
        w'))
    /\ gets_of (trace w') = gets_of (trace w)
    /\ files w' = files w.
Proof.
  intros Hdom Hid. induction n as [|n IH]; intros k o w Hrc Hn; [done|].
  cbn [seq Direct.attempts_loop]. unfold bind at 1. unfold attempt_of.
  rewrite (direct_attempt_body_no_id E url p book link k o w Hdom Hid).
  rewrite bind_get_self.
  destruct (Z.of_nat k =? Direct.retry_count o - 1) eqn:Hlast.
  - apply Z.eqb_eq in Hlast. rewrite bind_set_self. unfold ret.
    eexists. split_and!.
    + do 4 f_equal. lia.
    + cbn. rewrite gets_of_app. cbn. by rewrite app_nil_r.
    + done.
  - apply Z.eqb_neq in Hlast. unfold sleep. rewrite bind_set_world.
    destruct (IH (S k) o
                (log (EvSleep (inject_Z (Direct.wait_time k)))
                   (log (EvAttempt (Z.of_nat k + 1) (Direct.retry_count o)) w)))
      as (w' & Heq & Hg & Hf); [lia|lia|].
    exists w'. split_and!; [done| |done].
    rewrite Hg. cbn. rewrite !gets_of_app. cbn. by rewrite !app_nil_r.
Qed.

(** C4, as stated, fails: with the script's own budget of two attempts, a
    Google Drive link without a file id is resolved twice, with a sleep of
    one second in between, before the task is recorded as failed. *)
Lemma no_drive_id_is_attempted_again :
  let res := Direct.download_file Sample.down Sample.folder_url Sample.dest "book-A" 1
               (Direct.init 3 2, Sample.empty_world) in
  extract_google_drive_id Sample.folder_url = None
  /\ fst res = Ret false
  /\ trace (snd (snd res)) = [EvAttempt 1 2; EvSleep 1; EvAttempt 2 2]
  /\ map fail_error (Direct.failed_downloads (fst (snd res)))
     = [NoDriveId Sample.folder_url].
Proof. vm_compute. by split_and!. Qed.

Lemma checked_false (E : env) (w : world) (p : string) :
  checked E w p = Ret false ->
  env_fault E OpExists p = false /\ validates E w p = false.
Proof.
  unfold checked. destruct (env_fault E OpExists p); [done|]. by intros [= ->].
Qed.

(** C4, as amended.  For a [drive.google.com] URL on which none of the id
    patterns matches, once the existing-file check has answered that the
    destination holds no valid file, every attempt of [download_file] fails
    at the resolution, before any directory is made or request sent; the
    resolution is repeated on each of the [retry_count] attempts, with the
    backoff sleeps between them; the task is then recorded as failed once,
    with the no-id error, and the call returns false instead of raising, so
    that the other tasks go on. *)
Theorem no_drive_id_fails_every_attempt (E : env) (url p book : string) (link : Z)
    (o : Direct.self) (w : world) :
  Str.contains "drive.google.com" url = true ->
  extract_google_drive_id url = None ->
  checked E w p = Ret false ->
  0 < Direct.retry_count o ->
  exists w',
    Direct.download_file E url p book link (o, w)
    = (Ret false,
       (Direct.append_failed
          (Direct.failed_info url p book link (NoDriveId url) (Direct.retry_count o)) o,
        w'))
    /\ gets_of (trace w') = gets_of (trace w)
    /\ files w' = files (after_check E w p)
    /\ attempts_of (trace w')
       = (attempts_of (trace w)
          ++ map (fun i => Z.of_nat i + 1)
               (seq 0 (Z.to_nat (Direct.retry_count o))))%list
    /\ sleeps_of (trace w')
       = (sleeps_of (trace w)
          ++ map (fun i => inject_Z (Direct.wait_time i))
               (seq 0 (Z.to_nat (Direct.retry_count o) - 1)))%list.
Proof.
  intros Hdom Hid [Hex Hv]%checked_false Hrc.
  destruct (direct_attempts_loop_no_id E url p book link Hdom Hid
              (Z.to_nat (Direct.retry_count o)) 0 o (after_check E w p))
    as (w' & Heq & Hg & Hf); [cbn; lia|lia|].
  destruct (after_check_invalid E w p Hv) as (_ & Ht & _).
  exists w'. rewrite direct_download_file_invalid by done.
  split_and!; try done; [congruence| |].
  all: pose proof Heq as Hloop;
    rewrite <- (direct_download_file_invalid E url p book link o w Hex Hv) in Hloop;
    apply direct_download_file_inv in Hloop as (_ & _ & _ & b & [= <-] & Hres);
      [|done];
    by destruct Hres as (_ & _ & _ & _ & Ha & Hs).
Qed.

Lemma no_drive_id_fails_every_attempt_witness :
  Str.contains "drive.google.com" Sample.folder_url = true
  /\ extract_google_drive_id Sample.folder_url = None
  /\ checked Sample.down Sample.empty_world Sample.dest = Ret false
  /\ 0 < Direct.retry_count (Direct.init 3 2)
  /\ exists w',
       Direct.download_file Sample.down Sample.folder_url Sample.dest "book-A" 1
         (Direct.init 3 2, Sample.empty_world)
       = (Ret false,
          (Direct.append_failed
             (Direct.failed_info Sample.folder_url Sample.dest "book-A" 1
                (NoDriveId Sample.folder_url) 2) (Direct.init 3 2),
           w'))
       /\ gets_of (trace w') = [].
Proof.
  assert (H1 : Str.contains "drive.google.com" Sample.folder_url = true) by reflexivity.
  assert (H2 : extract_google_drive_id Sample.folder_url = None) by reflexivity.
  assert (H3 : checked Sample.down Sample.empty_world Sample.dest = Ret false)
    by reflexivity.
  assert (H4 : 0 < Direct.retry_count (Direct.init 3 2)) by reflexivity.
  split_and!; try done.
  destruct (no_drive_id_fails_every_attempt Sample.down Sample.folder_url Sample.dest
              "book-A" 1 (Direct.init 3 2) Sample.empty_world H1 H2 H3 H4)
    as (w' & Heq & Hg & _).
  exists w'. split; [exact Heq | exact Hg].
Defined.

(** ** The retry budget and the delays *)

Lemma direct_wait_time_mono (i : nat) : Direct.wait_time i <= Direct.wait_time (S i).
Proof.
  unfold Direct.wait_time. apply Z.min_le_compat_r.
  apply Z.pow_le_mono_r; lia.
Qed.

Lemma direct_wait_time_cap (i : nat) : Direct.wait_time i <= 10.
Proof. unfold Direct.wait_time. apply Z.le_min_r. Qed.

Lemma retry_wait_time_increasing (i : nat) :
  (Retry.wait_time i < Retry.wait_time (S i))%Q.
Proof.
  unfold Retry.wait_time, Qlt, Qplus, Qmult, inject_Z. cbn [Qnum Qden].
  rewrite Nat2Z.inj_succ, Z.pow_succ_r by lia.
  assert (0 < 2 ^ Z.of_nat i) by (apply Z.pow_pos_nonneg; lia).
  lia.
Qed.

Lemma retry_wait_time_small (i : nat) :
  (i <= 3)%nat -> (Retry.wait_time i <= 10)%Q.
Proof.
  intros Hi. assert (i = 0 \/ i = 1 \/ i = 2 \/ i = 3)%nat as Hcases by lia.
  destruct Hcases as [-> | [-> | [-> | ->]]]; by vm_compute.
Qed.

(** C5, as stated, fails: [download_file_advanced] adds [attempt * 0.5] to
    [2 ** attempt] and has no cap; with a budget of six attempts the wait
    before the last one is 18 seconds. *)
Lemma advanced_delay_exceeds_cap :
  let res := Retry.download_file_advanced Sample.down Sample.url Sample.dest "book-A" 1
               (Retry.init 2 6, Sample.empty_world) in
  fst res = Ret false
  /\ attempts_of (trace (snd (snd res))) = [1; 2; 3; 4; 5; 6]
  /\ sleeps_of (trace (snd (snd res)))
     = map Retry.wait_time [0; 1; 2; 3; 4]%nat
  /\ (Retry.wait_time 4 == 18)%Q
  /\ (10 < Retry.wait_time 4)%Q.
Proof. vm_compute. by split_and!. Qed.

(** C5, as amended.  A task of which every attempt fails is attempted
    exactly [retry_count] times (attempts 1 to [retry_count]) and then
    recorded as failed once.  [download_file] waits [min(2 ** attempt, 10)]
    seconds after attempt [attempt], the last excepted: the delays do not
    decrease and never exceed 10.  [download_file_advanced] waits
    [2 ** attempt + attempt * 0.5] seconds: the delays increase, and they
    have no cap; they stay below 10 seconds as long as [retry_count] is at
    most 5. *)
Theorem retry_budget_and_delays (E : env) (url p book : string) (link : Z) :
  (forall (o o' : Direct.self) (w w' : world),
      0 < Direct.retry_count o ->
      Direct.download_file E url p book link (o, w) = (Ret false, (o', w')) ->
      attempts_of (trace w')
      = (attempts_of (trace w)
         ++ map (fun i => Z.of_nat i + 1)
              (seq 0 (Z.to_nat (Direct.retry_count o))))%list
      /\ sleeps_of (trace w')
         = (sleeps_of (trace w)
            ++ map (fun i => inject_Z (Direct.wait_time i))
                 (seq 0 (Z.to_nat (Direct.retry_count o) - 1)))%list
      /\ exists e, o' = Direct.append_failed
                          (Direct.failed_info url p book link e (Direct.retry_count o)) o)
  /\ (forall i, Direct.wait_time i <= Direct.wait_time (S i) /\ Direct.wait_time i <= 10)
  /\ (forall (o o' : Retry.self) (w w' : world),
      0 < Retry.retry_count o ->
      Retry.download_file_advanced E url p book link (o, w) = (Ret false, (o', w')) ->
      attempts_of (trace w')
      = (attempts_of (trace w)
         ++ map (fun i => Z.of_nat i + 1)
              (seq 0 (Z.to_nat (Retry.retry_count o))))%list
      /\ sleeps_of (trace w')
         = (sleeps_of (trace w)
            ++ map Retry.wait_time (seq 0 (Z.to_nat (Retry.retry_count o) - 1)))%list
      /\ exists e, o' = Retry.append_failed
                          (Retry.failed_info url p book link e (Retry.retry_count o)) o)
  /\ (forall i, (Retry.wait_time i < Retry.wait_time (S i))%Q)
  /\ (forall i, (i <= 3)%nat -> (Retry.wait_time i <= 10)%Q).
Proof.
  split_and!.
  - intros o o' w w' Hrc H.
    pose proof (direct_download_file_returns _ _ _ _ _ _ _ _ _ H) as Hex.
    apply direct_download_file_inv in H as (_ & _ & _ & b & [= <-] & Hres); [|done].
    destruct Hres as (_ & _ & Hfail & _ & Ha & Hs). auto.
  - intros i. split; [apply direct_wait_time_mono | apply direct_wait_time_cap].
  - intros o o' w w' Hrc H.
    apply retry_download_file_advanced_inv in H as (_ & _ & _ & b & [= <-] & Hres).
    destruct Hres as (_ & Hfail & _ & Ha & Hs). auto.
  - apply retry_wait_time_increasing.
  - apply retry_wait_time_small.
Qed.

(** ** A destination that already holds a valid file *)







(** ** One outcome per identifier *)

Lemma outcomes_set_downloaded (done : gmap string file_info) (failed : list failure)
    (p q : string) (info : file_info) :
  outcomes done failed p = 0%nat ->
  outcomes (<[p := info]> done) failed q
  = if decide (q = p) then 1%nat else outcomes done failed q.
Proof.
  unfold outcomes. intros H0. destruct (decide (q = p)) as [->|Hne].
  - rewrite lookup_insert_eq. destruct (done !! p); lia.
  - by rewrite lookup_insert_ne.
Qed.

Lemma outcomes_append_failed (done : gmap string file_info) (failed : list failure)
    (p q : string) (f : failure) :
  fail_file_path f = p ->
  outcomes done failed p = 0%nat ->
  outcomes done (failed ++ [f]) q
  = if decide (q = p) then 1%nat else outcomes done failed q.
Proof.
  unfold outcomes. intros Hf H0. rewrite filter_app, length_app.
  rewrite filter_cons, filter_nil. destruct (decide (q = p)) as [->|Hne].
  - rewrite decide_True by done. cbn. lia.
  - rewrite decide_False by congruence. cbn. lia.
Qed.

Lemma union_swap (A B P : gset string) : B ∪ (A ∪ P) = A ∪ B ∪ P.
Proof. by rewrite (assoc_L (∪)), (comm_L (∪) B A). Qed.

Lemma settled_step (o o' : Direct.self) (P : gset string) (p : string) :
  settled o P -> p ∉ P ->
  (forall q, outcomes (Direct.downloaded_files o') (Direct.failed_downloads o') q
             = if decide (q = p) then 1%nat
               else outcomes (Direct.downloaded_files o) (Direct.failed_downloads o) q) ->
  settled o' ({[p]} ∪ P).
Proof.
  intros Hs Hp Hstep q. rewrite Hstep, Hs.
  destruct (decide (q = p)) as [->|Hne].
  - rewrite decide_True; [done|]. by apply elem_of_union_l, elem_of_singleton.
  - destruct (decide (q ∈ P)).
    + rewrite decide_True; [done|]. by apply elem_of_union_r.
    + rewrite decide_False; [done|].
      by intros [?%elem_of_singleton|?]%elem_of_union.
Qed.

(** A call of [download_file] settles its identifier, and no other. *)
Lemma direct_download_file_settles (E : env) (url p book : string) (link : Z)
    (o o' : Direct.self) (w w' : world) (r : result bool) (P : gset string) :
  env_fault E OpExists p = false ->
  0 < Direct.retry_count o ->
  Direct.download_file E url p book link (o, w) = (r, (o', w')) ->
  (exists b, r = Ret b)
  /\ Direct.retry_count o' = Direct.retry_count o
  /\ Direct.max_workers o' = Direct.max_workers o
  /\ (settled o P -> p ∉ P -> settled o' ({[p]} ∪ P)).
Proof.
  intros Hex Hrc H.
  apply direct_download_file_inv in H as (_ & _ & _ & b & -> & Hres); [|done].
  destruct b.
  - destruct Hres as ((info & [-> | ->]) & _).
    all: split_and!; eauto.
    all: intros Hs Hp; apply (settled_step o _ P p Hs Hp); intros q; cbn.
    all: apply outcomes_set_downloaded; specialize (Hs p);
      by rewrite decide_False in Hs.
  - destruct Hres as (_ & _ & Hfail & _). destruct (Hfail Hrc) as (e & ->).
    split_and!; eauto.
    intros Hs Hp. apply (settled_step o _ P p Hs Hp). intros q. cbn.
    apply outcomes_append_failed; [done|]. specialize (Hs p).
    by rewrite decide_False in Hs.
Qed.

Lemma direct_run_pool_settles (E : env) :
  forall (tasks : list download) (o o' : Direct.self) (w w' : world)
         (r : result unit) (P : gset string),
  Forall (fun d => env_fault E OpExists (dl_file_path d) = false) tasks ->
  0 < Direct.retry_count o ->
  Direct.run_pool E tasks (o, w) = (r, (o', w')) ->
  r = Ret tt
  /\ (settled o P ->
      NoDup (map dl_file_path tasks) ->
      (forall d, d ∈ tasks -> dl_file_path d ∉ P) ->
      settled o' (list_to_set (map dl_file_path tasks) ∪ P)).
Proof.
  induction tasks as [|d ds IH]; intros o o' w w' r P Hex Hrc H.
  - cbn in H. unfold ret in H. injection H as <- <- <-.
    split; [done|]. intros Hs _ _. cbn. by rewrite (left_id_L ∅ (∪)).
  - apply Forall_cons in Hex as [Hex0 Hex].
    cbn [Direct.run_pool] in H. unfold bind at 1, catch in H.
    unfold bind at 1 in H.
    destruct (Direct.download_file E (dl_url d) (dl_file_path d) (dl_book_name d)
                (dl_link_number d) (o, w)) as [r1 [o1 w1]] eqn:Hd.
    apply (direct_download_file_settles E _ _ _ _ _ _ _ _ _ P Hex0 Hrc) in Hd
      as ((b & ->) & Hrc1 & _ & Hstep).
    cbn [ret] in H.
    apply (IH _ _ _ _ _ ({[dl_file_path d]} ∪ P)) in H as (-> & Hrest);
      [|done|lia].
    split; [done|]. intros Hs Hnd Hfresh.
    cbn [map] in Hnd. apply NoDup_cons in Hnd as [Hd Hnd].
    cbn [map list_to_set].
    rewrite <- union_swap.
    apply Hrest; [|done|].
    + apply Hstep; [done|]. apply Hfresh. by left.
    + intros d' Hd'. apply not_elem_of_union. split.
      * apply not_elem_of_singleton. intros Heq. apply Hd. rewrite <- Heq.
        apply list_elem_of_fmap. eauto.
      * apply Hfresh. by right.
Qed.

(** [check_all] returns only when every destination could be examined. *)
Lemma direct_check_all_returns (E : env) :
  forall (ds : list download) (o o' : Direct.self) (w w' : world)
         (todo : list download),
  Direct.check_all E ds (o, w) = (Ret todo, (o', w')) ->
  Forall (fun d => env_fault E OpExists (dl_file_path d) = false) ds
  /\ Forall (fun d => env_fault E OpExists (dl_file_path d) = false) todo.
Proof.
  induction ds as [|d ds IH]; intros o o' w w' todo H.
  - cbn in H. unfold ret in H. injection H as <- <- <-. by split.
  - cbn [Direct.check_all] in H. unfold bind at 1 in H.
    destruct (env_fault E OpExists (dl_file_path d)) eqn:Hex.
    { by rewrite check_existing_file_raises in H. }
    rewrite check_existing_file_ok in H by done.
    destruct (validates E w (dl_file_path d)) eqn:Hv.
    + destruct (validates_data E w _ Hv) as (data & Hf & Hst & _).
      unfold after_check in H. rewrite Hv in H.
      rewrite bind_set_self in H. unfold bind at 1 in H.
      rewrite stat_size_eq, Hst, Hf in H. rewrite bind_set_self in H.
      apply IH in H as [Hds Htodo]. split; [by constructor | done].
    + unfold bind at 1 in H.
      destruct (Direct.check_all E ds (o, after_check E w (dl_file_path d)))
        as [[rest|e] [o1 w1]] eqn:Hrest; [|done].
      apply IH in Hrest as [Hds Hrest].
      unfold ret in H. injection H as <- <- <-.
      split; by constructor.
Qed.

Lemma direct_check_all_settles (E : env) :
  forall (ds : list download) (o o' : Direct.self) (w w' : world)
         (r : result (list download)),
  Forall (fun d => env_fault E OpExists (dl_file_path d) = false) ds ->
  Direct.check_all E ds (o, w) = (r, (o', w')) ->
  exists todo,
    r = Ret todo
    /\ Direct.retry_count o' = Direct.retry_count o
    /\ Direct.max_workers o' = Direct.max_workers o
    /\ forall P,
         settled o P ->
         NoDup (map dl_file_path ds) ->
         (forall d, d ∈ ds -> dl_file_path d ∉ P) ->
         exists P',
           settled o' P'
           /\ NoDup (map dl_file_path todo)
           /\ (forall d, d ∈ todo -> dl_file_path d ∉ P')
           /\ list_to_set (map dl_file_path todo) ∪ P'
              = list_to_set (map dl_file_path ds) ∪ P.
Proof.
  induction ds as [|d ds IH]; intros o o' w w' r Hex H.
  - cbn in H. unfold ret in H. injection H as <- <- <-.
    exists []. split_and!; try done. intros P Hs _ _.
    exists P. split_and!; try done; [constructor|]. intros d Hd. by apply elem_of_nil in Hd.
  - apply Forall_cons in Hex as [Hex0 Hex].
    cbn [Direct.check_all] in H. unfold bind at 1 in H.
    rewrite check_existing_file_ok in H by done.
    destruct (validates E w (dl_file_path d)) eqn:Hv.
    + destruct (validates_data E w _ Hv) as (data & Hf & Hst & _).
      unfold after_check in H. rewrite Hv in H.
      rewrite bind_set_self in H. unfold bind at 1 in H.
      rewrite stat_size_eq, Hst, Hf in H. rewrite bind_set_self in H.
      apply IH in H as (todo & -> & Hrc & Hmw & Hinv); [|done].
      exists todo. split_and!; try done.
      intros P Hs Hnd Hfresh.
      cbn [map] in Hnd. apply NoDup_cons in Hnd as [Hd Hnd].
      destruct (Hinv ({[dl_file_path d]} ∪ P)) as (P' & Hs' & Hnd' & Hfresh' & Heq).
      * apply (settled_step o _ P (dl_file_path d) Hs); [apply Hfresh; by left|].
        intros q. cbn. apply outcomes_set_downloaded.
        specialize (Hs (dl_file_path d)).
        rewrite decide_False in Hs; [done|]. apply Hfresh. by left.
      * done.
      * intros d' Hd'. apply not_elem_of_union. split.
        -- apply not_elem_of_singleton. intros Heq. apply Hd. rewrite <- Heq.
           apply list_elem_of_fmap. eauto.
        -- apply Hfresh. by right.
      * exists P'. split_and!; try done. rewrite Heq. cbn [map list_to_set].
        apply union_swap.
    + unfold bind at 1 in H.
      destruct (Direct.check_all E ds (o, after_check E w (dl_file_path d)))
        as [r1 [o1 w1]] eqn:Hrest.
      apply IH in Hrest as (todo & -> & Hrc & Hmw & Hinv); [|done].
      unfold ret in H. injection H as <- <- <-.
      exists (d :: todo). split_and!; try done.
      intros P Hs Hnd Hfresh.
      cbn [map] in Hnd. apply NoDup_cons in Hnd as [Hd Hnd].
      destruct (Hinv P Hs Hnd) as (P' & Hs' & Hnd' & Hfresh' & Heq).
      { intros d' Hd'. apply Hfresh. by right. }
      assert (Hp : dl_file_path d ∉ list_to_set (C := gset string) (map dl_file_path ds) ∪ P).
      { apply not_elem_of_union. split.
        - by rewrite elem_of_list_to_set.
        - apply Hfresh. by left. }
      rewrite <- Heq in Hp. apply not_elem_of_union in Hp as [Hp1 Hp2].
      exists P'. split_and!; try done.
      * cbn [map]. apply NoDup_cons. split; [|done].
        by rewrite elem_of_list_to_set in Hp1.
      * intros d' [->|Hd']%elem_of_cons; [done|]. by apply Hfresh'.
      * cbn [map list_to_set]. by rewrite <- (assoc_L (∪)), Heq, (assoc_L (∪)).
Qed.

(** C8, as stated, fails.  With the same task listed twice and the transport
    down, the failure list holds two entries for the one identifier; with a
    transport that recovers after two requests, the identifier is in the
    failure list and in the success map. *)
Lemma duplicate_task_has_two_outcomes :
  let twice := Direct.download_all_pdfs Sample.down [Sample.task; Sample.task]
                 (Direct.init 1 2, Sample.empty_world) in
  let both := Direct.download_all_pdfs Sample.recovering [Sample.task; Sample.task]
                (Direct.init 1 2, Sample.empty_world) in
  fst twice = Ret tt
  /\ outcomes (Direct.downloaded_files (fst (snd twice)))
       (Direct.failed_downloads (fst (snd twice))) Sample.dest = 2%nat
  /\ map fail_file_path (Direct.failed_downloads (fst (snd twice)))
     = [Sample.dest; Sample.dest]
  /\ fst both = Ret tt
  /\ map fail_file_path (Direct.failed_downloads (fst (snd both))) = [Sample.dest]
  /\ is_Some (Direct.downloaded_files (fst (snd both)) !! Sample.dest).
Proof. vm_compute. split_and!; try done. eexists. reflexivity. Qed.

(** C8, as amended.  After a completed run over a task list whose
    destination paths are pairwise distinct, with a positive attempt
    budget, every identifier of the list has exactly one outcome in the
    ledger: it is a key of the success map or it has one entry in the
    failure list, never both; an identifier that is not in the list has
    none.  The report that is saved holds that success map and that failure
    list. *)
Theorem every_task_has_one_outcome (E : env) (ds : list download)
    (max_workers retry_count : Z) (w w' : world) (o' : Direct.self) :
  NoDup (map dl_file_path ds) ->
  0 < retry_count ->
  Direct.run E ds (Direct.init max_workers retry_count, w) = (Ret tt, (o', w')) ->
  (forall q,
      outcomes (Direct.downloaded_files o') (Direct.failed_downloads o') q
      = if decide (q ∈ map dl_file_path ds) then 1%nat else 0%nat)
  /\ (ds <> [] ->
      exists rep,
        report_json w' = Some rep
        /\ rep_downloaded_files rep = Direct.downloaded_files o'
        /\ rep_failed_downloads rep = Direct.failed_downloads o').
Proof.
  intros Hnd Hrc H.
  assert (Hinit : settled (Direct.init max_workers retry_count) ∅).
  { intros q. unfold outcomes. cbn. by rewrite lookup_empty. }
  destruct (decide (ds = [])) as [->|Hne].
  { cbn in H. unfold ret in H. injection H as <- <-. split; [|done].
    intros q. rewrite (Hinit q). rewrite decide_False by apply not_elem_of_empty.
    by rewrite decide_False by (by intros ?%elem_of_nil). }
  assert (Direct.run E ds (Direct.init max_workers retry_count, w)
          = (do _ <- Direct.download_all_pdfs E ds;
             do _ <- Direct.save_download_report; ret tt)
              (Direct.init max_workers retry_count, w)) as Hrun
    by (by destruct ds).
  rewrite Hrun in H. clear Hrun.
  bind_cases H as [] [o1 w1].
  unfold Direct.save_download_report in H.
  unfold bind at 1 in H. rewrite bind_get_self, bind_set_world in H.
  unfold ret in H. cbn in H. injection H as <- <-.
  assert (settled o1 (list_to_set (map dl_file_path ds))) as Hfinal.
  { unfold Direct.download_all_pdfs in Hstep.
    bind_cases Hstep as todo [o2 w2].
    destruct (direct_check_all_returns _ _ _ _ _ _ _ Hstep0) as [Hex Hex'].
    apply direct_check_all_settles in Hstep0 as (todo' & [= <-] & Hrc2 & Hmw2 & Hinv);
      [|done].
    destruct (Hinv ∅ Hinit Hnd) as (P' & Hs' & Hnd' & Hfresh' & Heq).
    { intros d _. apply not_elem_of_empty. }
    rewrite (right_id_L ∅ (∪)) in Heq.
    destruct todo as [|t todo].
    - unfold ret in Hstep. injection Hstep as <- <-.
      cbn in Heq. rewrite (left_id_L ∅ (∪)) in Heq. by rewrite <- Heq.
    - rewrite bind_get_self in Hstep.
      destruct (Direct.max_workers o2 <=? 0); [done|].
      apply (direct_run_pool_settles E _ _ _ _ _ _ P') in Hstep as (_ & Hpool).
      + rewrite <- Heq. by apply Hpool.
      + done.
      + cbn in Hrc2. lia. }
  split.
  - intros q. rewrite (Hfinal q).
    destruct (decide (q ∈ map dl_file_path ds)) as [Hin|Hin].
    + rewrite decide_True; [done|]. by rewrite elem_of_list_to_set.
    + rewrite decide_False; [done|]. by rewrite elem_of_list_to_set.
  - intros _. eexists. split_and!; reflexivity.
Qed.

Lemma every_task_has_one_outcome_witness :
  let res := Direct.run Sample.tiny [Sample.task] (Direct.init 3 2, Sample.empty_world) in
  NoDup (map dl_file_path [Sample.task])
  /\ 0 < 2
  /\ res = (Ret tt, snd res)
  /\ outcomes (Direct.downloaded_files (fst (snd res)))
       (Direct.failed_downloads (fst (snd res))) Sample.dest
     = if decide (Sample.dest ∈ map dl_file_path [Sample.task]) then 1%nat else 0%nat.
Proof.
  assert (H1 : NoDup (map dl_file_path [Sample.task])) by apply NoDup_singleton.
  assert (H2 : 0 < 2) by lia.
  assert (H3 : Direct.run Sample.tiny [Sample.task] (Direct.init 3 2, Sample.empty_world)
               = (Ret tt,
                  (fst (snd (Direct.run Sample.tiny [Sample.task]
                               (Direct.init 3 2, Sample.empty_world))),
                   snd (snd (Direct.run Sample.tiny [Sample.task]
                               (Direct.init 3 2, Sample.empty_world))))))
    by (vm_compute; reflexivity).
  split_and!; [exact H1 | exact H2 | vm_compute; reflexivity |].
  exact (proj1 (every_task_has_one_outcome Sample.tiny [Sample.task] 3 2
                  Sample.empty_world _ _ H1 H2 H3) Sample.dest).
Defined.

(** ** The retry-only run and the ledger *)

Lemma retry_run_pool_all_succeed (E : env) :
  forall (tasks : list download) (o : Retry.self) (w : world),
  all_succeed E tasks (o, w) ->
  exists o' w',
    Retry.run_pool E tasks (o, w) = (Ret tt, (o', w'))
    /\ index_json w' = index_json w
    /\ Retry.still_failed o' = Retry.still_failed o
    /\ dom (Retry.newly_downloaded o')
       = list_to_set (map dl_file_path tasks) ∪ dom (Retry.newly_downloaded o).
Proof.
  induction tasks as [|d ds IH]; intros o w Hall.
  - exists o, w. split_and!; try done. cbn. by rewrite (left_id_L ∅ (∪)).
  - destruct Hall as ([o1 w1] & Hd & Hall).
    destruct (IH o1 w1 Hall) as (o' & w' & Hrun & Hi & Hf & Hdom).
    exists o', w'. cbn [Retry.run_pool]. unfold bind at 1, catch. unfold bind at 1.
    rewrite Hd. cbn [ret]. rewrite Hrun.
    apply retry_download_file_advanced_inv in Hd
      as (Hi1 & _ & _ & b & [= <-] & (info & ->) & _).
    split_and!; try congruence.
    + by rewrite Hf.
    + rewrite Hdom. cbn [map list_to_set Retry.set_downloaded Retry.newly_downloaded].
      rewrite dom_insert_L.
      by rewrite (assoc_L (∪)), (comm_L (∪) (list_to_set _) {[dl_file_path d]}).
Qed.

(** C6, as stated, fails: the ledger lists the same destination twice among
    its failed entries (N = 2) next to one successful entry (M = 1); after a
    retry-only run in which both downloads succeed it holds two successful
    entries, not three. *)
Lemma duplicate_failed_entries_merge :
  let failed := [Sample.failed_entry Sample.dest; Sample.failed_entry Sample.dest] in
  let res := Retry.run Sample.good (Retry.init 2 5, Sample.ledger_world failed) in
  all_succeed Sample.good (map Retry.retry_task failed)
    (Retry.init 2 5, Sample.ledger_world failed)
  /\ exists data',
       fst res = Ret data'
       /\ ix_failed_downloads data' = []
       /\ size (ix_downloaded_files data') = 2%nat
       /\ ix_total_downloaded data' = Some 2.
Proof.
  split.
  - cbn [all_succeed map]. eexists. split; [vm_compute; reflexivity|].
    eexists. split; [vm_compute; reflexivity|]. done.
  - eexists. split_and!; [vm_compute; reflexivity|..]; by vm_compute.
Qed.

(** Two spellings of one path count as one destination: the failed entries
    name [/out//book-A_1.pdf] and [/out/book-A_1.pdf]; both downloads
    succeed, and the ledger gains one successful entry, under the second
    spelling. *)
Lemma respelled_failed_entries_merge :
  let failed := [Sample.failed_entry "/out//book-A_1.pdf";
                 Sample.failed_entry "/out/book-A_1.pdf"] in
  let res := Retry.run Sample.good (Retry.init 2 5, Sample.ledger_world failed) in
  NoDup (map fail_file_path failed)
  /\ map (fun f => Str.str_path (fail_file_path f)) failed = [Sample.dest; Sample.dest]
  /\ exists data',
       fst res = Ret data'
       /\ ix_failed_downloads data' = []
       /\ size (ix_downloaded_files data') = 2%nat
       /\ is_Some (ix_downloaded_files data' !! Sample.dest)
       /\ ix_downloaded_files data' !! "/out//book-A_1.pdf" = None.
Proof.
  split_and!.
  - apply NoDup_cons. split; [|apply NoDup_singleton].
    intros H%list_elem_of_singleton. discriminate H.
  - by vm_compute.
  - eexists. split_and!; [vm_compute; reflexivity|..]; try by vm_compute.
    vm_compute. eexists. reflexivity.
Qed.

(** C6, as amended.  The destination of a failed entry is its recorded path
    as [Path] spells it ([str(Path(failed['file_path']))]).  For a
    persisted ledger with N failed and M successful entries in which the
    failed entries have pairwise distinct destinations, none of them a key
    of the success map, a retry-only run whose downloads all succeed writes
    a ledger with no failed entry and N + M successful entries; the M
    earlier entries are carried over unchanged, and every destination is a
    key of the new success map.  The pool is run over the failed entries
    only, and with no failed entry the run sends no request at all. *)
Theorem retry_only_resume (E : env) (data : index_data) (max_workers retry_count : Z)
    (w : world) :
  index_json w = Some data ->
  0 < max_workers ->
  NoDup (map (fun f => Str.str_path (fail_file_path f)) (ix_failed_downloads data)) ->
  (forall f, f ∈ ix_failed_downloads data ->
             ix_downloaded_files data !! Str.str_path (fail_file_path f) = None) ->
  all_succeed E (map Retry.retry_task (ix_failed_downloads data))
    (Retry.init max_workers retry_count, w) ->
  exists data' o' w',
    Retry.run E (Retry.init max_workers retry_count, w) = (Ret data', (o', w'))
    /\ Retry.run E (Retry.init max_workers retry_count, w)
       = (do _ <- Retry.run_pool E (map Retry.retry_task (ix_failed_downloads data));
          Retry.update_index_json E) (Retry.init max_workers retry_count, w)
    /\ index_json w' = Some data'
    /\ ix_failed_downloads data' = []
    /\ ix_total_failed data' = Some 0
    /\ size (ix_downloaded_files data')
       = (length (ix_failed_downloads data) + size (ix_downloaded_files data))%nat
    /\ (forall k v, ix_downloaded_files data !! k = Some v ->
                    ix_downloaded_files data' !! k = Some v)
    /\ (forall f, f ∈ ix_failed_downloads data ->
                  is_Some (ix_downloaded_files data' !! Str.str_path (fail_file_path f)))
    /\ (ix_failed_downloads data = [] -> trace w' = trace w).
Proof.
  intros Hix Hmw Hnd Hdisj Hall.
  destruct (retry_run_pool_all_succeed E _ _ _ Hall)
    as (o1 & w1 & Hpool & Hi1 & Hf1 & Hdom).
  cbn in Hf1. cbn [Retry.init Retry.newly_downloaded] in Hdom.
  rewrite dom_empty_L, (right_id_L ∅ (∪)) in Hdom.
  assert (Hpaths : map dl_file_path (map Retry.retry_task (ix_failed_downloads data))
                   = map (fun f => Str.str_path (fail_file_path f))
                       (ix_failed_downloads data)).
  { rewrite map_map. by apply map_ext. }
  rewrite Hpaths in Hdom.
  assert (Hrun : Retry.retry_failed_downloads E (Retry.init max_workers retry_count, w)
                 = Retry.run_pool E (map Retry.retry_task (ix_failed_downloads data))
                     (Retry.init max_workers retry_count, w)).
  { unfold Retry.retry_failed_downloads, Retry.load_previous_results.
    unfold bind at 1. rewrite bind_get_world, Hix. cbn [ret].
    destruct (ix_failed_downloads data) as [|f fs]; [done|].
    rewrite bind_get_self. cbn [Retry.init Retry.max_workers].
    destruct (max_workers <=? 0) eqn:Hle; [apply Z.leb_le in Hle; lia|done]. }
  assert (Hdisj' : Retry.newly_downloaded o1 ##ₘ ix_downloaded_files data).
  { apply map_disjoint_dom. rewrite Hdom. intros k Hk1 Hk2.
    apply elem_of_list_to_set, list_elem_of_fmap in Hk1 as (f & -> & Hf).
    apply elem_of_dom in Hk2 as [v Hv]. rewrite (Hdisj f Hf) in Hv. done. }
  assert (Hsize : size (Retry.newly_downloaded o1)
                  = length (ix_failed_downloads data)).
  { rewrite <- size_dom, Hdom, size_list_to_set by done. apply length_map. }
  eexists _, o1, _. split_and!.
  - unfold Retry.run, bind. rewrite Hrun, Hpool.
    unfold Retry.update_index_json. rewrite bind_get_world, Hi1, Hix.
    rewrite bind_get_self. unfold bind at 1, now. rewrite bind_get_world.
    cbn [ret]. rewrite bind_set_world. unfold ret. reflexivity.
  - unfold Retry.run, bind. by rewrite Hrun.
  - done.
  - by cbn.
  - cbn. by rewrite Hf1.
  - cbn. by rewrite map_size_disj_union, Hsize.
  - intros k v Hk. cbn. apply lookup_union_Some_raw. right. split; [|done].
    apply eq_None_not_Some. intros [x Hx].
    exact (proj1 (map_disjoint_spec _ _) Hdisj' k x v Hx Hk).
  - intros f Hf. cbn.
    assert (Str.str_path (fail_file_path f) ∈ dom (Retry.newly_downloaded o1)) as Hin.
    { rewrite Hdom. apply elem_of_list_to_set, list_elem_of_fmap. eauto. }
    apply elem_of_dom in Hin as [v Hv]. exists v.
    apply lookup_union_Some_raw. by left.
  - intros Hnil. rewrite Hnil in Hpool. cbn in Hpool. unfold ret in Hpool.
    injection Hpool as <- <-. done.
Qed.

Lemma retry_only_resume_witness :
  let failed := [Sample.failed_entry Sample.dest] in
  let w := Sample.ledger_world failed in
  index_json w = Some (Sample.ledger failed)
  /\ 0 < 2
  /\ NoDup (map (fun f => Str.str_path (fail_file_path f)) failed)
  /\ all_succeed Sample.good (map Retry.retry_task failed) (Retry.init 2 5, w)
  /\ exists data' o' w',
       Retry.run Sample.good (Retry.init 2 5, w) = (Ret data', (o', w'))
       /\ ix_failed_downloads data' = []
       /\ size (ix_downloaded_files data') = 2%nat.
Proof.
  set (failed := [Sample.failed_entry Sample.dest]).
  set (w := Sample.ledger_world failed).
  assert (H1 : index_json w = Some (Sample.ledger failed)) by reflexivity.
  assert (H2 : 0 < 2) by lia.
  assert (H3 : NoDup (map (fun f => Str.str_path (fail_file_path f))
                        (ix_failed_downloads (Sample.ledger failed))))
    by apply NoDup_singleton.
  assert (H4 : forall f, f ∈ ix_failed_downloads (Sample.ledger failed) ->
                 ix_downloaded_files (Sample.ledger failed)
                   !! Str.str_path (fail_file_path f) = None).
  { intros f Hf. apply list_elem_of_singleton in Hf. subst f. by vm_compute. }
  assert (H5 : all_succeed Sample.good
                 (map Retry.retry_task (ix_failed_downloads (Sample.ledger failed)))
                 (Retry.init 2 5, w)).
  { cbn [all_succeed map Sample.ledger ix_failed_downloads failed].
    eexists. split; [vm_compute; reflexivity|]. exact I. }
  split_and!; [exact H1 | exact H2 | exact H3 | exact H5 |].
  destruct (retry_only_resume Sample.good (Sample.ledger failed) 2 5 w H1 H2 H3 H4 H5)
    as (data' & o' & w' & Hrun & _ & _ & Hfailed & _ & Hsize & _).
  exists data', o', w'. split_and!; [exact Hrun | exact Hfailed |].
  rewrite Hsize. by vm_compute.
Defined.

(** * Further properties *)

(** ** Strings and patterns *)

Lemma string_app_cons (x : ascii) (a b : string) :
  String x a ++ b = String x (a ++ b).
Proof. reflexivity. Qed.

Lemma string_app_nil_l (a : string) : EmptyString ++ a = a.
Proof. reflexivity. Qed.

Lemma string_app_assoc (a b c : string) : (a ++ b) ++ c = a ++ (b ++ c).
Proof. induction a as [|x a IH]; [done|]. rewrite !string_app_cons. by f_equal. Qed.

Lemma string_app_nil_r (a : string) : a ++ EmptyString = a.
Proof. induction a as [|x a IH]; [done|]. rewrite string_app_cons. by f_equal. Qed.

Lemma prefix_spec (a b : string) :
  String.prefix a b = true <-> exists t, b = a ++ t.
Proof.
  revert b. induction a as [|x a IH]; intros b.
  - replace (String.prefix EmptyString b) with true by (by destruct b).
    split; [|done]. intros _. by exists b.
  - destruct b as [|y b]; simpl String.prefix; [split; [done|by intros [t ?]]|].
    destruct (ascii_dec x y) as [->|Hne].
    + rewrite IH. split; intros [t Ht]; exists t.
      * by rewrite Ht.
      * rewrite string_app_cons in Ht. by injection Ht.
    + split; [done|]. intros [t Ht]. rewrite string_app_cons in Ht.
      injection Ht as -> _. done.
Qed.

Lemma contains_spec (needle hay : string) :
  Str.contains needle hay = true <-> exists pre post, hay = pre ++ needle ++ post.
Proof.
  induction hay as [|c hay IH].
  - cbn [Str.contains]. rewrite orb_false_r, prefix_spec. split.
    + intros [t Ht]. by exists EmptyString, t.
    + intros (pre & post & H). destruct pre as [|x pre]; [by exists post|done].
  - cbn [Str.contains]. rewrite orb_true_iff, prefix_spec, IH. split.
    + intros [[t Ht] | (pre & post & Ht)].
      * by exists EmptyString, t.
      * exists (String c pre), post. by rewrite Ht.
    + intros (pre & post & Ht). destruct pre as [|x pre].
      * left. by exists post.
      * right. rewrite string_app_cons in Ht. injection Ht as -> ->. eauto.
Qed.

Lemma strip_spec (lit s s' : string) :
  Str.strip lit s = Some s' <-> s = lit ++ s'.
Proof.
  revert s. induction lit as [|x lit IH]; intros s; cbn [Str.strip].
  - rewrite string_app_nil_l. split; [by intros [= ->] | by intros ->].
  - rewrite string_app_cons. destruct s as [|y s]; [split; done|].
    destruct (Ascii.eqb x y) eqn:Hxy.
    + apply Ascii.eqb_eq in Hxy as ->. rewrite IH.
      split; [by intros -> | by intros [= ->]].
    + apply Ascii.eqb_neq in Hxy. split; [done|]. by intros [= -> _].
Qed.

Lemma span_spec (p : ascii -> bool) (s run rest : string) :
  Str.span p s = (run, rest) ->
  s = run ++ rest /\ all_chars p run = true
  /\ match rest with
     | EmptyString => True
     | String c _ => p c = false
     end.
Proof.
  revert run rest. induction s as [|c s IH]; intros run rest; cbn [Str.span].
  - by intros [= <- <-].
  - destruct (p c) eqn:Hc.
    + destruct (Str.span p s) as [run' rest'] eqn:Hs.
      intros [= <- <-]. destruct (IH _ _ eq_refl) as (-> & Hall & Hrest).
      rewrite string_app_cons. cbn [all_chars]. by rewrite Hc, Hall.
    + intros [= <- <-]. by rewrite Hc.
Qed.

Lemma capture_spec (c : Rx.cclass) (s g : string) :
  Rx.capture c s = Some g ->
  g <> EmptyString /\ all_chars c g = true /\ exists rest, s = g ++ rest.
Proof.
  unfold Rx.capture. destruct (Str.span c s) as [run rest] eqn:Hs.
  destruct (span_spec c s run rest Hs) as (-> & Hall & _).
  destruct run; [done|]. intros [= <-]. eauto.
Qed.

Lemma search_spec (p : Rx.pattern) (s g : string) :
  Rx.search p s = Some g ->
  exists pre t, s = pre ++ t /\ Rx.match_here p t = Some g.
Proof.
  induction s as [|c s IH]; cbn [Rx.search].
  - destruct (Rx.match_here p EmptyString) eqn:Hm; [|done].
    intros [= ->]. by exists EmptyString, EmptyString.
  - destruct (Rx.match_here p (String c s)) eqn:Hm.
    + intros [= ->]. by exists EmptyString, (String c s).
    + intros (pre & t & -> & Ht)%IH. by exists (String c pre), t.
Qed.

Lemma search_found (p : Rx.pattern) (pre t g : string) :
  Rx.match_here p t = Some g -> is_Some (Rx.search p (pre ++ t)).
Proof.
  intros Hm. induction pre as [|c pre IH].
  - rewrite string_app_nil_l. destruct t; cbn [Rx.search]; by rewrite Hm.
  - rewrite string_app_cons. cbn [Rx.search].
    destruct (Rx.match_here p (String c (pre ++ t))); [done|].
    exact IH.
Qed.

(** a pattern that is a literal followed by the group *)
Lemma match_here_lit (lit : string) (c : Rx.cclass) (s g : string) :
  Rx.match_here {| Rx.prefix := [Rx.Lit lit]; Rx.group := c |} s = Some g <->
  exists s', s = lit ++ s' /\ Rx.capture c s' = Some g.
Proof.
  unfold Rx.match_here. cbn. destruct (Str.strip lit s) as [s'|] eqn:Hs.
  - apply strip_spec in Hs as ->. split; [eauto|].
    intros (s'' & Heq & Hc).
    by apply (inj (String.append lit)) in Heq as ->.
  - split; [done|]. intros (s' & Heq & _).
    apply strip_spec in Heq. congruence.
Qed.

(** X1.  The file id [extract_google_drive_id] returns is never empty, is
    made of letters, digits, [-] and [_] only, and stands in the URL right
    after one of the three literals [/file/d/], [id=], [/open?id=]. *)
Theorem drive_id_shape (url g : string) :
  extract_google_drive_id url = Some g ->
  g <> EmptyString
  /\ all_chars Rx.id_char g = true
  /\ exists lit, lit ∈ drive_id_literals /\ Str.contains (lit ++ g) url = true.
Proof.
  unfold extract_google_drive_id, drive_id_patterns, first_match.
  intros H.
  assert (exists lit, lit ∈ drive_id_literals
            /\ Rx.search {| Rx.prefix := [Rx.Lit lit]; Rx.group := Rx.id_char |} url
               = Some g) as (lit & Hlit & Hs).
  { unfold drive_id_literals.
    repeat match type of H with
           | match ?x with _ => _ end = _ =>
               destruct x eqn:?; [injection H as ->; eexists; split; [|eassumption] |]
           end; try done.
    - apply elem_of_cons. by left.
    - apply elem_of_cons. right. apply elem_of_cons. by left.
    - do 2 (apply elem_of_cons; right). apply elem_of_cons. by left. }
  apply search_spec in Hs as (pre & t & -> & Hm).
  apply match_here_lit in Hm as (s' & -> & Hc).
  apply capture_spec in Hc as (Hne & Hall & rest & ->).
  split_and!; try done. exists lit. split; [done|].
  apply contains_spec. exists pre, rest. by rewrite string_app_assoc.
Qed.

Lemma drive_id_shape_witness :
  extract_google_drive_id "https://drive.google.com/file/d/1AbC-_9/view" = Some "1AbC-_9"
  /\ all_chars Rx.id_char "1AbC-_9" = true.
Proof.
  assert (H : extract_google_drive_id "https://drive.google.com/file/d/1AbC-_9/view"
              = Some "1AbC-_9") by reflexivity.
  split; [exact H|].
  exact (proj1 (proj2 (drive_id_shape _ _ H))).
Defined.

(** X2.  The third id pattern, [/open?id=], never decides: whenever it
    matches, the second pattern [id=] matches as well and is tried first,
    so the extraction is the same with the first two patterns alone. *)
Theorem open_id_pattern_is_shadowed (url : string) :
  extract_google_drive_id url = first_match (take 2 drive_id_patterns) url.
Proof.
  unfold extract_google_drive_id, drive_id_patterns. cbn [take first_match].
  destruct (Rx.search _ url) as [g1|]; [done|].
  destruct (Rx.search {| Rx.prefix := [Rx.Lit "id="]; Rx.group := Rx.id_char |} url)
    as [g2|] eqn:H2; [done|].
  destruct (Rx.search {| Rx.prefix := [Rx.Lit "/open?id="]; Rx.group := Rx.id_char |} url)
    as [g3|] eqn:H3; [|done].
  apply search_spec in H3 as (pre & t & -> & Hm).
  apply match_here_lit in Hm as (s' & -> & Hc).
  assert (is_Some (Rx.search {| Rx.prefix := [Rx.Lit "id="]; Rx.group := Rx.id_char |}
                     ((pre ++ "/open?") ++ ("id=" ++ s')))) as [g Hg].
  { eapply search_found. apply match_here_lit. eauto. }
  rewrite string_app_assoc in Hg.
  change ("/open?" ++ "id=" ++ s') with ("/open?id=" ++ s') in Hg. congruence.
Qed.

(** ** The existing-file check, again *)

Lemma after_check_twice (E : env) (w : world) (p : string) :
  validates E (after_check E w p) p = validates E w p
  /\ after_check E (after_check E w p) p = after_check E w p.
Proof.
  destruct (validates E w p) eqn:Hv.
  - unfold after_check. rewrite Hv. by rewrite Hv.
  - destruct (after_check_invalid E w p Hv) as (Hv' & _).
    split; [done|]. unfold after_check at 1. rewrite Hv'.
    unfold after_check. rewrite Hv.
    destruct (env_fault E OpExists p); [done|].
    destruct (env_fault E OpUnlink p); [done|].
    unfold with_files. cbn. by rewrite delete_delete_eq.
Qed.

(** X3.  Checking a path a second time gives the answer of the first check
    and changes nothing more: the check followed by the check is the
    check. *)
Theorem check_existing_file_idempotent (E : env) {Obj} (o : Obj) (w : world) (p : string) :
  (do _ <- check_existing_file E p; check_existing_file E p) (o, w)
  = check_existing_file E p (o, w).
Proof.
  unfold bind. rewrite check_existing_file_eq. unfold checked.
  destruct (env_fault E OpExists p) eqn:Hex; [done|].
  cbv beta iota. rewrite check_existing_file_eq. unfold checked. rewrite Hex.
  destruct (after_check_twice E w p) as (-> & ->). done.
Qed.

(** X4.  The existing-file check touches nothing but its own path: every
    other file is as before, the trace (so the transport) is as before, and
    the file at the path itself is either as before or gone; the check
    never writes.  It raises in one case only, when [exists] itself does,
    and then the world is as before; otherwise it answers. *)
Theorem check_existing_file_frame (E : env) {Obj} (o : Obj) (w : world) (p : string) :
  exists r w',
    check_existing_file E p (o, w) = (r, (o, w'))
    /\ trace w' = trace w
    /\ (forall q, q <> p -> files w' !! q = files w !! q)
    /\ (files w' !! p = files w !! p \/ files w' !! p = None)
    /\ (if env_fault E OpExists p
        then r = Raise (OSError OpExists p) /\ w' = w
        else exists b, r = Ret b).
Proof.
  exists (checked E w p), (after_check E w p).
  split; [apply check_existing_file_eq|].
  assert (Hr : if env_fault E OpExists p
               then checked E w p = Raise (OSError OpExists p)
                    /\ after_check E w p = w
               else exists b, checked E w p = Ret b).
  { unfold checked, after_check.
    destruct (env_fault E OpExists p) eqn:Hex; [|eauto].
    split; [done|]. destruct (validates E w p); done. }
  destruct (validates E w p) eqn:Hv.
  - unfold after_check in *. rewrite Hv in *. split_and!; auto.
  - destruct (after_check_invalid E w p Hv) as (_ & Ht & _ & _ & Hq).
    split_and!; try done. unfold after_check. rewrite Hv.
    destruct (env_fault E OpExists p); [by left|].
    destruct (env_fault E OpUnlink p); [by left|]. right. cbn.
    apply lookup_delete_eq.
Qed.

(** ** What a download leaves alone *)

Lemma grows_by_none {A} (P : A -> Prop) (l : list A) :
  exists fs, l = (l ++ fs)%list /\ (length fs <= 1)%nat /\ Forall P fs.
Proof. exists []. rewrite app_nil_r. split_and!; [done | cbn; lia | constructor]. Qed.

Lemma grows_by_one {A} (P : A -> Prop) (l : list A) (x : A) :
  P x -> exists fs, (l ++ [x])%list = (l ++ fs)%list /\ (length fs <= 1)%nat /\ Forall P fs.
Proof. intros Hx. exists [x]. split_and!; [done | cbn; lia | by repeat constructor]. Qed.

(** X5.  A call of [download_file] or of [download_file_advanced] changes no
    file but its destination and no entry of the success map but the one of
    its destination, and it adds at most one entry to the failure list,
    which carries the URL and the destination of the call. *)
Theorem download_touches_only_its_destination (E : env) (url p book : string) (link : Z) :
  (forall (o o' : Direct.self) (w w' : world) (r : result bool),
      Direct.download_file E url p book link (o, w) = (r, (o', w')) ->
      (forall q, q <> p -> files w' !! q = files w !! q)
      /\ (forall q, q <> p ->
            Direct.downloaded_files o' !! q = Direct.downloaded_files o !! q)
      /\ exists fs,
           Direct.failed_downloads o' = (Direct.failed_downloads o ++ fs)%list
           /\ (length fs <= 1)%nat
           /\ Forall (fun f => fail_file_path f = p /\ fail_url f = url) fs)
  /\ (forall (o o' : Retry.self) (w w' : world) (r : result bool),
      Retry.download_file_advanced E url p book link (o, w) = (r, (o', w')) ->
      (forall q, q <> p -> files w' !! q = files w !! q)
      /\ (forall q, q <> p ->
            Retry.newly_downloaded o' !! q = Retry.newly_downloaded o !! q)
      /\ exists fs,
           Retry.still_failed o' = (Retry.still_failed o ++ fs)%list
           /\ (length fs <= 1)%nat
           /\ Forall (fun f => fail_file_path f = p /\ fail_url f = url) fs).
Proof.
  split.
  - intros o o' w w' r H.
    destruct (env_fault E OpExists p) eqn:Hex.
    { rewrite direct_download_file_raises in H by done. injection H as <- <- <-.
      split_and!; try done. apply grows_by_none. }
    apply direct_download_file_inv in H as (_ & _ & Hq & b & -> & Hres); [|done].
    split; [done|]. destruct b.
    + destruct Hres as ((info & [-> | ->]) & _); cbn.
      all: split; [by intros q Hne; rewrite lookup_insert_ne|].
      all: apply grows_by_none.
    + destruct Hres as (_ & Hle & Hgt & _).
      destruct (Z.le_gt_cases (Direct.retry_count o) 0) as [Hrc|Hrc].
      * rewrite (Hle Hrc). split; [done|]. apply grows_by_none.
      * destruct (Hgt Hrc) as (e & ->). cbn. split; [done|].
        by apply grows_by_one.
  - intros o o' w w' r H.
    apply retry_download_file_advanced_inv in H as (_ & _ & Hq & b & -> & Hres).
    split; [done|]. destruct b.
    + destruct Hres as ((info & ->) & _); cbn.
      split; [by intros q Hne; rewrite lookup_insert_ne|].
      apply grows_by_none.
    + destruct Hres as (Hle & Hgt & _).
      destruct (Z.le_gt_cases (Retry.retry_count o) 0) as [Hrc|Hrc].
      * rewrite (Hle Hrc). split; [done|]. apply grows_by_none.
      * destruct (Hgt Hrc) as (e & ->). cbn. split; [done|].
        by apply grows_by_one.
Qed.

(** ** The size floor of the download and the one of the check *)

Lemma startswith_take (pre data : bytes) :
  startswith pre data = true -> take (length pre) data = pre.
Proof.
  revert data. induction pre as [|x pre IH]; intros [|y data] H; cbn in *; try done.
  apply andb_true_iff in H as [Hxy H]. apply Byte.byte_dec_bl in Hxy as ->.
  by rewrite IH.
Qed.

(** X6.  The download accepts a file of 1000 bytes and the existing-file
    check does not: after [download_file_advanced] reports success, with a
    destination that can be examined, opened and read, the file passes the
    existing-file check exactly when it does not have 1000 bytes.  The next
    run of the main script deletes such a file and downloads it again. *)
Theorem floor_of_download_and_of_check (E : env) (url p book : string) (link : Z)
    (o o' : Retry.self) (w w' : world) :
  env_fault E OpExists p = false ->
  env_fault E OpOpenRead p = false ->
  env_fault E OpRead p = false ->
  Retry.download_file_advanced E url p book link (o, w) = (Ret true, (o', w')) ->
  exists data,
    files w' !! p = Some data
    /\ 1000 <= size_of data
    /\ (validates E w' p = false <-> size_of data = 1000).
Proof.
  intros Hex Ho Hr H.
  unfold Retry.download_file_advanced in H. rewrite bind_get_self in H.
  destruct (Z.le_gt_cases (Retry.retry_count o) 0) as [Hrc|Hrc].
  { assert (Z.to_nat (Retry.retry_count o) = 0%nat) as Hz by lia.
    rewrite Hz in H. cbn in H. done. }
  apply retry_attempts_loop_inv in H as (_ & _ & _ & b & [= <-] & Hres); [|cbn; lia].
  destruct Hres as (_ & Hs & data & Hf & Hsz & Hm).
  exists data. split_and!; try done.
  unfold validates. rewrite Hf, Hex, Ho, Hr, Hs. cbn [negb andb].
  apply (startswith_take pdf_magic) in Hm. cbn [length pdf_magic] in Hm.
  replace (bytes_eqb (take 4 data) pdf_magic) with true
    by (symmetry; by apply bytes_eqb_eq).
  cbn [andb]. rewrite Z.ltb_ge. lia.
Qed.

Lemma floor_of_download_and_of_check_witness :
  let res := Retry.download_file_advanced Case.kb Sample.url Sample.dest "book-A" 1
               (Retry.init 2 5, Sample.empty_world) in
  env_fault Case.kb OpExists Sample.dest = false
  /\ env_fault Case.kb OpOpenRead Sample.dest = false
  /\ env_fault Case.kb OpRead Sample.dest = false
  /\ fst res = Ret true
  /\ exists data,
       files (snd (snd res)) !! Sample.dest = Some data
       /\ 1000 <= size_of data
       /\ (validates Case.kb (snd (snd res)) Sample.dest = false <-> size_of data = 1000).
Proof.
  split_and!; [reflexivity | reflexivity | reflexivity | by vm_compute |].
  apply (floor_of_download_and_of_check Case.kb Sample.url Sample.dest "book-A" 1
           (Retry.init 2 5)
           (fst (snd (Retry.download_file_advanced Case.kb Sample.url Sample.dest
                        "book-A" 1 (Retry.init 2 5, Sample.empty_world))))
           Sample.empty_world); [reflexivity | reflexivity | reflexivity |].
  vm_compute. reflexivity.
Defined.

(** ** The retry-only run at its edges *)

(** X7.  Without an [index.json] the retry-only run retries nothing, sends
    no request and then raises when it comes to update the index: the call
    of [run] ends with the error of opening the file, in the state it
    started from. *)
Theorem retry_run_without_index (E : env) (o : Retry.self) (w : world) :
  index_json w = None ->
  Retry.run E (o, w) = (Raise (OSError OpOpenRead "index.json"), (o, w)).
Proof.
  intros Hix. unfold Retry.run, Retry.retry_failed_downloads, Retry.load_previous_results.
  unfold bind at 1 2. rewrite bind_get_world, Hix. cbn [ret].
  unfold Retry.update_index_json. by rewrite bind_get_world, Hix.
Qed.

Lemma retry_run_without_index_witness :
  index_json Sample.empty_world = None
  /\ Retry.run Sample.good (Retry.init 2 5, Sample.empty_world)
     = (Raise (OSError OpOpenRead "index.json"), (Retry.init 2 5, Sample.empty_world)).
Proof.
  assert (H : index_json Sample.empty_world = None) by reflexivity.
  split; [exact H|].
  exact (retry_run_without_index Sample.good (Retry.init 2 5) Sample.empty_world H).
Defined.

Lemma retry_run_pool_no_budget (E : env) :
  forall (tasks : list download) (o : Retry.self) (w : world),
  Retry.retry_count o <= 0 ->
  Retry.run_pool E tasks (o, w) = (Ret tt, (o, w)).
Proof.
  induction tasks as [|d ds IH]; intros o w Hrc; [done|].
  cbn [Retry.run_pool]. unfold bind at 1, catch. unfold bind at 1.
  unfold Retry.download_file_advanced. rewrite bind_get_self.
  replace (Z.to_nat (Retry.retry_count o)) with 0%nat by lia.
  cbn [seq]. unfold Retry.attempts_loop, ret. by apply IH.
Qed.

(** X8.  With an attempt budget of zero or less the retry-only run attempts
    nothing and sends no request, and still rewrites the index with an empty
    failure list: every failed entry of the ledger is dropped, without
    having become a successful one. *)
Theorem zero_budget_drops_failed_entries (E : env) (data : index_data)
    (max_workers retry_count : Z) (w : world) :
  index_json w = Some data ->
  0 < max_workers ->
  retry_count <= 0 ->
  exists data' w',
    Retry.run E (Retry.init max_workers retry_count, w)
    = (Ret data', (Retry.init max_workers retry_count, w'))
    /\ index_json w' = Some data'
    /\ ix_failed_downloads data' = []
    /\ ix_downloaded_files data' = ix_downloaded_files data
    /\ trace w' = trace w
    /\ files w' = files w.
Proof.
  intros Hix Hmw Hrc.
  assert (Hrun : Retry.retry_failed_downloads E (Retry.init max_workers retry_count, w)
                 = (Ret tt, (Retry.init max_workers retry_count, w))).
  { unfold Retry.retry_failed_downloads, Retry.load_previous_results.
    unfold bind at 1. rewrite bind_get_world, Hix. cbn [ret].
    destruct (ix_failed_downloads data) as [|f fs]; [done|].
    rewrite bind_get_self. cbn [Retry.init Retry.max_workers].
    destruct (max_workers <=? 0) eqn:Hle; [apply Z.leb_le in Hle; lia|].
    by apply retry_run_pool_no_budget. }
  eexists _, _. split_and!.
  - unfold Retry.run, bind. rewrite Hrun.
    unfold Retry.update_index_json. rewrite bind_get_world, Hix.
    rewrite bind_get_self. unfold bind at 1, now. rewrite bind_get_world.
    cbn [ret]. rewrite bind_set_world. unfold ret. reflexivity.
  - done.
  - done.
  - cbn. by rewrite (left_id_L ∅ (∪)).
  - done.
  - done.
Qed.

Lemma zero_budget_drops_failed_entries_witness :
  let failed := [Sample.failed_entry Sample.dest] in
  index_json (Sample.ledger_world failed) = Some (Sample.ledger failed)
  /\ 0 < 2
  /\ 0 <= 0
  /\ exists data' w',
       Retry.run Sample.good (Retry.init 2 0, Sample.ledger_world failed)
       = (Ret data', (Retry.init 2 0, w'))
       /\ ix_failed_downloads data' = []
       /\ ix_downloaded_files data' = ix_downloaded_files (Sample.ledger failed).
Proof.
  set (failed := [Sample.failed_entry Sample.dest]).
  assert (H1 : index_json (Sample.ledger_world failed) = Some (Sample.ledger failed))
    by reflexivity.
  assert (H2 : 0 < 2) by lia.
  assert (H3 : 0 <= 0) by lia.
  split_and!; [exact H1 | exact H2 | exact H3 |].
  destruct (zero_budget_drops_failed_entries Sample.good (Sample.ledger failed) 2 0
              (Sample.ledger_world failed) H1 H2 H3)
    as (data' & w' & Hrun & _ & Hf & Hd & _).
  exists data', w'. by split_and!.
Defined.

(** ** Requests sent and bytes written *)

Lemma requests_log_get (u : string) (w : world) :
  requests (log (EvGet u) w) = S (requests w).
Proof. unfold requests. cbn. rewrite gets_of_app, length_app. cbn. lia. Qed.

Lemma requests_log_attempt (k n : Z) (w : world) :
  requests (log (EvAttempt k n) w) = requests w.
Proof. unfold requests. cbn. rewrite gets_of_app, length_app. cbn. lia. Qed.

Lemma requests_log_sleep (t : Q) (w : world) :
  requests (log (EvSleep t) w) = requests w.
Proof. unfold requests. cbn. rewrite gets_of_app, length_app. cbn. lia. Qed.

Lemma requests_same_trace (w w' : world) :
  trace w' = trace w -> requests w' = requests w.
Proof. unfold requests. by intros ->. Qed.

Lemma session_get_inv (E : env) {Obj} (u : string) (o o' : Obj) (w w' : world)
    (r : result response) :
  session_get E u (o, w) = (r, (o', w')) ->
  o' = o /\ w' = log (EvGet u) w.
Proof.
  unfold session_get. rewrite bind_get_world, bind_set_world.
  unfold ret, raise. destruct (env_reply E _ u); by intros [= <- <- <-].
Qed.

Lemma retry_fetch_requests (E : env) (du : string) (gid : option string)
    (o o' : Retry.self) (w w' : world) (r : result response) :
  Retry.fetch E du gid (o, w) = (r, (o', w')) ->
  (requests w' <= requests w + 2)%nat.
Proof.
  unfold Retry.fetch. intros H.
  bind_cases H as resp [o1 w1];
    apply session_get_inv in Hstep as (-> & ->).
  2: { rewrite requests_log_get. lia. }
  assert (Hend : forall resp0 : response,
             @ret Retry.self _ resp0 (o, log (EvGet du) w) = (r, (o', w')) ->
             (requests w' <= requests w + 2)%nat).
  { unfold ret. intros resp0 [= <- <- <-]. rewrite requests_log_get. lia. }
  destruct (truthy gid) as [g|]; [|by eapply Hend].
  destruct (status_code resp =? 200); [|by eapply Hend].
  destruct (Str.contains "text/html" _); [|by eapply Hend].
  bind_cases H as [content resp1] [o1 w1].
  2: { unfold response_text, raise, ret in Hstep.
       destruct (broken resp); simplify_eq. rewrite requests_log_get. lia. }
  assert (o1 = o /\ w1 = log (EvGet du) w) as (-> & ->).
  { unfold response_text, raise, ret in Hstep. destruct (broken resp); by simplify_eq. }
  destruct (_ || _); [|by eapply Hend].
  destruct (first_match Retry.confirm_patterns content).
  { apply session_get_inv in H as (-> & ->). rewrite !requests_log_get. lia. }
  destruct (Rx.search Retry.uuid_pattern content); [|by eapply Hend].
  apply session_get_inv in H as (-> & ->). rewrite !requests_log_get. lia.
Qed.


Lemma direct_fetch_requests (E : env) (du : string) (fid : option string)
    (o o' : Direct.self) (w w' : world) (r : result response) :
  Direct.fetch E du fid (o, w) = (r, (o', w')) ->
  (requests w' <= requests w + 2)%nat.
Proof.
  unfold Direct.fetch. intros H.
  bind_cases H as resp [o1 w1];
    apply session_get_inv in Hstep as (-> & ->).
  2: { rewrite requests_log_get. lia. }
  assert (Hend : forall x : result response,
             (x, (o, log (EvGet du) w)) = (r, (o', w')) ->
             (requests w' <= requests w + 2)%nat).
  { intros x [= <- <- <-]. rewrite requests_log_get. lia. }
  destruct (_ && _); [|by eapply Hend].
  destruct (Str.contains "text/html" _); [|by eapply Hend].
  bind_cases H as [content resp1] [o1 w1].
  2: { unfold response_text, raise, ret in Hstep.
       destruct (broken resp); simplify_eq. rewrite requests_log_get. lia. }
  assert (o1 = o /\ w1 = log (EvGet du) w) as (-> & ->).
  { unfold response_text, raise, ret in Hstep. destruct (broken resp); by simplify_eq. }
  destruct (Str.contains "confirm=" content); [|by eapply Hend].
  destruct (Rx.search Direct.confirm_pattern content); [|by eapply Hend].
  destruct fid; [|by eapply Hend].
  apply session_get_inv in H as (-> & ->). rewrite !requests_log_get. lia.
Qed.

Lemma kept_or_signed_refl (E : env) (p : string) (w : world) : kept_or_signed E p w w.
Proof. by left. Qed.

Lemma kept_or_signed_trans (E : env) (p : string) (w1 w2 w3 : world) :
  kept_or_signed E p w1 w2 -> kept_or_signed E p w2 w3 -> kept_or_signed E p w1 w3.
Proof.
  intros H12 [H23|H23]; [|by right].
  destruct H12 as [H12|H12]; [left; congruence|].
  right. by rewrite H23.
Qed.

Lemma kept_or_signed_files (E : env) (p : string) (w w' : world) :
  files w' = files w -> kept_or_signed E p w w'.
Proof. intros H. left. by rewrite H. Qed.

Lemma startswith_prefix (pre data : bytes) :
  startswith pre data = true <-> pre `prefix_of` data.
Proof.
  split.
  - revert data. induction pre as [|x pre IH]; intros [|y data] H; cbn in *;
      try done; try apply prefix_nil.
    apply andb_true_iff in H as [Hxy H]. apply Byte.byte_dec_bl in Hxy as ->.
    by apply prefix_cons, IH.
  - intros [k ->]. apply startswith_app, startswith_refl.
Qed.

(** The first bytes of a body that starts with the signature start with
    the signature themselves, or are the first bytes of the signature. *)
Lemma prefix_signed (data body : bytes) :
  data `prefix_of` body -> startswith pdf_magic body = true ->
  startswith pdf_magic data = true \/ data `prefix_of` pdf_magic.
Proof.
  intros Hd Hb%startswith_prefix.
  destruct (prefix_weak_total _ _ _ Hd Hb) as [H|H]; [by right|].
  left. by apply startswith_prefix.
Qed.

(** [save] of the retry script leaves the destination as it was or with
    bytes that start with the signature. *)
Lemma retry_save_signed (E : env) (p : string) (resp : response)
    (o o' : Retry.self) (w w' : world) (r : result bool) :
  Retry.save E p resp (o, w) = (r, (o', w')) -> kept_or_signed E p w w'.
Proof.
  unfold Retry.save. intros H.
  bind_cases H as [] [o1 w1].
  2: { rewrite raise_for_status_eq in Hstep.
       destruct (_ && _); simplify_eq. by left. }
  rewrite raise_for_status_eq in Hstep.
  destruct (_ && _); [done|]. injection Hstep as <- <-.
  bind_cases H as [c rest] [o1 w1].
  2: { unfold catch, next_chunk, raise, ret in Hstep.
       destruct (chunks resp); [destruct (broken resp)|]; simplify_eq; by left. }
  assert (o1 = o /\ w1 = w) as (-> & ->).
  { unfold catch, next_chunk, raise, ret in Hstep.
    destruct (chunks resp) eqn:Hc; [destruct (broken resp)|]; by simplify_eq. }
  clear Hstep.
  destruct (startswith pdf_magic c) eqn:Hm; cbn [negb] in H.
  2: { unfold raise in H. destruct (_ || _); simplify_eq; by left. }
  rewrite written_then in H.
  assert (Hbody : startswith pdf_magic (concat (c :: chunks rest)) = true).
  { cbn [concat]. by apply startswith_app. }
  assert (Hsigned : kept_or_signed E p w (set_file p (concat (c :: chunks rest)) w)).
  { right. eexists. split; [apply lookup_insert_eq | by left]. }
  bind_cases H as [] [o1 w1].
  2: { apply written_inv in Hstep
         as (-> & [(-> & _)|[(-> & _)|(n & sent & Hf & Hpre & Hlen & -> & _)]]);
         [by left | done |].
       right. exists sent. split; [apply lookup_insert_eq|].
       destruct (prefix_signed sent _ Hpre Hbody) as [Hs|Hs]; [by left|].
       right. split; [done | by rewrite Hlen]. }
  apply written_inv in Hstep
    as (-> & [(-> & e & ?)|[(-> & _)|(n & sent & _ & _ & _ & _ & ?)]]);
    [done | | done].
  unfold bind in H. rewrite stat_size_eq in H.
  destruct (env_fault E OpStat p); [by injection H as <- <- <-|].
  cbn in H. rewrite lookup_insert_eq in H.
  destruct (_ <? 1000); unfold raise, ret in H; by injection H as <- <- <-.
Qed.

Lemma retry_attempt_download_trail (E : env) (du p : string) (gid : option string)
    (o o' : Retry.self) (w w' : world) (r : result bool) :
  Retry._attempt_download E du p gid (o, w) = (r, (o', w')) ->
  (requests w' <= requests w + 2)%nat /\ kept_or_signed E p w w'.
Proof.
  unfold Retry._attempt_download. intros H.
  bind_cases H as [] [o1 w1].
  2: { unfold mkdir_parent in Hstep. rewrite fault_eq in Hstep.
       destruct (env_fault E OpMkdir p); simplify_eq.
       split; [lia | apply kept_or_signed_refl]. }
  unfold mkdir_parent in Hstep. rewrite fault_eq in Hstep.
  destruct (env_fault E OpMkdir p); [done|]. injection Hstep as <- <-.
  bind_cases H as resp [o1 w1].
  2: { pose proof (retry_fetch_requests _ _ _ _ _ _ _ _ Hstep) as Hn.
       apply retry_fetch_inv in Hstep as (-> & (Hf & _) & _).
       split; [done | by apply kept_or_signed_files]. }
  pose proof (retry_fetch_requests _ _ _ _ _ _ _ _ Hstep) as Hn.
  apply retry_fetch_inv in Hstep as (-> & (Hf & _) & _).
  pose proof (retry_save_signed _ _ _ _ _ _ _ _ H) as Hsig.
  apply retry_save_inv in H as (_ & Ht & _).
  split.
  - rewrite (requests_same_trace _ _ Ht). done.
  - eapply kept_or_signed_trans; [by apply kept_or_signed_files | done].
Qed.

Lemma retry_try_methods_cons (E : env) (u : string) (urls : list string)
    (p fid : string) :
  Retry.try_methods E (u :: urls) p fid
  = (do r <- attempt_of (Retry._attempt_download E u p (Some fid));
     match r with
     | Ret true => ret true
     | Ret false => Retry.try_methods E urls p fid
     | Raise _ => Retry.try_methods E urls p fid
     end).
Proof. reflexivity. Qed.

Lemma retry_attempts_loop_cons (E : env) (url p book : string) (link : Z)
    (k : nat) (later : list nat) :
  Retry.attempts_loop E url p book link (k :: later)
  = (do r <- attempt_of (Retry.attempt_body E url p book link k);
     match r with
     | Ret _ => ret true
     | Raise e =>
         do o <- get_self;
         if Z.of_nat k =? Retry.retry_count o - 1 then
           set_self (Retry.append_failed
             (Retry.failed_info url p book link e (Retry.retry_count o))) >>
           ret false
         else
           sleep (Retry.wait_time k) >>
           Retry.attempts_loop E url p book link later
     end).
Proof. reflexivity. Qed.

Lemma retry_try_methods_trail (E : env) (p fid : string) :
  forall (urls : list string) (o o' : Retry.self) (w w' : world) (r : result bool),
  Retry.try_methods E urls p fid (o, w) = (r, (o', w')) ->
  (requests w' <= requests w + 2 * length urls)%nat /\ kept_or_signed E p w w'.
Proof.
  induction urls as [|u urls IH]; intros o o' w w' r H.
  - injection H as <- <- <-.
    split; [lia | apply kept_or_signed_refl].
  - rewrite retry_try_methods_cons in H. unfold bind at 1 in H. unfold attempt_of in H.
    destruct (Retry._attempt_download E u p (Some fid) (o, w)) as [r1 [o1 w1]] eqn:Hd.
    apply retry_attempt_download_trail in Hd as (Hn & Hsig).
    cbn [length].
    destruct r1 as [[|]|e].
    + unfold ret in H. injection H as <- <- <-. split; [lia | done].
    + apply IH in H as (Hn2 & Hsig2).
      split; [lia | by eapply kept_or_signed_trans].
    + apply IH in H as (Hn2 & Hsig2).
      split; [lia | by eapply kept_or_signed_trans].
Qed.

Lemma retry_download_by_domain_trail (E : env) (url p : string)
    (o o' : Retry.self) (w w' : world) (r : result unit) :
  Retry.download_by_domain E url p (o, w) = (r, (o', w')) ->
  (requests w' <= requests w + 8)%nat /\ kept_or_signed E p w w'.
Proof.
  unfold Retry.download_by_domain. intros H.
  destruct (Str.contains "drive.google.com" url).
  - destruct (truthy (extract_google_drive_id url)) as [fid|].
    2: { unfold raise in H. injection H as <- <- <-.
         split; [lia | apply kept_or_signed_refl]. }
    unfold bind in H.
    destruct (Retry.try_methods E (Retry.download_urls fid) p fid (o, w))
      as [r1 [o1 w1]] eqn:Ht.
    apply retry_try_methods_trail in Ht as (Hn & Hsig).
    change (length (Retry.download_urls fid)) with 4%nat in Hn.
    assert (w' = w1) as ->.
    { destruct r1 as [[|]|e]; unfold raise, ret in H; cbn in H; by simplify_eq. }
    split; [lia | done].
  - destruct (Str.contains "drive.egovcloud.gov.bd" url);
      unfold bind in H;
      match type of H with
      | context [Retry._attempt_download E ?u ?q None ?st] =>
          destruct (Retry._attempt_download E u q None st) as [r1 [o1 w1]] eqn:Ht
      end;
      apply retry_attempt_download_trail in Ht as (Hn & Hsig);
      (assert (w' = w1) as ->
         by (destruct r1 as [[|]|e]; unfold raise, ret in H; cbn in H; by simplify_eq));
      (split; [lia | done]).
Qed.

Lemma retry_attempt_body_trail (E : env) (url p book : string) (link : Z) (k : nat)
    (o o' : Retry.self) (w w' : world) (r : result unit) :
  Retry.attempt_body E url p book link k (o, w) = (r, (o', w')) ->
  (requests w' <= requests w + 8)%nat
  /\ kept_or_signed E p w w'
  /\ match r with
     | Ret _ =>
         exists data t,
           files w' !! p = Some data
           /\ o' = Retry.set_downloaded p
                     (Retry.new_info url book link (size_of data) t (Z.of_nat k + 1)) o
     | Raise _ => o' = o
     end.
Proof.
  unfold Retry.attempt_body. intros H.
  rewrite bind_get_self, bind_set_world in H.
  pose proof (requests_log_attempt (Z.of_nat k + 1) (Retry.retry_count o) w) as Hn0.
  assert (Hs0 : kept_or_signed E p w (log (EvAttempt (Z.of_nat k + 1) (Retry.retry_count o)) w))
    by (by left).
  revert Hn0 Hs0 H.
  generalize (log (EvAttempt (Z.of_nat k + 1) (Retry.retry_count o)) w).
  intros w0 Hn0 Hs0 H.
  bind_cases H as [] [o1 w1].
  2: { pose proof (retry_download_by_domain_trail _ _ _ _ _ _ _ _ Hstep) as (Hn & Hsig).
       apply retry_download_by_domain_inv in Hstep as (-> & _).
       split_and!; [lia | by eapply kept_or_signed_trans | done]. }
  pose proof (retry_download_by_domain_trail _ _ _ _ _ _ _ _ Hstep) as (Hn & Hsig).
  apply retry_download_by_domain_inv in Hstep
    as (-> & _ & _ & _ & _ & _ & Hstat & data & Hd & _).
  rewrite (retry_record_success_eq E url p book link k o w1 data Hstat Hd) in H.
  injection H as <- <- <-.
  split_and!; [lia | by eapply kept_or_signed_trans | eauto].
Qed.

Lemma retry_attempts_loop_trail (E : env) (url p book : string) (link : Z) :
  forall (n k : nat) (o o' : Retry.self) (w w' : world) (r : result bool),
  Retry.attempts_loop E url p book link (seq k n) (o, w) = (r, (o', w')) ->
  (requests w' <= requests w + 8 * n)%nat
  /\ kept_or_signed E p w w'
  /\ (r = Ret true ->
      exists data t j,
        (k <= j < k + n)%nat
        /\ files w' !! p = Some data
        /\ o' = Retry.set_downloaded p
                  (Retry.new_info url book link (size_of data) t (Z.of_nat j + 1)) o).
Proof.
  induction n as [|n IH]; intros k o o' w w' r H.
  - injection H as <- <- <-.
    split_and!; [lia | apply kept_or_signed_refl | done].
  - cbn [seq] in H. rewrite retry_attempts_loop_cons in H.
    unfold bind at 1 in H. unfold attempt_of in H.
    destruct (Retry.attempt_body E url p book link k (o, w)) as [r1 [o1 w1]] eqn:Hb.
    apply retry_attempt_body_trail in Hb as (Hn & Hsig & Hres).
    destruct r1 as [[]|e].
    + unfold ret in H. injection H as <- <- <-.
      split_and!; [lia | done |]. intros _.
      destruct Hres as (data & t & Hd & ->). exists data, t, k.
      split_and!; try done; lia.
    + subst o1. rewrite bind_get_self in H.
      destruct (Z.of_nat k =? Retry.retry_count o - 1).
      * rewrite bind_set_self in H. unfold ret in H. injection H as <- <- <-.
        split_and!; [lia | done | done].
      * unfold sleep in H. rewrite bind_set_world in H.
        apply IH in H as (Hn2 & Hsig2 & Hres2).
        rewrite requests_log_sleep in Hn2.
        split_and!; [lia | |].
        -- eapply kept_or_signed_trans; [exact Hsig|].
           destruct Hsig2 as [Hk|Hk]; [by left | by right].
        -- intros Hr. destruct (Hres2 Hr) as (data & t & j & Hj & Hd & ->).
           exists data, t, j. split_and!; try done; lia.
Qed.


Lemma direct_attempt_body_trail (E : env) (url p book : string) (link : Z) (k : nat)
    (o o' : Direct.self) (w w' : world) (r : result unit) :
  Direct.attempt_body E url p book link k (o, w) = (r, (o', w')) ->
  (requests w' <= requests w + 2)%nat
  /\ match r with
     | Ret _ =>
         exists data t,
           files w' !! p = Some data
           /\ o' = Direct.set_downloaded p
                     (Direct.new_info url book link (size_of data) t (Z.of_nat k + 1))
                     (Direct.incr_newly o)
     | Raise _ => o' = o
     end.
Proof.
  unfold Direct.attempt_body. intros H.
  rewrite bind_get_self, bind_set_world in H.
  pose proof (requests_log_attempt (Z.of_nat k + 1) (Direct.retry_count o) w) as Hn0.
  revert Hn0 H.
  generalize (log (EvAttempt (Z.of_nat k + 1) (Direct.retry_count o)) w).
  intros w0 Hn0 H.
  bind_cases H as [du fid] [o1 w1].
  2: { apply direct_resolve_inv in Hstep as (-> & ->). split; [lia | done]. }
  apply direct_resolve_inv in Hstep as (-> & ->).
  bind_cases H as [] [o1 w1].
  2: { unfold mkdir_parent in Hstep. rewrite fault_eq in Hstep.
       destruct (env_fault E OpMkdir p); simplify_eq. split; [lia | done]. }
  unfold mkdir_parent in Hstep. rewrite fault_eq in Hstep.
  destruct (env_fault E OpMkdir p); [done|]. injection Hstep as <- <-.
  bind_cases H as resp [o1 w1].
  2: { pose proof (direct_fetch_requests _ _ _ _ _ _ _ _ Hstep) as Hn.
       apply direct_fetch_inv in Hstep as (-> & _). split; [lia | done]. }
  pose proof (direct_fetch_requests _ _ _ _ _ _ _ _ Hstep) as Hn.
  apply direct_fetch_inv in Hstep as (-> & _).
  bind_cases H as [] [o2 w2].
  2: { apply direct_save_inv in Hstep as (-> & Ht & _).
       rewrite (requests_same_trace _ _ Ht). split; [lia | done]. }
  apply direct_save_inv in Hstep as (-> & Ht & _ & _ & _ & Hstat & data & Hd & _).
  rewrite (direct_record_success_eq E url p book link k o w2 data Hstat Hd) in H.
  injection H as <- <- <-.
  rewrite (requests_same_trace _ _ Ht). split; [lia | eauto].
Qed.

Lemma direct_attempts_loop_trail (E : env) (url p book : string) (link : Z) :
  forall (n k : nat) (o o' : Direct.self) (w w' : world) (r : result bool),
  Direct.attempts_loop E url p book link (seq k n) (o, w) = (r, (o', w')) ->
  (requests w' <= requests w + 2 * n)%nat
  /\ (r = Ret true ->
      exists data t j,
        (k <= j < k + n)%nat
        /\ files w' !! p = Some data
        /\ o' = Direct.set_downloaded p
                  (Direct.new_info url book link (size_of data) t (Z.of_nat j + 1))
                  (Direct.incr_newly o)).
Proof.
  induction n as [|n IH]; intros k o o' w w' r H.
  - injection H as <- <- <-. split; [lia | done].
  - cbn [seq Direct.attempts_loop] in H.
    unfold bind at 1 in H. unfold attempt_of in H.
    destruct (Direct.attempt_body E url p book link k (o, w)) as [r1 [o1 w1]] eqn:Hb.
    apply direct_attempt_body_trail in Hb as (Hn & Hres).
    destruct r1 as [[]|e].
    + unfold ret in H. injection H as <- <- <-.
      split; [lia|]. intros _.
      destruct Hres as (data & t & Hd & ->). exists data, t, k.
      split_and!; try done; lia.
    + subst o1. rewrite bind_get_self in H.
      destruct (Z.of_nat k =? Direct.retry_count o - 1).
      * rewrite bind_set_self in H. unfold ret in H. injection H as <- <- <-.
        split; [lia | done].
      * unfold sleep in H. rewrite bind_set_world in H.
        apply IH in H as (Hn2 & Hres2).
        rewrite requests_log_sleep in Hn2.
        split; [lia|].
        intros Hr. destruct (Hres2 Hr) as (data & t & j & Hj & Hd & ->).
        exists data, t, j. split_and!; try done; lia.
Qed.

(** ** What the ledger says of a downloaded file *)

(** X9.  After [download_file] reports success, the entry of the success
    map under the destination describes the task and the file: the URL, the
    book name and the link number are the ones of the call, and the recorded
    size is the size of the file at the destination.  Over a valid file the
    entry has the status of an existing file and no attempt number, one more
    existing file is counted and nothing else has changed; otherwise the
    entry has the status of a new download, its attempt number lies between
    1 and the attempt budget, and one more new download is counted. *)
Theorem success_entry_describes_the_file (E : env) (url p book : string) (link : Z)
    (o o' : Direct.self) (w w' : world) :
  Direct.download_file E url p book link (o, w) = (Ret true, (o', w')) ->
  exists info data,
    Direct.downloaded_files o' !! p = Some info
    /\ files w' !! p = Some data
    /\ info_file_size info = size_of data
    /\ info_original_url info = url
    /\ info_book_name info = book
    /\ info_link_number info = link
    /\ if validates E w p then
         info_status info = Some "existing_file"
         /\ info_attempt info = None
         /\ w' = w
         /\ Direct.existing_files o' = Direct.existing_files o + 1
         /\ Direct.newly_downloaded o' = Direct.newly_downloaded o
       else
         info_status info = Some "newly_downloaded"
         /\ (exists k, info_attempt info = Some k /\ 1 <= k <= Direct.retry_count o)
         /\ Direct.existing_files o' = Direct.existing_files o
         /\ Direct.newly_downloaded o' = Direct.newly_downloaded o + 1.
Proof.
  intros H. pose proof (direct_download_file_returns _ _ _ _ _ _ _ _ _ H) as Hex.
  destruct (validates E w p) eqn:Hv.
  - destruct (validates_data E w p Hv) as (data & Hf & _).
    rewrite (direct_download_file_valid E url p book link o w data Hv Hf) in H.
    injection H as <- <-.
    eexists _, data. cbn. rewrite lookup_insert_eq. by split_and!.
  - rewrite direct_download_file_invalid in H by done.
    apply direct_attempts_loop_trail in H as (_ & Hres).
    destruct (Hres eq_refl) as (data & t & j & Hj & Hd & ->).
    eexists _, data. cbn. rewrite lookup_insert_eq. split_and!; try done.
    exists (Z.of_nat j + 1). split; [done | lia].
Qed.

Lemma success_entry_describes_the_file_witness :
  let res := Direct.download_file Sample.recovering Sample.url Sample.dest "book-A" 1
               (Direct.init 3 4, Sample.empty_world) in
  fst res = Ret true
  /\ exists info data,
       Direct.downloaded_files (fst (snd res)) !! Sample.dest = Some info
       /\ files (snd (snd res)) !! Sample.dest = Some data
       /\ info_file_size info = size_of data
       /\ info_attempt info = Some 3.
Proof.
  split; [by vm_compute|].
  destruct (success_entry_describes_the_file Sample.recovering Sample.url Sample.dest
              "book-A" 1 (Direct.init 3 4)
              (fst (snd (Direct.download_file Sample.recovering Sample.url Sample.dest
                           "book-A" 1 (Direct.init 3 4, Sample.empty_world))))
              Sample.empty_world
              (snd (snd (Direct.download_file Sample.recovering Sample.url Sample.dest
                           "book-A" 1 (Direct.init 3 4, Sample.empty_world)))))
    as (info & data & Hi & Hd & Hsz & _).
  { vm_compute. reflexivity. }
  exists info, data. split_and!; try done.
  vm_compute in Hi. injection Hi as <-. reflexivity.
Defined.

(** X10.  After [download_file_advanced] reports success, the entry of
    [newly_downloaded] under the destination carries the URL, the book name
    and the link number of the call and the size of the file at the
    destination; it has no status, its retry attempt number lies between 1
    and the attempt budget, and the list of failures is as before. *)
Theorem retry_entry_describes_the_file (E : env) (url p book : string) (link : Z)
    (o o' : Retry.self) (w w' : world) :
  Retry.download_file_advanced E url p book link (o, w) = (Ret true, (o', w')) ->
  exists info data,
    Retry.newly_downloaded o' !! p = Some info
    /\ files w' !! p = Some data
    /\ info_file_size info = size_of data
    /\ info_original_url info = url
    /\ info_book_name info = book
    /\ info_link_number info = link
    /\ info_status info = None
    /\ (exists k, info_retry_attempt info = Some k /\ 1 <= k <= Retry.retry_count o)
    /\ Retry.still_failed o' = Retry.still_failed o.
Proof.
  intros H. unfold Retry.download_file_advanced in H. rewrite bind_get_self in H.
  apply retry_attempts_loop_trail in H as (_ & _ & Hres).
  destruct (Hres eq_refl) as (data & t & j & Hj & Hd & ->).
  eexists _, data. cbn. rewrite lookup_insert_eq. split_and!; try done.
  exists (Z.of_nat j + 1). split; [done | lia].
Qed.

Lemma retry_entry_describes_the_file_witness :
  let res := Retry.download_file_advanced Sample.recovering Sample.url Sample.dest
               "book-A" 1 (Retry.init 2 5, Sample.empty_world) in
  fst res = Ret true
  /\ exists info data,
       Retry.newly_downloaded (fst (snd res)) !! Sample.dest = Some info
       /\ files (snd (snd res)) !! Sample.dest = Some data
       /\ info_file_size info = size_of data
       /\ info_retry_attempt info = Some 3.
Proof.
  split; [by vm_compute|].
  destruct (retry_entry_describes_the_file Sample.recovering Sample.url Sample.dest
              "book-A" 1 (Retry.init 2 5)
              (fst (snd (Retry.download_file_advanced Sample.recovering Sample.url
                           Sample.dest "book-A" 1 (Retry.init 2 5, Sample.empty_world))))
              Sample.empty_world
              (snd (snd (Retry.download_file_advanced Sample.recovering Sample.url
                           Sample.dest "book-A" 1 (Retry.init 2 5, Sample.empty_world)))))
    as (info & data & Hi & Hd & Hsz & _).
  { vm_compute. reflexivity. }
  exists info, data. split_and!; try done.
  vm_compute in Hi. injection Hi as <-. reflexivity.
Defined.

(** ** How many requests a task can cost *)

(** X11.  A call of [download_file] sends at most two requests for each
    attempt of its budget, and none over a valid file; a call of
    [download_file_advanced] sends at most eight for each attempt: four
    download URLs and, for each, one more request after a warning page. *)
Theorem requests_per_task (E : env) (url p book : string) (link : Z) :
  (forall (o o' : Direct.self) (w w' : world) (r : result bool),
      Direct.download_file E url p book link (o, w) = (r, (o', w')) ->
      (requests w' <= requests w + 2 * Z.to_nat (Direct.retry_count o))%nat
      /\ (validates E w p = true -> requests w' = requests w))
  /\ (forall (o o' : Retry.self) (w w' : world) (r : result bool),
      Retry.download_file_advanced E url p book link (o, w) = (r, (o', w')) ->
      (requests w' <= requests w + 8 * Z.to_nat (Retry.retry_count o))%nat).
Proof.
  split.
  - intros o o' w w' r H. destruct (validates E w p) eqn:Hv.
    + destruct (validates_data E w p Hv) as (data & Hf & _).
      rewrite (direct_download_file_valid E url p book link o w data Hv Hf) in H.
      injection H as <- <- <-. split; [lia | done].
    + destruct (env_fault E OpExists p) eqn:Hex.
      { rewrite direct_download_file_raises in H by done. injection H as <- <- <-.
        split; [lia | done]. }
      rewrite direct_download_file_invalid in H by done.
      apply direct_attempts_loop_trail in H as (Hn & _).
      destruct (after_check_invalid E w p Hv) as (_ & Ht & _).
      rewrite (requests_same_trace _ _ Ht) in Hn. split; [done | done].
  - intros o o' w w' r H.
    unfold Retry.download_file_advanced in H. rewrite bind_get_self in H.
    by apply retry_attempts_loop_trail in H as (Hn & _).
Qed.

(** ** What the retry script can leave at a destination *)

(** X12.  Whatever the transport and the file system do, a call of
    [download_file_advanced] leaves the destination as it found it, or
    holding bytes that start with the signature, or, when the write of one
    of the first four bytes is refused, holding the bytes of the signature
    written until then (none, when the first write is refused: the file was
    emptied when it was opened).  The first chunk is checked before the
    file is opened for writing, so no page of markup is ever put there. *)
Theorem retry_writes_only_signed_bytes (E : env) (url p book : string) (link : Z)
    (o o' : Retry.self) (w w' : world) (r : result bool) :
  Retry.download_file_advanced E url p book link (o, w) = (r, (o', w')) ->
  kept_or_signed E p w w'.
Proof.
  intros H. unfold Retry.download_file_advanced in H. rewrite bind_get_self in H.
  by apply retry_attempts_loop_trail in H as (_ & Hsig & _).
Qed.

Lemma retry_writes_only_signed_bytes_witness :
  let res := Retry.download_file_advanced Case.read_only Sample.url Sample.dest
               "book-A" 1 (Retry.init 2 1, Sample.junk_world) in
  fst res = Ret false
  /\ kept_or_signed Case.read_only Sample.dest Sample.junk_world (snd (snd res))
  /\ files (snd (snd res)) !! Sample.dest = Some [].
Proof.
  split_and!; [by vm_compute | | by vm_compute].
  apply (retry_writes_only_signed_bytes Case.read_only Sample.url Sample.dest "book-A" 1
           (Retry.init 2 1)
           (fst (snd (Retry.download_file_advanced Case.read_only Sample.url Sample.dest
                        "book-A" 1 (Retry.init 2 1, Sample.junk_world))))
           Sample.junk_world _ (Ret false)).
  vm_compute. reflexivity.
Defined.


(** ** The counters of the report *)

Lemma settled_fresh (o : Direct.self) (P : gset string) (p : string) :
  settled o P -> p ∉ P -> Direct.downloaded_files o !! p = None.
Proof.
  intros Hs Hp. specialize (Hs p). rewrite decide_False in Hs by done.
  unfold outcomes in Hs. destruct (Direct.downloaded_files o !! p); [|done].
  cbn in Hs. lia.
Qed.

Lemma tallied_existing (o : Direct.self) (n : nat) (p : string) (info : file_info) :
  Direct.downloaded_files o !! p = None ->
  tallied o n -> tallied (Direct.set_downloaded p info (Direct.incr_existing o)) (S n).
Proof.
  intros Hp (Hn & Hc). unfold tallied. cbn.
  rewrite map_size_insert_None by done. split; lia.
Qed.

Lemma tallied_newly (o : Direct.self) (n : nat) (p : string) (info : file_info) :
  Direct.downloaded_files o !! p = None ->
  tallied o n -> tallied (Direct.set_downloaded p info (Direct.incr_newly o)) (S n).
Proof.
  intros Hp (Hn & Hc). unfold tallied. cbn.
  rewrite map_size_insert_None by done. split; lia.
Qed.

Lemma tallied_failed (o : Direct.self) (n : nat) (f : failure) :
  tallied o n -> tallied (Direct.append_failed f o) (S n).
Proof.
  intros (Hn & Hc). unfold tallied. cbn. rewrite length_app. cbn. split; lia.
Qed.

Lemma direct_download_file_tallied (E : env) (url p book : string) (link : Z)
    (o o' : Direct.self) (w w' : world) (r : result bool) (n : nat) :
  env_fault E OpExists p = false ->
  0 < Direct.retry_count o ->
  Direct.download_file E url p book link (o, w) = (r, (o', w')) ->
  Direct.downloaded_files o !! p = None ->
  tallied o n -> tallied o' (S n).
Proof.
  intros Hex Hrc H Hp Ht.
  apply direct_download_file_inv in H as (_ & _ & _ & b & -> & Hres); [|done].
  destruct b.
  - destruct Hres as ((info & [-> | ->]) & _).
    + by apply tallied_newly.
    + by apply tallied_existing.
  - destruct Hres as (_ & _ & Hfail & _). destruct (Hfail Hrc) as (e & ->).
    by apply tallied_failed.
Qed.

Lemma direct_run_pool_tallied (E : env) :
  forall (tasks : list download) (o o' : Direct.self) (w w' : world)
         (r : result unit) (P : gset string) (n : nat),
  Forall (fun d => env_fault E OpExists (dl_file_path d) = false) tasks ->
  0 < Direct.retry_count o ->
  Direct.run_pool E tasks (o, w) = (r, (o', w')) ->
  settled o P ->
  NoDup (map dl_file_path tasks) ->
  (forall d, d ∈ tasks -> dl_file_path d ∉ P) ->
  tallied o n -> tallied o' (n + length tasks).
Proof.
  induction tasks as [|d ds IH]; intros o o' w w' r P n Hex Hrc H Hs Hnd Hfresh Ht.
  - cbn in H. unfold ret in H. injection H as <- <- <-.
    cbn. by rewrite Nat.add_0_r.
  - apply Forall_cons in Hex as [Hex0 Hex].
    cbn [Direct.run_pool] in H. unfold bind at 1, catch in H.
    unfold bind at 1 in H.
    destruct (Direct.download_file E (dl_url d) (dl_file_path d) (dl_book_name d)
                (dl_link_number d) (o, w)) as [r1 [o1 w1]] eqn:Hd.
    assert (Hp : dl_file_path d ∉ P) by (apply Hfresh; by left).
    pose proof (direct_download_file_tallied E _ _ _ _ _ _ _ _ _ n Hex0 Hrc Hd
                  (settled_fresh o P _ Hs Hp) Ht) as Ht1.
    apply (direct_download_file_settles E _ _ _ _ _ _ _ _ _ P Hex0 Hrc) in Hd
      as ((b & ->) & Hrc1 & _ & Hstep).
    cbn [ret] in H.
    cbn [map] in Hnd. apply NoDup_cons in Hnd as [Hd Hnd].
    cbn [length]. replace (n + S (length ds))%nat with (S n + length ds)%nat by lia.
    apply (IH _ _ _ _ _ ({[dl_file_path d]} ∪ P) (S n)) in H; try done; [lia| |].
    + by apply Hstep.
    + intros d' Hd'. apply not_elem_of_union. split.
      * apply not_elem_of_singleton. intros Heq. apply Hd. rewrite <- Heq.
        apply list_elem_of_fmap. eauto.
      * apply Hfresh. by right.
Qed.

Lemma direct_check_all_tallied (E : env) :
  forall (ds : list download) (o o' : Direct.self) (w w' : world)
         (todo : list download) (P : gset string) (n : nat),
  Direct.check_all E ds (o, w) = (Ret todo, (o', w')) ->
  settled o P ->
  NoDup (map dl_file_path ds) ->
  (forall d, d ∈ ds -> dl_file_path d ∉ P) ->
  tallied o n ->
  (length todo <= length ds)%nat
  /\ tallied o' (n + length ds - length todo).
Proof.
  induction ds as [|d ds IH]; intros o o' w w' todo P n H Hs Hnd Hfresh Ht.
  - cbn in H. unfold ret in H. injection H as <- <- <-.
    cbn. split; [lia|]. by replace (n + 0 - 0)%nat with n by lia.
  - cbn [map] in Hnd. apply NoDup_cons in Hnd as [Hd Hnd].
    assert (Hp : dl_file_path d ∉ P) by (apply Hfresh; by left).
    cbn [Direct.check_all] in H. unfold bind at 1 in H.
    destruct (env_fault E OpExists (dl_file_path d)) eqn:Hex.
    { by rewrite check_existing_file_raises in H. }
    rewrite check_existing_file_ok in H by done.
    destruct (validates E w (dl_file_path d)) eqn:Hv.
    + destruct (validates_data E w _ Hv) as (data & Hf & Hst & _).
      unfold after_check in H. rewrite Hv in H.
      rewrite bind_set_self in H. unfold bind at 1 in H.
      rewrite stat_size_eq, Hst, Hf in H. rewrite bind_set_self in H.
      apply (IH _ _ _ _ _ ({[dl_file_path d]} ∪ P) (S n)) in H as (Hlen & Ht').
      * cbn [length]. split; [lia|].
        by replace (n + S (length ds) - length todo)%nat
            with (S n + length ds - length todo)%nat by lia.
      * apply (settled_step o _ P (dl_file_path d) Hs Hp).
        intros q. cbn. apply outcomes_set_downloaded.
        specialize (Hs (dl_file_path d)). by rewrite decide_False in Hs.
      * done.
      * intros d' Hd'. apply not_elem_of_union. split.
        -- apply not_elem_of_singleton. intros Heq. apply Hd. rewrite <- Heq.
           apply list_elem_of_fmap. eauto.
        -- apply Hfresh. by right.
      * apply tallied_existing; [|done]. by eapply settled_fresh.
    + unfold bind at 1 in H.
      destruct (Direct.check_all E ds (o, after_check E w (dl_file_path d)))
        as [r1 [o1 w1]] eqn:Hrest.
      destruct r1 as [rest|e]; [|done].
      unfold ret in H. injection H as <- <- <-.
      apply (IH _ _ _ _ _ P n) in Hrest as (Hlen & Ht'); try done.
      * cbn [length]. split; [lia|].
        by replace (n + S (length ds) - S (length rest))%nat
            with (n + length ds - length rest)%nat by lia.
      * intros d' Hd'. apply Hfresh. by right.
Qed.

(** X13.  After a completed run of the main script over a non-empty task
    list whose destination paths are pairwise distinct, with a positive
    attempt budget, the counters of the saved report add up: [total_found]
    is the number of tasks, the existing files and the new downloads that
    were counted are together the entries of the success map, and the
    successes and the failures are together the tasks. *)
Theorem report_counts_add_up (E : env) (ds : list download)
    (max_workers retry_count : Z) (w w' : world) (o' : Direct.self) :
  NoDup (map dl_file_path ds) ->
  0 < retry_count ->
  ds <> [] ->
  Direct.run E ds (Direct.init max_workers retry_count, w) = (Ret tt, (o', w')) ->
  exists rep,
    report_json w' = Some rep
    /\ rep_total_found rep = Z.of_nat (length ds)
    /\ rep_existing_files rep + rep_newly_downloaded rep = rep_total_successful rep
    /\ rep_total_successful rep + rep_total_failed rep = Z.of_nat (length ds)
    /\ rep_total_successful rep = Z.of_nat (size (rep_downloaded_files rep))
    /\ rep_total_failed rep = Z.of_nat (length (rep_failed_downloads rep)).
Proof.
  intros Hnd Hrc Hne H.
  assert (Hinit : settled (Direct.init max_workers retry_count) ∅).
  { intros q. unfold outcomes. cbn. by rewrite lookup_empty. }
  assert (Hzero : tallied (Direct.init max_workers retry_count) 0).
  { unfold tallied. cbn. by rewrite map_size_empty. }
  assert (Direct.run E ds (Direct.init max_workers retry_count, w)
          = (do _ <- Direct.download_all_pdfs E ds;
             do _ <- Direct.save_download_report; ret tt)
              (Direct.init max_workers retry_count, w)) as Hrun
    by (by destruct ds).
  rewrite Hrun in H. clear Hrun.
  bind_cases H as [] [o1 w1].
  unfold Direct.save_download_report in H.
  unfold bind at 1 in H. rewrite bind_get_self, bind_set_world in H.
  unfold ret in H. cbn in H. injection H as <- <-.
  assert (tallied o1 (length ds)) as (Hn & Hc).
  { unfold Direct.download_all_pdfs in Hstep.
    bind_cases Hstep as todo [o2 w2].
    pose proof (direct_check_all_tallied E _ _ _ _ _ _ ∅ 0%nat Hstep0 Hinit Hnd) as Hchk.
    destruct Hchk as (Hlen & Ht2); [intros d _; apply not_elem_of_empty | done |].
    destruct (direct_check_all_returns _ _ _ _ _ _ _ Hstep0) as [Hex Hex'].
    apply direct_check_all_settles in Hstep0 as (todo' & [= <-] & Hrc2 & Hmw2 & Hinv);
      [|done].
    destruct (Hinv ∅ Hinit Hnd) as (P' & Hs' & Hnd' & Hfresh' & Heq).
    { intros d _. apply not_elem_of_empty. }
    destruct todo as [|t todo].
    - unfold ret in Hstep. injection Hstep as <- <-.
      cbn in Ht2. by replace (length ds - 0)%nat with (length ds) in Ht2 by lia.
    - rewrite bind_get_self in Hstep.
      destruct (Direct.max_workers o2 <=? 0); [done|].
      cbn [Direct.init Direct.retry_count] in Hrc2.
      eapply (direct_run_pool_tallied E _ _ _ _ _ _ P') in Hstep; try done; [|lia].
      replace (length ds) with (0 + length ds - length (t :: todo) + length (t :: todo))%nat
        by lia.
      done. }
  eexists. split; [reflexivity|]. cbn. split_and!; try done; lia.
Qed.

Lemma report_counts_add_up_witness :
  let ds := [Sample.task] in
  NoDup (map dl_file_path ds)
  /\ 0 < 2
  /\ ds <> []
  /\ exists rep,
       report_json (snd (snd (Direct.run Sample.good ds
                                (Direct.init 3 2, Sample.empty_world)))) = Some rep
       /\ rep_total_found rep = 1
       /\ rep_existing_files rep + rep_newly_downloaded rep = rep_total_successful rep.
Proof.
  assert (H1 : NoDup (map dl_file_path [Sample.task])).
  { cbn. apply NoDup_cons. split; [by intros ?%elem_of_nil | constructor]. }
  assert (H2 : 0 < 2) by lia.
  assert (H3 : [Sample.task] <> []) by done.
  split_and!; [exact H1 | exact H2 | exact H3 |].
  destruct (report_counts_add_up Sample.good [Sample.task] 3 2 Sample.empty_world
              (snd (snd (Direct.run Sample.good [Sample.task]
                           (Direct.init 3 2, Sample.empty_world))))
              (fst (snd (Direct.run Sample.good [Sample.task]
                           (Direct.init 3 2, Sample.empty_world))))
              H1 H2 H3)
    as (rep & Hrep & Hfound & Hsum & _).
  { vm_compute. reflexivity. }
  exists rep. by split_and!.
Defined.


(** ** The retry-only run loses no task *)

Lemma entry_task_failed_info (d : download) (e : exn) (n : Z) :
  entry_task
    (Retry.failed_info (dl_url d) (dl_file_path d) (dl_book_name d) (dl_link_number d) e n)
  = d.
Proof. by destruct d. Qed.

Lemma retry_run_pool_keeps (E : env) :
  forall (tasks : list download) (o o' : Retry.self) (w w' : world) (r : result unit),
  0 < Retry.retry_count o ->
  Retry.run_pool E tasks (o, w) = (r, (o', w')) ->
  r = Ret tt
  /\ index_json w' = index_json w
  /\ Retry.retry_count o' = Retry.retry_count o
  /\ (forall q, is_Some (Retry.newly_downloaded o !! q) ->
                is_Some (Retry.newly_downloaded o' !! q))
  /\ exists fs,
       Retry.still_failed o' = (Retry.still_failed o ++ fs)%list
       /\ sublist (map entry_task fs) tasks
       /\ Forall (fun f => fail_retry_attempts f = Some (Retry.retry_count o)) fs
       /\ (forall d, d ∈ tasks ->
             is_Some (Retry.newly_downloaded o' !! dl_file_path d)
             \/ d ∈ map entry_task fs).
Proof.
  induction tasks as [|d ds IH]; intros o o' w w' r Hrc H.
  - cbn in H. unfold ret in H. injection H as <- <- <-.
    split_and!; try done. exists []. rewrite app_nil_r.
    split_and!; [done | constructor | constructor | by intros d ?%elem_of_nil].
  - cbn [Retry.run_pool] in H. unfold bind at 1, catch in H.
    unfold bind at 1 in H.
    destruct (Retry.download_file_advanced E (dl_url d) (dl_file_path d) (dl_book_name d)
                (dl_link_number d) (o, w)) as [r1 [o1 w1]] eqn:Hd.
    apply retry_download_file_advanced_inv in Hd as (Hi & _ & _ & b & -> & Hres).
    cbn [ret] in H.
    destruct b.
    + destruct Hres as ((info & ->) & _).
      apply IH in H as (-> & Hi2 & Hrc2 & Hkeep & fs & Hfs & Hsub & Hall & Hcov); [|done].
      cbn in Hfs, Hrc2, Hall.
      split_and!; try congruence.
      { intros q Hq. apply Hkeep. cbn.
        destruct (decide (q = dl_file_path d)) as [->|Hne].
        - rewrite lookup_insert_eq. by eexists.
        - by rewrite lookup_insert_ne. }
      exists fs. split_and!; try done.
      * by apply sublist_cons.
      * intros d' [->|Hd']%elem_of_cons; [|by apply Hcov].
        left. apply Hkeep. cbn. rewrite lookup_insert_eq. by eexists.
    + destruct Hres as (_ & Hfail & _). destruct (Hfail Hrc) as (e & ->).
      apply IH in H as (-> & Hi2 & Hrc2 & Hkeep & fs & Hfs & Hsub & Hall & Hcov); [|done].
      cbn in Hfs, Hrc2, Hall, Hkeep.
      split_and!; [done | congruence | done | exact Hkeep |].
      eexists (_ :: fs). split_and!.
      * rewrite Hfs, <- app_assoc. reflexivity.
      * cbn [map]. rewrite entry_task_failed_info. by apply sublist_skip.
      * constructor; [done | done].
      * intros d' [->|Hd']%elem_of_cons.
        -- right. cbn [map]. rewrite entry_task_failed_info. by left.
        -- destruct (Hcov d' Hd') as [?|?]; [by left|]. right. cbn [map]. by right.
Qed.

(** X14.  A completed retry-only run with a positive attempt budget loses
    no task: every failed entry of the old index has its destination (its
    path as [Path] spells it) among the keys of the new success map or its
    task, with that destination, among the new failed entries; the new
    failed entries record tasks of the old ones, none more often than the
    old index lists it, in whatever order, each marked with the attempt
    budget; and every key of the old success map is a key of the new
    one. *)
Theorem retry_run_loses_no_task (E : env) (data data' : index_data)
    (max_workers retry_count : Z) (w w' : world) (o' : Retry.self) :
  index_json w = Some data ->
  0 < retry_count ->
  Retry.run E (Retry.init max_workers retry_count, w) = (Ret data', (o', w')) ->
  (forall f, f ∈ ix_failed_downloads data ->
      is_Some (ix_downloaded_files data' !! Str.str_path (fail_file_path f))
      \/ Retry.retry_task f ∈ map entry_task (ix_failed_downloads data'))
  /\ map entry_task (ix_failed_downloads data')
     ⊆+ map Retry.retry_task (ix_failed_downloads data)
  /\ Forall (fun f => fail_retry_attempts f = Some retry_count) (ix_failed_downloads data')
  /\ (forall q, is_Some (ix_downloaded_files data !! q) ->
                is_Some (ix_downloaded_files data' !! q))
  /\ index_json w' = Some data'.
Proof.
  intros Hix Hrc H. unfold Retry.run in H.
  bind_cases H as [] [o1 w1].
  assert (Hpool : Retry.run_pool E (map Retry.retry_task (ix_failed_downloads data))
                    (Retry.init max_workers retry_count, w) = (Ret tt, (o1, w1))).
  { unfold Retry.retry_failed_downloads, Retry.load_previous_results in Hstep.
    unfold bind at 1 in Hstep. rewrite bind_get_world, Hix in Hstep. cbn [ret] in Hstep.
    destruct (ix_failed_downloads data) as [|f fs]; [done|].
    rewrite bind_get_self in Hstep.
    destruct (Retry.max_workers _ <=? 0); [done | exact Hstep]. }
  clear Hstep.
  apply retry_run_pool_keeps in Hpool
    as (_ & Hi & _ & _ & fs & Hfs & Hsub & Hall & Hcov); [|done].
  cbn in Hfs, Hall.
  unfold Retry.update_index_json in H. rewrite bind_get_world, Hi, Hix in H.
  rewrite bind_get_self in H. unfold bind at 1, now in H.
  rewrite bind_get_world in H. cbn [ret] in H. rewrite bind_set_world in H.
  unfold ret in H. injection H as <- <- <-.
  cbn. rewrite Hfs. split_and!; try done.
  - intros f Hf.
    destruct (Hcov (Retry.retry_task f)) as [Hin|Hin].
    + apply list_elem_of_fmap. eauto.
    + left. apply lookup_union_is_Some. by left.
    + by right.
  - by apply sublist_submseteq.
  - intros q Hq. apply lookup_union_is_Some. by right.
Qed.

Lemma retry_run_loses_no_task_witness :
  let failed := [Sample.failed_entry Sample.dest] in
  let res := Retry.run Sample.down (Retry.init 2 2, Sample.ledger_world failed) in
  index_json (Sample.ledger_world failed) = Some (Sample.ledger failed)
  /\ 0 < 2
  /\ exists data',
       fst res = Ret data'
       /\ map entry_task (ix_failed_downloads data') = [Sample.task]
       /\ map entry_task (ix_failed_downloads data') ⊆+ map Retry.retry_task failed.
Proof.
  set (failed := [Sample.failed_entry Sample.dest]).
  assert (H1 : index_json (Sample.ledger_world failed) = Some (Sample.ledger failed))
    by reflexivity.
  assert (H2 : 0 < 2) by lia.
  split_and!; [exact H1 | exact H2 |].
  destruct (Retry.run Sample.down (Retry.init 2 2, Sample.ledger_world failed))
    as [[data'|e] [o' w']] eqn:Hrun; [|by vm_compute in Hrun].
  exists data'. split; [done|].
  destruct (retry_run_loses_no_task Sample.down (Sample.ledger failed) data' 2 2
              (Sample.ledger_world failed) w' o' H1 H2 Hrun) as (_ & Hsub & _).
  split; [|exact Hsub].
  vm_compute in Hrun. by injection Hrun as <- _ _.
Defined.


(** ** [normalize_filename] *)

Lemma replace_app (old : N) (new a b : list N) :
  Text.replace old new (a ++ b) = (Text.replace old new a ++ Text.replace old new b)%list.
Proof. unfold Text.replace. apply flat_map_app. Qed.

Lemma replace_all_app (reps : list (N * list N)) :
  forall a b, replace_all reps (a ++ b) = (replace_all reps a ++ replace_all reps b)%list.
Proof.
  induction reps as [|r reps IH]; intros a b; [done|].
  cbn [replace_all fold_left]. rewrite replace_app. apply IH.
Qed.

Lemma replace_all_nil (reps : list (N * list N)) : replace_all reps [] = [].
Proof. induction reps as [|r reps IH]; [done|]. apply IH. Qed.

Lemma replace_keep (old c : N) (new : list N) :
  c <> old -> Text.replace old new [c] = [c].
Proof.
  intros Hc. unfold Text.replace. cbn. by destruct (N.eqb_spec c old).
Qed.

(** What the replacements make of one character. *)
Lemma replace_all_char (c : N) :
  (c ∈ map fst replacements
   /\ (replace_all replacements [c] = [] \/ replace_all replacements [c] = [95%N]))
  \/ ((c ∉ map fst replacements) /\ replace_all replacements [c] = [c]).
Proof.
  destruct (decide (c ∈ map fst replacements)) as [Hin|Hout].
  - left. split; [done|].
    cbn in Hin. repeat (apply elem_of_cons in Hin as [->|Hin]; [vm_compute; auto|]).
    by apply elem_of_nil in Hin.
  - right. split; [done|].
    cbn in Hout.
    repeat (apply not_elem_of_cons in Hout as [? Hout]).
    unfold replace_all, replacements. cbn [fold_left fst snd].
    by rewrite !replace_keep by done.
Qed.

Lemma underscore_is_kept : (95%N ∉ map fst replacements) /\ Text.is_space 95 = false.
Proof. split; [|done]. cbn. intros H. repeat (apply elem_of_cons in H as [?|H]; [done|]).
  by apply elem_of_nil in H. Qed.

Lemma replace_all_clean (s : list N) :
  Forall (fun c => c ∉ map fst replacements) (replace_all replacements s).
Proof.
  induction s as [|c s IH]; [by rewrite replace_all_nil|].
  change (c :: s) with ([c] ++ s)%list. rewrite replace_all_app.
  apply Forall_app. split; [|done].
  destruct (replace_all_char c) as [(_ & [-> | ->])|(Hout & ->)].
  - constructor.
  - constructor; [apply underscore_is_kept | constructor].
  - by constructor.
Qed.

Lemma replace_all_id (s : list N) :
  Forall (fun c => c ∉ map fst replacements) s -> replace_all replacements s = s.
Proof.
  induction 1 as [|c s Hc Hs IH]; [by rewrite replace_all_nil|].
  change (c :: s) with ([c] ++ s)%list. rewrite replace_all_app, IH.
  destruct (replace_all_char c) as [(Hin & _)|(_ & ->)]; [done | done].
Qed.

Lemma split_from_words (s : list N) :
  forall cur,
  Forall (fun c => Text.is_space c = false) cur ->
  Forall (fun w => w <> [] /\ Forall (fun c => Text.is_space c = false) w)
         (Text.split_from cur s).
Proof.
  induction s as [|c s IH]; intros cur Hcur; cbn [Text.split_from].
  - destruct cur; [constructor|]. constructor; [by split | constructor].
  - destruct (Text.is_space c) eqn:Hc.
    + destruct cur; [by apply IH|].
      constructor; [done|]. by apply IH.
    + apply IH. apply Forall_app. split; [done|]. constructor; [done | constructor].
Qed.

Lemma split_from_chars (P : N -> Prop) (s : list N) :
  forall cur,
  Forall P cur -> Forall P s -> Forall (Forall P) (Text.split_from cur s).
Proof.
  induction s as [|c s IH]; intros cur Hcur Hs; cbn [Text.split_from].
  - destruct cur; [constructor|]. constructor; [done | constructor].
  - apply Forall_cons in Hs as [Hc Hs].
    destruct (Text.is_space c).
    + destruct cur; [by apply IH|].
      constructor; [done|]. by apply IH.
    + apply IH; [|done]. apply Forall_app. split; [done|].
      constructor; [done | constructor].
Qed.

Lemma split_from_word (w : list N) :
  forall cur rest,
  Forall (fun c => Text.is_space c = false) w ->
  Text.split_from cur (w ++ rest) = Text.split_from (cur ++ w) rest.
Proof.
  induction w as [|c w IH]; intros cur rest Hw.
  - by rewrite app_nil_r.
  - apply Forall_cons in Hw as [Hc Hw]. cbn [app Text.split_from]. rewrite Hc.
    rewrite IH by done. by rewrite <- app_assoc.
Qed.

Lemma safe_word_plain (w : list N) :
  safe_word w -> w <> [] /\ Forall (fun c => Text.is_space c = false) w.
Proof.
  intros (Hne & Hw). split; [done|]. eapply Forall_impl; [exact Hw|]. by intros c [? _].
Qed.

Lemma join_cons (sep w : list N) (w' : list N) (ws : list (list N)) :
  Text.join sep (w :: w' :: ws) = (w ++ sep ++ Text.join sep (w' :: ws))%list.
Proof. reflexivity. Qed.

Lemma join_nonempty (sep w : list N) (ws : list (list N)) :
  w <> [] -> Text.join sep (w :: ws) <> [].
Proof.
  intros Hw. destruct ws as [|w' ws]; [done|]. rewrite join_cons.
  destruct w; [done | done].
Qed.

Lemma split_join (ws : list (list N)) :
  Forall safe_word ws -> Text.split (Text.join [32%N] ws) = ws.
Proof.
  induction 1 as [|w ws Hw Hws IH]; [done|].
  destruct (safe_word_plain w Hw) as (Hne & Hns).
  unfold Text.split in *. destruct ws as [|w' ws].
  - cbn [Text.join]. rewrite <- (app_nil_r w) at 1.
    rewrite split_from_word by done. cbn. by destruct w.
  - rewrite join_cons, split_from_word by done.
    cbn [app Text.split_from]. change (Text.is_space 32) with true. cbn iota.
    rewrite IH. by destruct w.
Qed.

Lemma lstrip_join (ws : list (list N)) :
  Forall safe_word ws -> Text.lstrip (Text.join [32%N] ws) = Text.join [32%N] ws.
Proof.
  intros Hws. destruct Hws as [|w ws Hw Hws]; [done|].
  destruct (safe_word_plain w Hw) as (Hne & Hns).
  destruct w as [|c w]; [done|]. apply Forall_cons in Hns as [Hc _].
  destruct ws as [|w' ws].
  - cbn. by rewrite Hc.
  - rewrite join_cons. cbn. by rewrite Hc.
Qed.

Lemma rstrip_word (w : list N) :
  Forall (fun c => Text.is_space c = false) w -> Text.rstrip w = w.
Proof.
  induction 1 as [|c w Hc Hw IH]; [done|].
  cbn [Text.rstrip]. rewrite IH. destruct w; [by rewrite Hc | done].
Qed.

Lemma rstrip_app (a b : list N) :
  Text.rstrip b <> [] -> Text.rstrip (a ++ b) = (a ++ Text.rstrip b)%list.
Proof.
  intros Hb. induction a as [|c a IH]; [done|].
  cbn [app Text.rstrip]. rewrite IH.
  destruct (a ++ Text.rstrip b)%list eqn:Hab; [|done].
  apply app_eq_nil in Hab as [_ ?]. done.
Qed.

Lemma rstrip_join (ws : list (list N)) :
  Forall safe_word ws -> Text.rstrip (Text.join [32%N] ws) = Text.join [32%N] ws.
Proof.
  induction 1 as [|w ws Hw Hws IH]; [done|].
  destruct (safe_word_plain w Hw) as (Hne & Hns).
  destruct ws as [|w' ws]; [by apply rstrip_word|].
  rewrite join_cons, !app_assoc.
  assert (Hne' : Text.join [32%N] (w' :: ws) <> []).
  { apply join_nonempty. apply Forall_cons in Hws as [Hw' _]. by destruct Hw'. }
  rewrite rstrip_app; rewrite IH; done.
Qed.

Lemma join_chars (P : N -> Prop) (sep : list N) (ws : list (list N)) :
  Forall P sep -> Forall (Forall P) ws -> Forall P (Text.join sep ws).
Proof.
  intros Hsep. induction 1 as [|w ws Hw Hws IH]; [constructor|].
  destruct ws as [|w' ws]; [done|]. rewrite join_cons.
  apply Forall_app. split; [done|]. apply Forall_app. by split.
Qed.

Lemma normalize_filename_words (filename : list N) :
  Forall safe_word (Text.split (replace_all replacements (Text.strip filename))).
Proof.
  set (t := replace_all replacements (Text.strip filename)).
  pose proof (split_from_words t [] (Forall_nil_2 _)) as Hwords.
  pose proof (split_from_chars _ t [] (Forall_nil_2 _) (replace_all_clean (Text.strip filename)))
    as Hclean.
  fold t in Hclean. unfold Text.split.
  induction (Text.split_from [] t) as [|w ws IH]; [constructor|].
  apply Forall_cons in Hwords as [(Hne & Hns) Hwords].
  apply Forall_cons in Hclean as [Hcl Hclean].
  constructor; [|by apply IH].
  split; [done|]. clear -Hns Hcl.
  induction w as [|c w IHw]; [constructor|].
  apply Forall_cons in Hns as [? ?]. apply Forall_cons in Hcl as [? ?].
  constructor; [done | by apply IHw].
Qed.

Lemma normalize_filename_form (filename : list N) :
  exists ws,
    normalize_filename filename = Text.join [32%N] ws
    /\ Forall safe_word ws
    /\ Forall (fun c => (c ∉ map fst replacements)
                        /\ (Text.is_space c = true -> c = 32%N))
              (normalize_filename filename).
Proof.
  exists (Text.split (replace_all replacements (Text.strip filename))).
  pose proof (normalize_filename_words filename) as Hws.
  split_and!; [done | done |].
  unfold normalize_filename. apply join_chars.
  - constructor; [|constructor]. split; [|done].
    cbn. intros H. repeat (apply elem_of_cons in H as [?|H]; [done|]).
    by apply elem_of_nil in H.
  - eapply Forall_impl; [exact Hws|]. intros w (_ & Hw).
    eapply Forall_impl; [exact Hw|]. intros c (Hc & ?). split; [done|]. congruence.
Qed.

(** X15.  The result of [normalize_filename] is a list of words joined by
    single spaces, where a word is not empty and holds no whitespace and
    none of the twelve replaced characters: no path separator, no line
    break, no tab and no doubled, leading or trailing space is left. *)
Theorem normalize_filename_shape (filename : list N) :
  exists ws,
    normalize_filename filename = Text.join [32%N] ws
    /\ Forall safe_word ws
    /\ Forall (fun c => (c ∉ map fst replacements)
                        /\ (Text.is_space c = true -> c = 32%N))
              (normalize_filename filename).
Proof.
  exists (Text.split (replace_all replacements (Text.strip filename))).
  pose proof (normalize_filename_words filename) as Hws.
  split_and!; [done | done |].
  unfold normalize_filename. apply join_chars.
  - constructor; [|constructor]. split; [|done].
    cbn. intros H. repeat (apply elem_of_cons in H as [?|H]; [done|]).
    by apply elem_of_nil in H.
  - eapply Forall_impl; [exact Hws|]. intros w (_ & Hw).
    eapply Forall_impl; [exact Hw|]. intros c (Hc & ?). split; [done|]. congruence.
Qed.

(** X16.  [normalize_filename] is idempotent: a normalised name is its own
    normal form. *)
Theorem normalize_filename_idempotent (filename : list N) :
  normalize_filename (normalize_filename filename) = normalize_filename filename.
Proof.
  destruct (normalize_filename_form filename) as (ws & -> & Hws & Hall).
  unfold normalize_filename, Text.strip.
  rewrite lstrip_join, rstrip_join by done.
  rewrite replace_all_id.
  - by rewrite split_join.
  - eapply Forall_impl; [exact Hall|]. by intros c [? _].
Qed.


(** ** Text: stripping, searching, splitting *)

Lemma Forall_lstrip (P : N -> Prop) (s : list N) :
  Forall P s -> Forall P (Text.lstrip s).
Proof.
  induction 1 as [|c s Hc Hs IH]; [constructor|].
  cbn [Text.lstrip]. destruct (Text.is_space c); [done | by constructor].
Qed.

Lemma rstrip_cons_empty (c : N) (s : list N) :
  Text.rstrip s = [] ->
  Text.rstrip (c :: s) = if Text.is_space c then [] else [c].
Proof. intros H. cbn [Text.rstrip]. by rewrite H. Qed.

Lemma rstrip_cons_nonempty (c : N) (s : list N) :
  Text.rstrip s <> [] -> Text.rstrip (c :: s) = c :: Text.rstrip s.
Proof. intros H. cbn [Text.rstrip]. by destruct (Text.rstrip s). Qed.

Lemma Forall_rstrip (P : N -> Prop) (s : list N) :
  Forall P s -> Forall P (Text.rstrip s).
Proof.
  induction 1 as [|c s Hc Hs IH]; [constructor|].
  destruct (Text.rstrip s) as [|d t] eqn:Hr.
  - rewrite rstrip_cons_empty by done.
    destruct (Text.is_space c); [constructor | by repeat constructor].
  - rewrite rstrip_cons_nonempty by (by rewrite Hr). rewrite Hr. by constructor.
Qed.

Lemma Forall_strip (P : N -> Prop) (s : list N) :
  Forall P s -> Forall P (Text.strip s).
Proof. intros H. by apply Forall_rstrip, Forall_lstrip. Qed.

Lemma lstrip_length (s : list N) : (length (Text.lstrip s) <= length s)%nat.
Proof.
  induction s as [|c s IH]; [done|]. cbn [Text.lstrip].
  destruct (Text.is_space c); cbn [length]; lia.
Qed.

Lemma lstrip_lstrip (s : list N) : Text.lstrip (Text.lstrip s) = Text.lstrip s.
Proof.
  induction s as [|c s IH]; [done|]. cbn [Text.lstrip].
  destruct (Text.is_space c) eqn:Hc; [done|]. cbn [Text.lstrip]. by rewrite Hc.
Qed.

Lemma lstrip_rstrip (t : list N) :
  Text.lstrip t = t -> Text.lstrip (Text.rstrip t) = Text.rstrip t.
Proof.
  destruct t as [|c t]; [done|]. intros H.
  assert (Hc : Text.is_space c = false).
  { destruct (Text.is_space c) eqn:Hc; [|done]. cbn [Text.lstrip] in H. rewrite Hc in H.
    apply (f_equal length) in H. pose proof (lstrip_length t). cbn [length] in H. lia. }
  destruct (Text.rstrip t) as [|d u] eqn:Hr.
  - rewrite rstrip_cons_empty by done. rewrite Hc. cbn [Text.lstrip]. by rewrite Hc.
  - rewrite rstrip_cons_nonempty by (by rewrite Hr). cbn [Text.lstrip]. by rewrite Hc.
Qed.

Lemma rstrip_rstrip (s : list N) : Text.rstrip (Text.rstrip s) = Text.rstrip s.
Proof.
  induction s as [|c s IH]; [done|].
  destruct (Text.rstrip s) as [|d t] eqn:Hr.
  - rewrite rstrip_cons_empty by done.
    destruct (Text.is_space c) eqn:Hc; [done|].
    rewrite rstrip_cons_empty by done. by rewrite Hc.
  - rewrite rstrip_cons_nonempty by (by rewrite Hr). rewrite Hr.
    rewrite rstrip_cons_nonempty by (by rewrite IH). by rewrite IH.
Qed.

Lemma strip_strip (s : list N) : Text.strip (Text.strip s) = Text.strip s.
Proof.
  unfold Text.strip. rewrite lstrip_rstrip by apply lstrip_lstrip. apply rstrip_rstrip.
Qed.

Lemma startswith_contains (needle s : list N) :
  Text.startswith needle s = true -> Text.contains needle s = true.
Proof. intros H. destruct s; cbn [Text.contains]; by rewrite H. Qed.

Lemma contains_nil (c : N) (needle : list N) : Text.contains (c :: needle) [] = false.
Proof. reflexivity. Qed.

Lemma contains_lstrip (h : N) (nd s : list N) :
  Text.is_space h = false ->
  Text.contains (h :: nd) s = true -> Text.contains (h :: nd) (Text.lstrip s) = true.
Proof.
  intros Hh. induction s as [|c s IH]; [done|]. cbn [Text.lstrip].
  destruct (Text.is_space c) eqn:Hc; [|done]. intros H. apply IH.
  cbn [Text.contains Text.startswith] in H. apply orb_true_iff in H as [H|H]; [|done].
  apply andb_true_iff in H as [Heq _]. apply N.eqb_eq in Heq. congruence.
Qed.

Lemma startswith_rstrip (needle : list N) :
  forall s,
  Forall (fun c => Text.is_space c = false) needle ->
  Text.startswith needle s = true -> Text.startswith needle (Text.rstrip s) = true.
Proof.
  induction needle as [|h nd IH]; intros s Hn H; [done|].
  destruct s as [|c s]; [done|]. cbn [Text.startswith] in H.
  apply andb_true_iff in H as [Heq H]. apply N.eqb_eq in Heq as <-.
  apply Forall_cons in Hn as [Hh Hn]. specialize (IH s Hn H).
  destruct (Text.rstrip s) as [|d t] eqn:Hr.
  - rewrite rstrip_cons_empty by done. rewrite Hh.
    destruct nd; [|done]. cbn. by rewrite N.eqb_refl.
  - rewrite rstrip_cons_nonempty by (by rewrite Hr). rewrite Hr.
    cbn [Text.startswith]. by rewrite N.eqb_refl.
Qed.

Lemma contains_rstrip (h : N) (nd s : list N) :
  Forall (fun c => Text.is_space c = false) (h :: nd) ->
  Text.contains (h :: nd) s = true -> Text.contains (h :: nd) (Text.rstrip s) = true.
Proof.
  intros Hn. induction s as [|c s IH]; [done|]. intros H.
  cbn [Text.contains] in H. apply orb_true_iff in H as [H|H].
  - by apply startswith_contains, startswith_rstrip.
  - specialize (IH H).
    assert (Hne : Text.rstrip s <> []) by (intros Heq; by rewrite Heq in IH).
    rewrite rstrip_cons_nonempty by done. cbn [Text.contains].
    rewrite IH. apply orb_true_r.
Qed.

Lemma contains_strip (h : N) (nd s : list N) :
  Forall (fun c => Text.is_space c = false) (h :: nd) ->
  Text.contains (h :: nd) s = true -> Text.contains (h :: nd) (Text.strip s) = true.
Proof.
  intros Hn H. apply contains_rstrip; [done|]. apply contains_lstrip; [|done].
  by apply Forall_cons in Hn as [? _].
Qed.

Lemma split_on_cons (sep : N) (s : list N) :
  exists w ws, Text.split_on sep s = w :: ws.
Proof.
  induction s as [|c s (w & ws & IH)]; cbn [Text.split_on]; [by eauto|].
  destruct (c =? sep)%N; [by eauto|]. rewrite IH. by eauto.
Qed.

Lemma split_on_Forall (P : N -> Prop) (sep : N) (s : list N) :
  Forall P s ->
  Forall (Forall (fun c => P c /\ c <> sep)) (Text.split_on sep s).
Proof.
  induction 1 as [|c s Hc Hs IH]; cbn [Text.split_on]; [by repeat constructor|].
  destruct (N.eqb_spec c sep) as [_|Hne].
  - constructor; [constructor | done].
  - destruct (Text.split_on sep s) as [|w ws]; [by repeat constructor|].
    apply Forall_cons in IH as [Hw Hws]. constructor; [by constructor | done].
Qed.

Lemma split_on_app (sep : N) (a b : list N) :
  Text.split_on sep (a ++ sep :: b)
  = (Text.split_on sep a ++ Text.split_on sep b)%list.
Proof.
  induction a as [|c a IH]; cbn [app Text.split_on].
  - by rewrite N.eqb_refl.
  - destruct (c =? sep)%N; rewrite IH; [done|].
    by destruct (split_on_cons sep a) as (w & ws & ->).
Qed.

Lemma Forall_removelast {A} (Q : A -> Prop) (l : list A) :
  Forall Q l -> Forall Q (removelast l).
Proof.
  induction 1 as [|x l Hx Hl IH]; [constructor|]. cbn [removelast].
  destruct l; [constructor | by constructor].
Qed.

Lemma Forall_middle {A} (Q : A -> Prop) (l : list A) :
  Forall Q l -> Forall Q (Text.middle l).
Proof.
  intros H. unfold Text.middle. apply Forall_removelast.
  destruct H; [constructor | done].
Qed.

Lemma text_span_spec (p : N -> bool) (s : list N) :
  forall run rest,
  Text.span p s = (run, rest) ->
  s = (run ++ rest)%list /\ Forall (fun c => p c = true) run.
Proof.
  induction s as [|c s IH]; intros run rest H; cbn [Text.span] in H.
  - injection H as <- <-. by split.
  - destruct (p c) eqn:Hp.
    + destruct (Text.span p s) as [r1 r2] eqn:Hs. injection H as <- <-.
      destruct (IH _ _ eq_refl) as [-> HF]. split; [done | by constructor].
    + injection H as <- <-. by split.
Qed.

Lemma text_span_app (p : N -> bool) (a : list N) (x : N) (r : list N) :
  Forall (fun c => p c = true) a -> p x = false ->
  Text.span p (a ++ x :: r) = (a, x :: r).
Proof.
  intros Ha Hx. induction Ha as [|c a Hc Ha IH]; cbn [app Text.span].
  - by rewrite Hx.
  - by rewrite Hc, IH.
Qed.

(** ** The link pattern *)

Lemma differs (k : N) (l : list N) :
  Forall (fun c => negb (c =? k)%N = true) l <-> Forall (fun c => c <> k) l.
Proof.
  apply Forall_iff. intros c. rewrite negb_true_iff. apply N.eqb_neq.
Qed.

Lemma link_at_spec (s text url rest : list N) :
  link_at s = Some (text, url, rest) ->
  s = (91%N :: text ++ 93%N :: 40%N :: url ++ 41%N :: rest)%list
  /\ text <> [] /\ url <> []
  /\ Forall (fun c => c <> 93%N) text
  /\ Forall (fun c => c <> 41%N) url.
Proof.
  unfold link_at. destruct s as [|c s1]; [done|].
  destruct (N.eqb_spec c 91) as [->|_]; cbn [negb]; [|done].
  destruct (Text.span _ s1) as [t s2] eqn:H1.
  destruct t as [|t0 t]; [done|].
  destruct s2 as [|c1 [|c2 s3]]; try done.
  destruct (N.eqb_spec c1 93) as [->|_]; cbn [andb]; [|done].
  destruct (N.eqb_spec c2 40) as [->|_]; [|done].
  destruct (Text.span _ s3) as [u s4] eqn:H2.
  destruct u as [|u0 u]; [done|].
  destruct s4 as [|c3 s5]; [done|].
  destruct (N.eqb_spec c3 41) as [->|_]; [|done].
  intros [= <- <- <-].
  apply text_span_spec in H1 as [-> Ht]. apply text_span_spec in H2 as [-> Hu].
  apply differs in Ht, Hu. by split_and!.
Qed.

Lemma link_at_render (text url rest : list N) :
  text <> [] -> url <> [] ->
  Forall (fun c => c <> 93%N) text ->
  Forall (fun c => c <> 41%N) url ->
  link_at (render_link text url ++ rest) = Some (text, url, rest).
Proof.
  intros Ht Hu Hnt Hnu. apply differs in Hnt, Hnu.
  unfold render_link. cbn [app]. rewrite <- !app_assoc. cbn [app].
  unfold link_at. cbn [N.eqb Pos.eqb negb].
  rewrite (text_span_app _ text 93 _ Hnt eq_refl).
  destruct text as [|t0 text]; [done|]. cbn [N.eqb Pos.eqb andb].
  rewrite <- app_assoc. cbn [app].
  rewrite (text_span_app _ url 41 _ Hnu eq_refl).
  by destruct url.
Qed.

Lemma findall_found (P : N -> Prop) :
  forall (fuel : nat) (s : list N),
  Forall P s ->
  Forall (fun m => fst m <> [] /\ snd m <> []
                   /\ Forall (fun c => P c /\ c <> 93%N) (fst m)
                   /\ Forall (fun c => P c /\ c <> 41%N) (snd m))
         (findall fuel s).
Proof.
  induction fuel as [|fuel IH]; intros s Hs; [constructor|].
  cbn [findall]. destruct s as [|c s']; [constructor|].
  destruct (link_at (c :: s')) as [[[text url] rest]|] eqn:Hl.
  - apply link_at_spec in Hl as (Heq & Ht & Hu & Hnt & Hnu).
    rewrite Heq in Hs.
    apply Forall_cons in Hs as [_ Hs]. apply Forall_app in Hs as [Hpt Hs].
    apply Forall_cons in Hs as [_ Hs]. apply Forall_cons in Hs as [_ Hs].
    apply Forall_app in Hs as [Hpu Hs]. apply Forall_cons in Hs as [_ Hs].
    constructor; [|by apply IH]. cbn [fst snd]. split_and!; try done.
    + rewrite Forall_forall in Hpt, Hnt |- *. intros x Hx. split; auto.
    + rewrite Forall_forall in Hpu, Hnu |- *. intros x Hx. split; auto.
  - apply IH. by apply Forall_cons in Hs as [_ Hs].
Qed.

(** The fuel of [links] is enough: more of it finds nothing more. *)
Lemma findall_fuel :
  forall (f1 f2 : nat) (s : list N),
  (length s <= f1)%nat -> (length s <= f2)%nat -> findall f1 s = findall f2 s.
Proof.
  induction f1 as [|f1 IH]; intros f2 s H1 H2.
  - destruct s; [by destruct f2 | cbn in H1; lia].
  - destruct f2 as [|f2]; [destruct s; [done | cbn in H2; lia]|].
    cbn [findall]. destruct s as [|c s']; [done|]. cbn [length] in H1, H2.
    destruct (link_at (c :: s')) as [[[text url] rest]|] eqn:Hl.
    + apply link_at_spec in Hl as (Heq & _).
      apply (f_equal length) in Heq. cbn [length] in Heq.
      rewrite length_app in Heq. cbn [length] in Heq.
      rewrite length_app in Heq. cbn [length] in Heq.
      f_equal. apply IH; lia.
    + apply IH; lia.
Qed.

Lemma length_render (text url rest : list N) :
  length (render_link text url ++ rest)
  = S (length text + length url + 3 + length rest).
Proof.
  unfold render_link. cbn [app length]. rewrite !length_app. cbn [length].
  rewrite !length_app. cbn [length]. lia.
Qed.

(** ** The entries of a markdown file *)

Lemma link_num_range (link_text : list N) :
  link_num link_text = 1 \/ link_num link_text = 2.
Proof.
  unfold link_num. destruct (_ || _); [by right|]. destruct (_ || _); by left.
Qed.

Lemma https_plain : Forall (fun c => Text.is_space c = false) Lit.https.
Proof. by repeat constructor. Qed.

Lemma cell_links_well_formed (book_name cell : list N) :
  book_name <> [] ->
  Text.strip book_name = book_name ->
  Forall (fun c => c <> Lit.bar /\ c <> Lit.newline) book_name ->
  Forall (fun c => c <> Lit.bar /\ c <> Lit.newline) cell ->
  Forall well_formed (cell_links book_name cell).
Proof.
  intros Hne Hstrip Hbook Hcell. unfold cell_links.
  destruct (_ && _); [|constructor].
  apply Forall_flat_map.
  eapply Forall_impl; [apply (findall_found _ _ _ Hcell)|].
  intros [text url] (_ & _ & _ & Hurl). cbn [fst snd] in *.
  destruct (Text.contains Lit.https url) eqn:Hh; [|constructor].
  constructor; [|constructor].
  unfold well_formed. cbn [found_book_name found_url found_link_number].
  split_and!; try done.
  - apply strip_strip.
  - apply Forall_strip. eapply Forall_impl; [exact Hurl|].
    intros c ((? & ?) & ?). by split_and!.
  - by apply (contains_strip 104 _ url https_plain).
  - apply link_num_range.
Qed.

Lemma parse_line_well_formed (digit : N -> bool) (line : list N) :
  Forall (fun c => c <> Lit.newline) line ->
  Forall well_formed (parse_line digit line).
Proof.
  intros Hline. unfold parse_line.
  destruct (_ && _); [|constructor]. cbn zeta.
  destruct (3 <=? _)%nat; [|constructor].
  assert (Hcells : Forall (fun cell => Text.strip cell = cell
                              /\ Forall (fun c => c <> Lit.bar /\ c <> Lit.newline) cell)
                     (map Text.strip (Text.middle (Text.split_on Lit.bar line)))).
  { apply Forall_map. apply Forall_middle.
    eapply Forall_impl; [apply (split_on_Forall _ Lit.bar _ Hline)|].
    intros piece Hp. split; [apply strip_strip|].
    apply Forall_strip. eapply Forall_impl; [exact Hp|]. by intros c [? ?]. }
  destruct (find _ _) as [book_name|] eqn:Hfind; [|constructor].
  apply find_some in Hfind as [Hin Hbook].
  apply list_elem_of_In in Hin.
  pose proof (proj1 (Forall_forall _ _) Hcells _ Hin) as (Hstrip & Hchars).
  assert (Hne : book_name <> []) by (by destruct book_name).
  apply Forall_flat_map.
  eapply Forall_impl; [exact Hcells|].
  intros cell (_ & Hc). by apply cell_links_well_formed.
Qed.

Lemma parsed_entries_well_formed_all (digit : N -> bool) (read : option (list N)) :
  Forall well_formed (parse_markdown_file digit read).
Proof.
  destruct read as [content|]; [|constructor].
  unfold parse_markdown_file, parse_content. apply Forall_flat_map.
  eapply Forall_impl; [apply (split_on_Forall (fun _ => True) Lit.newline content)|].
  - by apply Forall_forall.
  - intros line Hl. apply parse_line_well_formed.
    eapply Forall_impl; [exact Hl|]. by intros c [_ ?].
Qed.

(** X17.  Every entry [parse_markdown_file] returns is well formed: its
    book name is not empty; neither the book name nor the URL has
    whitespace at its ends, a bar or a line feed in it; the URL holds
    [https://] and no closing parenthesis, at which the pattern cuts a link
    off; the link number is 1 or 2.  When the file cannot be read there is
    no entry. *)
Theorem parsed_entries_are_well_formed (digit : N -> bool) (read : option (list N)) :
  Forall well_formed (parse_markdown_file digit read)
  /\ (read = None -> parse_markdown_file digit read = []).
Proof.
  split; [|by intros ->].
  destruct read as [content|]; [|constructor].
  unfold parse_markdown_file, parse_content. apply Forall_flat_map.
  eapply Forall_impl; [apply (split_on_Forall (fun _ => True) Lit.newline content)|].
  - by apply Forall_forall.
  - intros line Hl. apply parse_line_well_formed.
    eapply Forall_impl; [exact Hl|]. by intros c [_ ?].
Qed.

(** X18.  The parser works line by line: the entries of a text are the
    entries of what stands before a line feed followed by the entries of
    what stands after it, so no entry depends on another line. *)
Theorem parse_content_by_line (digit : N -> bool) (a b : list N) :
  parse_content digit (a ++ Lit.newline :: b)
  = (parse_content digit a ++ parse_content digit b)%list.
Proof.
  unfold parse_content. by rewrite split_on_app, flat_map_app.
Qed.

(** X19.  A link that is written out is found again: in front of any text,
    the markdown of a link whose text is not empty and has no closing
    bracket, and whose URL is not empty and has no closing parenthesis, is
    the first match of the pattern, with that text and that URL, and the
    search goes on behind it. *)
Theorem written_link_is_found (text url rest : list N) :
  text <> [] -> url <> [] ->
  Forall (fun c => c <> 93%N) text ->
  Forall (fun c => c <> 41%N) url ->
  links (render_link text url ++ rest) = (text, url) :: links rest.
Proof.
  intros Ht Hu Hnt Hnu. unfold links. rewrite length_render.
  pose proof (link_at_render text url rest Ht Hu Hnt Hnu) as Hl.
  cbn [findall].
  destruct (render_link text url ++ rest)%list as [|c s'] eqn:Hs; [done|].
  rewrite Hl. f_equal. apply findall_fuel; lia.
Qed.

Lemma written_link_is_found_witness :
  let text := [76; 105; 110; 107; 45; 50]%N in
  let url := [104; 116; 116; 112; 115; 58; 47; 47; 120]%N in
  links (render_link text url ++ render_link text url)
  = [(text, url); (text, url)].
Proof.
  cbn zeta.
  rewrite (written_link_is_found [76; 105; 110; 107; 45; 50]%N
             [104; 116; 116; 112; 115; 58; 47; 47; 120]%N).
  - reflexivity.
  - done.
  - done.
  - by repeat constructor.
  - by repeat constructor.
Defined.


(** ** The destinations of the scan *)

(** The fuel of [decimal] is enough: more of it gives the same digits. *)
Lemma digits_fuel :
  forall (f1 f2 : nat) (n : N) (acc : list N),
  (N.to_nat n < f1)%nat -> (N.to_nat n < f2)%nat -> digits f1 n acc = digits f2 n acc.
Proof.
  induction f1 as [|f1 IH]; intros f2 n acc H1 H2; [lia|].
  destruct f2 as [|f2]; [lia|]. cbn [digits].
  destruct (N.eqb_spec (n / 10) 0) as [_|Hne]; [done|].
  assert (n / 10 < n)%N.
  { apply N.div_lt; [|lia]. destruct n; [done | lia]. }
  apply IH; lia.
Qed.

Lemma digits_chars (fuel : nat) :
  forall (n : N) (acc : list N),
  Forall (fun c => (48 <= c <= 57)%N) acc ->
  Forall (fun c => (48 <= c <= 57)%N) (digits fuel n acc).
Proof.
  induction fuel as [|fuel IH]; intros n acc Hacc; [done|]. cbn [digits].
  assert (Hd : (48 <= 48 + n mod 10 <= 57)%N).
  { assert (Hm : (n mod 10 < 10)%N) by (by apply N.mod_lt).
    revert Hm. generalize (n mod 10)%N. intros m Hm. lia. }
  destruct (n / 10 =? 0)%N; [by constructor|]. apply IH. by constructor.
Qed.

Lemma decimal_chars (z : Z) :
  Forall (fun c => (48 <= c <= 57)%N \/ c = 45%N) (decimal z).
Proof.
  unfold decimal. destruct (z <? 0).
  - constructor; [by right|].
    eapply Forall_impl; [apply digits_chars; constructor|]. by left.
  - eapply Forall_impl; [apply digits_chars; constructor|]. by left.
Qed.

Lemma split_on_absent (sep : N) (s : list N) :
  Forall (fun c => c <> sep) s -> Text.split_on sep s = [s].
Proof.
  induction 1 as [|c s Hc Hs IH]; [done|]. cbn [Text.split_on].
  destruct (N.eqb_spec c sep); [done|]. by rewrite IH.
Qed.

Lemma path_join_name (dir : list (list N)) (name : list N) :
  Forall (fun c => c <> 47%N) name -> name <> [] -> name <> [46%N] ->
  Path.join dir name = (dir ++ [name])%list.
Proof.
  intros Hname Hne Hdot. unfold Path.join. rewrite split_on_absent by done.
  rewrite filter_cons_True by done. rewrite filter_nil.
  destruct name as [|c name]; [done|]. apply Forall_cons in Hname as [Hc _].
  cbn [Text.startswith]. by destruct (N.eqb_spec 47 c).
Qed.

(** The name of a destination has no separator in it. *)
Lemma pdf_filename_plain (book_name : list N) (link_number : Z) :
  Forall (fun c => c <> 47%N /\ c <> 92%N) (pdf_filename book_name link_number)
  /\ pdf_filename book_name link_number <> []
  /\ pdf_filename book_name link_number <> [46%N].
Proof.
  unfold pdf_filename. split_and!.
  - destruct (normalize_filename_form book_name) as (_ & _ & _ & Hall).
    apply Forall_app. split.
    { eapply Forall_impl; [exact Hall|]. intros c [Hc _].
      split; intros ->; apply Hc; cbn; [do 1 right; by left | do 2 right; by left]. }
    apply Forall_app. split; [by repeat constructor|].
    apply Forall_app. split; [|by repeat constructor].
    eapply Forall_impl; [apply decimal_chars|]. intros c [?| ->]; [lia | done].
  - intros H. apply app_eq_nil in H as [_ H]. done.
  - intros H. apply (f_equal length) in H. rewrite !length_app in H. cbn in H. lia.
Qed.

Lemma scan_file_entry (digit : N -> bool) (md : list (list N) * option (list N))
    (t : scanned) :
  t ∈ scan_file digit md ->
  sc_md_path t = (fst md ++ [index_md])%list
  /\ sc_file_path t
     = (fst md ++ [pdfs_dir; pdf_filename (sc_book_name t) (sc_link_number t)])%list
  /\ well_formed {| found_book_name := sc_book_name t; found_url := sc_url t;
                    found_link_number := sc_link_number t |}.
Proof.
  unfold scan_file. intros (d & -> & Hd)%list_elem_of_fmap.
  cbn [sc_md_path sc_file_path sc_book_name sc_link_number sc_url].
  unfold Path.parent. rewrite removelast_last.
  destruct (pdf_filename_plain (found_book_name d) (found_link_number d))
    as (Hplain & Hne & Hdot).
  rewrite (path_join_name (fst md) pdfs_dir) by (by repeat constructor).
  rewrite path_join_name; try done.
  - rewrite <- app_assoc. split_and!; try done.
    pose proof (parsed_entries_well_formed_all digit (snd md)) as Hwf.
    rewrite Forall_forall in Hwf. specialize (Hwf d Hd). by destruct d.
  - eapply Forall_impl; [exact Hplain|]. by intros c [? _].
Qed.

Lemma scan_entry (digit : N -> bool)
    (md_files : list (list (list N) * option (list N))) (t : scanned) :
  t ∈ scan_all_markdown_files digit md_files ->
  exists folder,
    sc_md_path t = (folder ++ [index_md])%list
    /\ sc_file_path t
       = (folder ++ [pdfs_dir; pdf_filename (sc_book_name t) (sc_link_number t)])%list
    /\ Forall (fun c => c <> 47%N /\ c <> 92%N)
              (pdf_filename (sc_book_name t) (sc_link_number t))
    /\ (sc_link_number t = 1 \/ sc_link_number t = 2).
Proof.
  unfold scan_all_markdown_files. intros Hin.
  apply list_elem_of_In, in_flat_map in Hin as (md & _ & Hin).
  apply list_elem_of_In, (scan_file_entry digit) in Hin as (Hmd & Hpath & Hwf).
  exists (fst md). split_and!; try done.
  - apply pdf_filename_plain.
  - by destruct Hwf as (_ & _ & _ & _ & _ & _ & ?).
Qed.

(** X20.  Every destination the scan builds lies directly in the [PDFs]
    folder beside the [index.md] it came from: the path is the folder of the
    markdown file, then [PDFs], then one component, the normalised book
    name followed by [_], the link number and [.pdf]; that component has no
    slash and no backslash in it, whatever the book name is. *)
Theorem scanned_destination_is_in_pdfs (digit : N -> bool)
    (md_files : list (list (list N) * option (list N))) (t : scanned) :
  t ∈ scan_all_markdown_files digit md_files ->
  exists folder,
    sc_md_path t = (folder ++ [index_md])%list
    /\ sc_file_path t
       = (folder ++ [pdfs_dir; pdf_filename (sc_book_name t) (sc_link_number t)])%list
    /\ Forall (fun c => c <> 47%N /\ c <> 92%N)
              (pdf_filename (sc_book_name t) (sc_link_number t))
    /\ (sc_link_number t = 1 \/ sc_link_number t = 2).
Proof.
  unfold scan_all_markdown_files. intros Hin.
  apply list_elem_of_In, in_flat_map in Hin as (md & _ & Hin).
  apply list_elem_of_In, (scan_file_entry digit) in Hin as (Hmd & Hpath & Hwf).
  exists (fst md). split_and!; try done.
  - apply pdf_filename_plain.
  - by destruct Hwf as (_ & _ & _ & _ & _ & _ & ?).
Qed.

Lemma scanned_destination_is_in_pdfs_witness :
  let digit := fun c : N => ((48 <=? c) && (c <=? 57))%N in
  let row := [124; 32; 49; 32; 124; 32; 97; 47; 98; 32; 124; 32; 91; 2465; 2494;
              2441; 2472; 2482; 2507; 2465; 93; 40; 104; 116; 116; 112; 115; 58;
              47; 47; 120; 41; 32; 124]%N in
  let t := {| sc_url := [104; 116; 116; 112; 115; 58; 47; 47; 120]%N;
              sc_file_path := [[50; 48; 50; 53]; pdfs_dir;
                               [97; 95; 98; 95; 49; 46; 112; 100; 102]]%N;
              sc_book_name := [97; 47; 98]%N;
              sc_link_number := 1;
              sc_md_path := [[50; 48; 50; 53]; index_md]%N |} in
  t ∈ scan_all_markdown_files digit [([[50; 48; 50; 53]%N], Some row)]
  /\ exists folder, sc_md_path t = (folder ++ [index_md])%list.
Proof.
  cbn zeta.
  match goal with |- ?A /\ _ => assert (Hin : A) by (vm_compute; by left) end.
  split; [exact Hin|].
  destruct (scanned_destination_is_in_pdfs _ _ _ Hin) as (folder & Hmd & _).
  by exists folder.
Defined.

(** X21.  Two entries of the scan have the same destination only if they
    come from the same markdown file, have the same normalised book name and
    the same link number: these three decide the destination, the URL and
    the rest of the book name do not. *)
Theorem scanned_destinations_collide_only (digit : N -> bool)
    (md_files : list (list (list N) * option (list N))) (t1 t2 : scanned) :
  t1 ∈ scan_all_markdown_files digit md_files ->
  t2 ∈ scan_all_markdown_files digit md_files ->
  sc_file_path t1 = sc_file_path t2 <->
  sc_md_path t1 = sc_md_path t2
  /\ normalize_filename (sc_book_name t1) = normalize_filename (sc_book_name t2)
  /\ sc_link_number t1 = sc_link_number t2.
Proof.
  intros H1 H2.
  apply (scan_entry digit) in H1 as (f1 & Hm1 & Hp1 & _ & Hl1).
  apply (scan_entry digit) in H2 as (f2 & Hm2 & Hp2 & _ & Hl2).
  rewrite Hm1, Hm2, Hp1, Hp2. split.
  - intros Heq. apply app_inj_2 in Heq as [-> Heq]; [|done].
    injection Heq as Heq. unfold pdf_filename in Heq.
    assert (Hlen : forall z, z = 1 \/ z = 2 ->
              length ([95%N] ++ decimal z ++ dot_pdf)%list = 6%nat)
      by (by intros z [-> | ->]).
    apply app_inj_2 in Heq as [Hn Hs]; [|by rewrite !Hlen].
    split_and!; try done.
    destruct Hl1 as [Hl1|Hl1], Hl2 as [Hl2|Hl2]; rewrite Hl1, Hl2 in Hs |- *;
      try done; by vm_compute in Hs.
  - intros (Hm & Hn & Hl). apply app_inj_tail in Hm as [-> _].
    unfold pdf_filename. by rewrite Hn, Hl.
Qed.

Lemma scanned_destinations_collide_only_witness :
  let digit := fun c : N => ((48 <=? c) && (c <=? 57))%N in
  let link := [91; 2465; 2494; 2441; 2472; 2482; 2507; 2465; 93; 40; 104; 116; 116;
               112; 115; 58; 47; 47; 120; 41]%N in
  let link' := [91; 2465; 2494; 2441; 2472; 2482; 2507; 2465; 93; 40; 104; 116; 116;
                112; 115; 58; 47; 47; 121; 41]%N in
  let row := ([124; 32; 49; 32; 124; 32; 97; 32; 124; 32]%N ++ link ++ [32%N] ++ link'
              ++ [32; 124]%N)%list in
  let found := scan_all_markdown_files digit [([[50; 48; 50; 53]%N], Some row)] in
  exists t1 t2,
    found = [t1; t2]
    /\ sc_url t1 <> sc_url t2
    /\ sc_file_path t1 = sc_file_path t2.
Proof.
  cbn zeta.
  match goal with
  | |- exists t1 t2, ?found = _ /\ _ =>
      destruct found as [|t1 [|t2 [|t3 rest]]] eqn:Hfound;
        try (by vm_compute in Hfound)
  end.
  exists t1, t2. split; [done|].
  assert (H1 : t1 ∈ scan_all_markdown_files
                      (fun c : N => ((48 <=? c) && (c <=? 57))%N)
                      [([[50; 48; 50; 53]%N],
                        Some ([124; 32; 49; 32; 124; 32; 97; 32; 124; 32]%N
                              ++ [91; 2465; 2494; 2441; 2472; 2482; 2507; 2465; 93; 40;
                                  104; 116; 116; 112; 115; 58; 47; 47; 120; 41]%N
                              ++ [32%N]
                              ++ [91; 2465; 2494; 2441; 2472; 2482; 2507; 2465; 93; 40;
                                  104; 116; 116; 112; 115; 58; 47; 47; 121; 41]%N
                              ++ [32; 124]%N)%list)])
    by (rewrite Hfound; by left).
  assert (H2 : t2 ∈ scan_all_markdown_files
                      (fun c : N => ((48 <=? c) && (c <=? 57))%N)
                      [([[50; 48; 50; 53]%N],
                        Some ([124; 32; 49; 32; 124; 32; 97; 32; 124; 32]%N
                              ++ [91; 2465; 2494; 2441; 2472; 2482; 2507; 2465; 93; 40;
                                  104; 116; 116; 112; 115; 58; 47; 47; 120; 41]%N
                              ++ [32%N]
                              ++ [91; 2465; 2494; 2441; 2472; 2482; 2507; 2465; 93; 40;
                                  104; 116; 116; 112; 115; 58; 47; 47; 121; 41]%N
                              ++ [32; 124]%N)%list)])
    by (rewrite Hfound; right; by left).
  vm_compute in Hfound. injection Hfound as <- <-.
  split; [done|].
  apply (proj2 (scanned_destinations_collide_only _ _ _ _ H1 H2)).
  by vm_compute.
Defined.


(** ** The download URLs of a Google Drive file *)

(** X22.  The URL builders agree with the list of fallback URLs: the
    builder of the retry script gives the first URL of the list, the builder
    of the main script gives the second one up to its confirm parameter;
    every URL of the list holds the file id, and the URL of the main script
    holds [drive.google.com], the test under which its request for a
    warning page is followed by a second one. *)
Theorem drive_download_urls (file_id : string) :
  head (Retry.download_urls file_id) = Some (retry_get_google_drive_download_url file_id)
  /\ Retry.download_urls file_id !! 1%nat
     = Some (Direct.get_google_drive_download_url file_id ++ "&confirm=t")
  /\ Forall (fun u => Str.contains file_id u = true) (Retry.download_urls file_id)
  /\ Str.contains file_id (Direct.get_google_drive_download_url file_id) = true
  /\ Str.contains "drive.google.com" (Direct.get_google_drive_download_url file_id) = true.
Proof.
  split_and!.
  - reflexivity.
  - unfold Retry.download_urls, Direct.get_google_drive_download_url.
    cbn [lookup list_lookup]. by rewrite string_app_assoc.
  - unfold Retry.download_urls. repeat constructor.
    + apply contains_spec. by eexists _, _.
    + apply contains_spec. by eexists _, _.
    + apply contains_spec. by eexists _, _.
    + apply contains_spec. eexists _, EmptyString. by rewrite string_app_nil_r.
  - apply contains_spec. unfold Direct.get_google_drive_download_url.
    eexists _, EmptyString. by rewrite string_app_nil_r.
  - apply contains_spec. unfold Direct.get_google_drive_download_url.
    exists "https://", ("/uc?export=download&id=" ++ file_id).
    by rewrite !string_app_cons, !string_app_nil_l.
Qed.
